(** * FileSyncer: one-way folder mirroring (FileSyncer.py)

    A shallow embedding of [get_md5] and [sync_folders] over a model of the
    file system, the console, the clock and the [sched] event queue, and
    the properties of one synchronisation run.

    Conventions.
    - A path is the list of its components from the file-system root, so
      [os.path.join(root, name)] is [root ++ [name]] and a path is under a
      folder when the folder is a prefix of it.
    - The file system is a finite map from paths to entries (regular file
      with its bytes, or directory). Symbolic links, permissions and
      timestamps of files are not modelled.
    - Python library calls ([os], [shutil], [hashlib], [sched], [open],
      [print]) are modelled after their documentation; each call is
      recorded in a trace of system calls and advances the clock.
    - A text is a string of characters. The log file is written in text
      mode, with the encoding of the platform, which may have no code for
      a character of a file name. The console is taken to show every
      text, as the standard output of Python does where its error handler
      is not the strict one (under the C and POSIX locales, for one). *)

From Stdlib Require Import ZArith String Ascii List Lia.
From stdpp Require Import gmap strings list fin_maps pretty.

(** ** hashlib.md5 (RFC 1321) *)

Module MD5.

#[local] Open Scope Z_scope.

Definition mask32 : Z := 0xFFFFFFFF.
Definition add32 (x y : Z) : Z := Z.land (x + y) mask32.
Definition not32 (x : Z) : Z := Z.lxor x mask32.
Definition rotl32 (x c : Z) : Z :=
  Z.land (Z.lor (Z.shiftl x c) (Z.shiftr x (32 - c))) mask32.

Definition shifts : list Z :=
  [7; 12; 17; 22; 7; 12; 17; 22; 7; 12; 17; 22; 7; 12; 17; 22;
   5; 9; 14; 20; 5; 9; 14; 20; 5; 9; 14; 20; 5; 9; 14; 20;
   4; 11; 16; 23; 4; 11; 16; 23; 4; 11; 16; 23; 4; 11; 16; 23;
   6; 10; 15; 21; 6; 10; 15; 21; 6; 10; 15; 21; 6; 10; 15; 21].

(** [sines !! i] is the integer part of [2^32 * |sin (i + 1)|]. *)
Definition sines : list Z :=
  [0xd76aa478; 0xe8c7b756; 0x242070db; 0xc1bdceee;
   0xf57c0faf; 0x4787c62a; 0xa8304613; 0xfd469501;
   0x698098d8; 0x8b44f7af; 0xffff5bb1; 0x895cd7be;
   0x6b901122; 0xfd987193; 0xa679438e; 0x49b40821;
   0xf61e2562; 0xc040b340; 0x265e5a51; 0xe9b6c7aa;
   0xd62f105d; 0x02441453; 0xd8a1e681; 0xe7d3fbc8;
   0x21e1cde6; 0xc33707d6; 0xf4d50d87; 0x455a14ed;
   0xa9e3e905; 0xfcefa3f8; 0x676f02d9; 0x8d2a4c8a;
   0xfffa3942; 0x8771f681; 0x6d9d6122; 0xfde5380c;
   0xa4beea44; 0x4bdecfa9; 0xf6bb4b60; 0xbebfbc70;
   0x289b7ec6; 0xeaa127fa; 0xd4ef3085; 0x04881d05;
   0xd9d4d039; 0xe6db99e5; 0x1fa27cf8; 0xc4ac5665;
   0xf4292244; 0x432aff97; 0xab9423a7; 0xfc93a039;
   0x655b59c3; 0x8f0ccc92; 0xffeff47d; 0x85845dd1;
   0x6fa87e4f; 0xfe2ce6e0; 0xa3014314; 0x4e0811a1;
   0xf7537e82; 0xbd3af235; 0x2ad7d2bb; 0xeb86d391].

Definition nthZ (l : list Z) (i : Z) : Z := nth (Z.to_nat i) l 0.

Definition bytes_of_string (s : string) : list Z :=
  (λ a, Z.of_N (N_of_ascii a)) <$> list_ascii_of_string s.

(** The message followed by the bit 1, zero bits up to 56 bytes modulo 64,
    and the bit length as a 64-bit little-endian integer. *)
Definition le_bytes (n : nat) (x : Z) : list Z :=
  (λ i, Z.land (Z.shiftr x (8 * Z.of_nat i)) 0xFF) <$> seq 0 n.

Definition pad (msg : list Z) : list Z :=
  let len := Z.of_nat (length msg) in
  let zeros := Z.to_nat ((55 - len) mod 64) in
  msg ++ [0x80] ++ replicate zeros 0 ++ le_bytes 8 (Z.land (8 * len) 0xFFFFFFFFFFFFFFFF).

Fixpoint le_words (fuel : nat) (bs : list Z) : list Z :=
  match fuel, bs with
  | S n, b0 :: b1 :: b2 :: b3 :: rest =>
      (b0 + Z.shiftl b1 8 + Z.shiftl b2 16 + Z.shiftl b3 24) :: le_words n rest
  | _, _ => []
  end.

Definition md5_state : Type := Z * Z * Z * Z.

Definition round (m : list Z) (st : md5_state) (i : Z) : md5_state :=
  let '(a, b, c, d) := st in
  let '(f, g) :=
    if i <? 16 then (Z.lor (Z.land b c) (Z.land (not32 b) d), i)
    else if i <? 32 then (Z.lor (Z.land d b) (Z.land (not32 d) c), (5 * i + 1) mod 16)
    else if i <? 48 then (Z.lxor (Z.lxor b c) d, (3 * i + 5) mod 16)
    else (Z.lxor c (Z.lor b (not32 d)), (7 * i) mod 16) in
  let f' := add32 (add32 (add32 f a) (nthZ sines i)) (nthZ m g) in
  (d, add32 b (rotl32 f' (nthZ shifts i)), b, c).

Definition block (st : md5_state) (m : list Z) : md5_state :=
  let '(a0, b0, c0, d0) := st in
  let '(a, b, c, d) := fold_left (round m) (Z.of_nat <$> seq 0 64) st in
  (add32 a0 a, add32 b0 b, add32 c0 c, add32 d0 d).

Fixpoint blocks (fuel : nat) (st : md5_state) (ws : list Z) : md5_state :=
  match fuel with
  | O => st
  | S n => match ws with
           | [] => st
           | _ => blocks n (block st (take 16 ws)) (drop 16 ws)
           end
  end.

Definition init : md5_state := (0x67452301, 0xefcdab89, 0x98badcfe, 0x10325476).

Definition digest (msg : list Z) : list Z :=
  let ws := le_words (length (pad msg)) (pad msg) in
  let '(a, b, c, d) := blocks (length ws) init ws in
  le_bytes 4 a ++ le_bytes 4 b ++ le_bytes 4 c ++ le_bytes 4 d.

Definition hex_digit (x : Z) : ascii :=
  nth (Z.to_nat x) (list_ascii_of_string "0123456789abcdef") "0"%char.

Definition hex (bs : list Z) : string :=
  string_of_list_ascii
    (concat ((λ b, [hex_digit (Z.shiftr b 4); hex_digit (Z.land b 0xF)]) <$> bs)).

(** [hashlib.md5(data).hexdigest()] *)
Definition hexdigest (data : string) : string := hex (digest (bytes_of_string data)).

(** [bytes.fromhex], used to write down binary file contents. *)
Definition unhex_digit (a : ascii) : Z :=
  let n := Z.of_N (N_of_ascii a) in
  if (48 <=? n) && (n <=? 57) then n - 48 else n - 87.

Fixpoint fromhex_list (l : list ascii) (fuel : nat) : list ascii :=
  match fuel, l with
  | S n, h :: lo :: rest =>
      ascii_of_N (Z.to_N (16 * unhex_digit h + unhex_digit lo)) :: fromhex_list rest n
  | _, _ => []
  end.

Definition fromhex (s : string) : string :=
  string_of_list_ascii (fromhex_list (list_ascii_of_string s) (String.length s)).

End MD5.

(** Two different 128-byte messages with the same MD5 digest (Wang and Yu,
    2004). *)
Definition collision_a : string := MD5.fromhex
  ("d131dd02c5e6eec4693d9a0698aff95c2fcab58712467eab4004583eb8fb7f89" +:+
   "55ad340609f4b30283e488832571415a085125e8f7cdc99fd91dbdf280373c5b" +:+
   "d8823e3156348f5bae6dacd436c919c6dd53e2b487da03fd02396306d248cda0" +:+
   "e99f33420f577ee8ce54b67080a80d1ec69821bcb6a8839396f9652b6ff72a70").

Definition collision_b : string := MD5.fromhex
  ("d131dd02c5e6eec4693d9a0698aff95c2fcab50712467eab4004583eb8fb7f89" +:+
   "55ad340609f4b30283e4888325f1415a085125e8f7cdc99fd91dbd7280373c5b" +:+
   "d8823e3156348f5bae6dacd436c919c6dd53e23487da03fd02396306d248cda0" +:+
   "e99f33420f577ee8ce54b67080280d1ec69821bcb6a8839396f965ab6ff72a70").

(** ** Paths and the file system *)

Abbreviation path := (list string).

Inductive entry : Type :=
| File (content : string)
| Dir.

Abbreviation fsys := (gmap path entry).

#[global] Instance entry_eq_dec : EqDecision entry.
Proof. solve_decision. Defined.

(** [os.path.dirname], [os.path.basename]. *)
Definition dirname (p : path) : path := removelast p.
Definition basename (p : path) : string := List.last p ""%string.

(** [os.path.relpath p start] for a path under [start]; the code applies it
    only to paths produced by walking [start]. *)
Definition relpath (p start : path) : path := drop (length start) p.

Definition is_dir (fs : fsys) (p : path) : bool :=
  match fs !! p with Some Dir => true | _ => false end.

Definition is_file (fs : fsys) (p : path) : bool :=
  match fs !! p with Some (File _) => true | _ => false end.

(** [os.path.exists]: an entry of any kind. *)
Definition path_exists (fs : fsys) (p : path) : bool :=
  match fs !! p with Some _ => true | None => false end.

(** A file system is well formed when the root is a directory and every
    entry lies in a directory. *)
Definition wf (fs : fsys) : Prop :=
  fs !! [] = Some Dir ∧ ∀ p n, is_Some (fs !! (p ++ [n])) → fs !! p = Some Dir.

(** The name of [q] when [q] is an entry of the folder [top]. *)
Definition child_name (top q : path) : option string :=
  match reverse q with
  | n :: rp => if decide (reverse rp = top) then Some n else None
  | [] => None
  end.

(** The entries of a folder, as [os.scandir] lists them. *)
Definition listdir (fs : fsys) (top : path) : list (string * entry) :=
  omap (λ qe, (λ n, (n, qe.2)) <$> child_name top qe.1) (map_to_list fs).

Definition subdirs (l : list (string * entry)) : list string :=
  omap (λ ne, match ne.2 with Dir => Some ne.1 | File _ => None end) l.

Definition nondirs (l : list (string * entry)) : list string :=
  omap (λ ne, match ne.2 with File _ => Some ne.1 | Dir => None end) l.

(** ** Exceptions and the outcome of a file-system call *)

Inductive exn : Type :=
| FileNotFoundError
| FileExistsError
| IsADirectoryError
| NotADirectoryError
| DirectoryNotEmpty   (* OSError, errno ENOTEMPTY *)
| DeviceBusy          (* OSError, errno EBUSY: the root directory *)
| SameFileError
| RecursionError
| UnicodeEncodeError.

(** The error of reaching for a path that has no entry: ENOTDIR when a
    regular file stands on the way, ENOENT otherwise. *)
Definition missing (fs : fsys) (p : path) : exn :=
  if existsb (λ k, is_file fs (take k p)) (seq 0 (length p))
  then NotADirectoryError else FileNotFoundError.

(** A call returns the file system it leaves behind and the exception it
    raised, if any. *)
Definition outcome : Type := option exn * fsys.

(** [os.remove] *)
Definition fs_remove (p : path) (fs : fsys) : outcome :=
  match fs !! p with
  | Some (File _) => (None, delete p fs)
  | Some Dir => (Some IsADirectoryError, fs)
  | None => (Some (missing fs p), fs)
  end.

(** [os.rmdir]: only an empty directory is removed. *)
Definition fs_rmdir (p : path) (fs : fsys) : outcome :=
  match fs !! p with
  | Some Dir =>
      match p, listdir fs p with
      | [], _ => (Some DeviceBusy, fs)
      | _, [] => (None, delete p fs)
      | _, _ :: _ => (Some DirectoryNotEmpty, fs)
      end
  | Some (File _) => (Some NotADirectoryError, fs)
  | None => (Some (missing fs p), fs)
  end.

(** Creating an entry [e] at a path that has none: the parent must be a
    directory. *)
Definition fs_create (p : path) (e : entry) (fs : fsys) : outcome :=
  match fs !! dirname p with
  | Some Dir => (None, <[p := e]> fs)
  | Some (File _) => (Some NotADirectoryError, fs)
  | None => (Some (missing fs p), fs)
  end.

(** [os.mkdir] *)
Definition fs_mkdir (p : path) (fs : fsys) : outcome :=
  match fs !! p with
  | Some _ => (Some FileExistsError, fs)
  | None => fs_create p Dir fs
  end.

(** [os.makedirs name] with [exist_ok=False]: creates the missing ancestors
    (a [FileExistsError] of the recursive call is passed over), then the
    leaf with [os.mkdir]. The argument is the path in reverse. *)
Fixpoint fs_makedirs_rev (rp : list string) (fs : fsys) : outcome :=
  match rp with
  | [] => fs_mkdir [] fs
  | _ :: rhead =>
      let '(r, fs1) :=
        if path_exists fs (reverse rhead) then (None, fs)
        else match fs_makedirs_rev rhead fs with
             | (Some FileExistsError, fs1) => (None, fs1)
             | o => o
             end in
      match r with
      | None => fs_mkdir (reverse rp) fs1
      | Some e => (Some e, fs1)
      end
  end.

Definition fs_makedirs (p : path) (fs : fsys) : outcome := fs_makedirs_rev (reverse p) fs.

(** [open(p, "wb")] followed by a write of [c]. *)
Definition fs_write (p : path) (c : string) (fs : fsys) : outcome :=
  match fs !! p with
  | Some (File _) => (None, <[p := File c]> fs)
  | Some Dir => (Some IsADirectoryError, fs)
  | None => fs_create p (File c) fs
  end.

(** [open(p, "a")] followed by a write of [data]. *)
Definition fs_append (p : path) (data : string) (fs : fsys) : outcome :=
  match fs !! p with
  | Some (File c) => (None, <[p := File (c +:+ data)]> fs)
  | Some Dir => (Some IsADirectoryError, fs)
  | None => fs_create p (File data) fs
  end.

(** [shutil.copy2 src dst]: into [dst] when [dst] is a directory; the copy
    of a file onto itself is refused; the source is opened before the
    destination. *)
Definition copy2_target (fs : fsys) (src dst : path) : path :=
  if is_dir fs dst then dst ++ [basename src] else dst.

Definition fs_copy2 (src dst : path) (fs : fsys) : outcome :=
  let dst' := copy2_target fs src dst in
  if bool_decide (src = dst') && path_exists fs src then (Some SameFileError, fs)
  else match fs !! src with
       | Some (File c) => fs_write dst' c fs
       | Some Dir => (Some IsADirectoryError, fs)
       | None => (Some (missing fs src), fs)
       end.

(** [open(p, "rb")]: the bytes of a regular file. *)
Definition fs_open_rb (p : path) (fs : fsys) : exn + string :=
  match fs !! p with
  | Some (File c) => inr c
  | Some Dir => inl IsADirectoryError
  | None => inl (missing fs p)
  end.

(** ** System calls, the scheduler queue and the machine state *)

Inductive syscall : Type :=
| SysStat (p : path)                  (* os.path.exists *)
| SysScandir (p : path)               (* os.scandir, from os.walk *)
| SysOpenRead (p : path)              (* open(p, "rb") *)
| SysRemove (p : path)                (* os.remove *)
| SysRmdir (p : path)                 (* os.rmdir *)
| SysMakedirs (p : path)              (* os.makedirs *)
| SysCopy2 (src dst : path)           (* shutil.copy2 *)
| SysAppend (p : path) (data : string)  (* open(p, "a") and write *)
| SysPrint (line : string).           (* print *)

(** An event of [sched.scheduler]: the action is always [sync_folders], so
    an event keeps its arguments (source, replica, log file, interval). *)
Record event : Type := Event {
  ev_time : Z;
  ev_priority : Z;
  ev_args : path * path * path * Z
}.

(** The world (file system, console, clock, event queue, trace of the
    calls made) and the local variables of [sync_folders]. *)
Record state : Type := State {
  st_fs : fsys;
  st_stdout : list string;
  st_clock : Z;
  st_queue : list event;
  st_trace : list syscall;
  source_files : list path;
  file_copied_counter : nat;
  file_removed_counter : nat;
  file_identical_counter : nat
}.

Definition set_fs (f : fsys) (s : state) : state :=
  State f (st_stdout s) (st_clock s) (st_queue s) (st_trace s)
        (source_files s) (file_copied_counter s) (file_removed_counter s)
        (file_identical_counter s).

Definition set_stdout (o : list string) (s : state) : state :=
  State (st_fs s) o (st_clock s) (st_queue s) (st_trace s)
        (source_files s) (file_copied_counter s) (file_removed_counter s)
        (file_identical_counter s).

Definition set_clock (t : Z) (s : state) : state :=
  State (st_fs s) (st_stdout s) t (st_queue s) (st_trace s)
        (source_files s) (file_copied_counter s) (file_removed_counter s)
        (file_identical_counter s).

Definition set_queue (q : list event) (s : state) : state :=
  State (st_fs s) (st_stdout s) (st_clock s) q (st_trace s)
        (source_files s) (file_copied_counter s) (file_removed_counter s)
        (file_identical_counter s).

Definition set_trace (t : list syscall) (s : state) : state :=
  State (st_fs s) (st_stdout s) (st_clock s) (st_queue s) t
        (source_files s) (file_copied_counter s) (file_removed_counter s)
        (file_identical_counter s).

Definition set_source_files (l : list path) (s : state) : state :=
  State (st_fs s) (st_stdout s) (st_clock s) (st_queue s) (st_trace s)
        l (file_copied_counter s) (file_removed_counter s)
        (file_identical_counter s).

Definition set_counters (c r i : nat) (s : state) : state :=
  State (st_fs s) (st_stdout s) (st_clock s) (st_queue s) (st_trace s)
        (source_files s) c r i.

(** ** The monad of the program: state and exceptions *)

Inductive result (A : Type) : Type :=
| Ok (a : A) (s : state)
| Raise (e : exn) (s : state).

Arguments Ok {A} a s.
Arguments Raise {A} e s.

Definition M (A : Type) : Type := state → result A.

Definition ret {A} (a : A) : M A := λ s, Ok a s.

Definition bind {A B} (m : M A) (k : A → M B) : M B :=
  λ s, match m s with
       | Ok a s' => k a s'
       | Raise e s' => Raise e s'
       end.

Definition raise {A} (e : exn) : M A := λ s, Raise e s.

Declare Scope prog_scope.
Delimit Scope prog_scope with prog.
Notation "x <- m ;; k" := (bind m (λ x, k))
  (at level 20, m at level 99, k at level 200, right associativity) : prog_scope.
Notation "m ;; k" := (bind m (λ _, k))
  (at level 100, k at level 200, right associativity) : prog_scope.
Open Scope prog_scope.

(** [for x in l: body x] *)
Fixpoint for_each {A} (l : list A) (body : A → M unit) : M unit :=
  match l with
  | [] => ret tt
  | x :: l' => body x ;; for_each l' body
  end.

Definition nl : string := String (ascii_of_nat 10) EmptyString.

(** A path as the program prints it. *)
Definition show_path (p : path) : string := "/" +:+ String.concat "/" p.

(** ** The library calls *)

Section Program.

(** The time each call takes and the rendering of the clock by
    [time.strftime('%Y-%m-%d %H:%M:%S')] belong to the platform. *)
Variable latency : syscall → Z.
Variable strftime : Z → string.

(** The text encoding of the platform ([locale.getpreferredencoding]), with
    which [open(log_file, "a")] writes: it encodes the characters of
    ASCII, as every encoding that Python takes for the locale does, and
    [encodable] tells which of the other characters it encodes. A name
    that [os.walk] could not decode holds characters that it does not
    encode. *)
Variable encodable : ascii → bool.

Fixpoint encodes (text : string) : bool :=
  match text with
  | EmptyString => true
  | String a rest => ((nat_of_ascii a <? 128)%nat || encodable a) && encodes rest
  end.

Definition tick (sc : syscall) (s : state) : state :=
  set_clock (st_clock s + latency sc)%Z (set_trace (st_trace s ++ [sc]) s).

(** A call that may change the file system. *)
Definition fs_call (sc : syscall) (op : fsys → outcome) : M unit :=
  λ s, let s1 := tick sc s in
       let '(r, fs') := op (st_fs s1) in
       match r with
       | None => Ok tt (set_fs fs' s1)
       | Some e => Raise e (set_fs fs' s1)
       end.

Definition os_path_exists (p : path) : M bool :=
  λ s, Ok (path_exists (st_fs s) p) (tick (SysStat p) s).

(** [os.scandir] as [os.walk] uses it: the names of the directories and of
    the other entries, or nothing when the folder cannot be listed. *)
Definition os_scandir (top : path) : M (option (list string * list string)) :=
  λ s, Ok (if is_dir (st_fs s) top
           then Some (subdirs (listdir (st_fs s) top), nondirs (listdir (st_fs s) top))
           else None)
          (tick (SysScandir top) s).

Definition os_remove (p : path) : M unit := fs_call (SysRemove p) (fs_remove p).
Definition os_rmdir (p : path) : M unit := fs_call (SysRmdir p) (fs_rmdir p).
Definition os_makedirs (p : path) : M unit := fs_call (SysMakedirs p) (fs_makedirs p).
Definition shutil_copy2 (src dst : path) : M unit :=
  fs_call (SysCopy2 src dst) (fs_copy2 src dst).

Definition open_rb (p : path) : M string :=
  λ s, match fs_open_rb p (st_fs s) with
       | inr c => Ok c (tick (SysOpenRead p) s)
       | inl e => Raise e (tick (SysOpenRead p) s)
       end.

(** [print(line)] *)
Definition print (line : string) : M unit :=
  λ s, Ok tt (set_stdout (st_stdout s ++ [line]) (tick (SysPrint line) s)).

(** [with open(log_file, "a") as f: f.write(f"{time.strftime(...)} - {msg}\n")]:
    the file is opened for appending, which creates it when it is
    missing. When the encoding has no code for a character of the
    message, nothing is written and the write raises
    [UnicodeEncodeError]. The text of the time is made of digits and
    signs of ASCII and is taken to be encoded. *)
Definition log_event (log_file : path) (msg : string) : M unit :=
  λ s, let data := strftime (st_clock s) +:+ " - " +:+ msg +:+ nl in
       if encodes msg
       then fs_call (SysAppend log_file data) (fs_append log_file data) s
       else (fs_call (SysAppend log_file "") (fs_append log_file "") ;;
             raise UnicodeEncodeError) s.

(** [with open(log_file, "a") as f:] and three writes without a time, of
    lines made of characters of ASCII. *)
Definition log_summary (log_file : path) (data : string) : M unit :=
  fs_call (SysAppend log_file data) (fs_append log_file data).

(** [sched.scheduler.enter delay priority action argument]: the event is due
    at [timefunc() + delay] and is queued after the events that are due
    before it or have a smaller or equal priority at the same time. *)
Fixpoint heappush (ev : event) (q : list event) : list event :=
  match q with
  | [] => [ev]
  | e :: q' =>
      if ((ev_time ev <? ev_time e)
          || ((ev_time ev =? ev_time e) && (ev_priority ev <? ev_priority e)))%Z
      then ev :: q else e :: heappush ev q'
  end.

Definition sched_enter (delay priority : Z) (args : path * path * path * Z) : M unit :=
  λ s, Ok tt (set_queue (heappush (Event (st_clock s + delay)%Z priority args) (st_queue s)) s).

(** ** os.walk *)

(** [for root, dirs, files in os.walk(top, topdown): body root dirs files].
    A folder is listed when the walk reaches it; with [topdown=False] its
    triple is produced after the triples of its subfolders. A folder that
    cannot be listed is passed over. The fuel bounds the depth of the
    recursion. *)
Fixpoint os_walk (fuel : nat) (topdown : bool) (top : path)
    (body : path → list string → list string → M unit) : M unit :=
  match fuel with
  | O => raise RecursionError
  | S n =>
      r <- os_scandir top ;;
      match r with
      | None => ret tt
      | Some (dirs, files) =>
          if topdown
          then body top dirs files ;;
               for_each dirs (λ d, os_walk n topdown (top ++ [d]) body)
          else for_each dirs (λ d, os_walk n topdown (top ++ [d]) body) ;;
               body top dirs files
      end
  end.

(** The depth of the deepest entry bounds the recursion of a walk. *)
Definition depth (fs : fsys) : nat :=
  max_list ((λ pe, length pe.1) <$> map_to_list fs).

(** ** get_md5 *)

Fixpoint str_take (n : nat) (s : string) : string :=
  match n, s with
  | S n', String a s' => String a (str_take n' s')
  | _, _ => EmptyString
  end.

Fixpoint str_drop (n : nat) (s : string) : string :=
  match n, s with
  | S n', String _ s' => str_drop n' s'
  | _, _ => s
  end.

Definition chunk_size : nat := Z.to_nat 8192.

(** [while chunk := f.read(8192): file_hash.update(chunk)]; the hash object
    is the data it was fed, [rest] is what the file still holds. *)
Fixpoint read_loop (fuel : nat) (rest : string) (file_hash : string) : string :=
  match fuel with
  | O => file_hash
  | S n =>
      let chunk := str_take chunk_size rest in
      if decide (chunk = EmptyString) then file_hash
      else read_loop n (str_drop chunk_size rest) (file_hash +:+ chunk)
  end.

Definition get_md5 (filename : path) : M string :=
  f <- open_rb filename ;;
  let file_hash := read_loop (S (String.length f)) f EmptyString in
  let md5 := MD5.hexdigest file_hash in
  ret md5.

(** ** sync_folders *)

Definition incr_removed : M unit :=
  λ s, Ok tt (set_counters (file_copied_counter s) (S (file_removed_counter s))
                           (file_identical_counter s) s).

Definition incr_identical : M unit :=
  λ s, Ok tt (set_counters (file_copied_counter s) (file_removed_counter s)
                           (S (file_identical_counter s)) s).

Definition incr_copied : M unit :=
  λ s, Ok tt (set_counters (S (file_copied_counter s)) (file_removed_counter s)
                           (file_identical_counter s) s).

Definition append_source_file (p : path) : M unit :=
  λ s, Ok tt (set_source_files (source_files s ++ [p]) s).

Definition get_source_files : M (list path) := λ s, Ok (source_files s) s.

Definition walk_fuel : M nat := λ s, Ok (S (depth (st_fs s))) s.

Section Run.

Variables source_folder replica_folder log_file : path.
Variable backup_interval : Z.

(** Lines 28-30: the body of the scan of the source folder. *)
Definition scan_body (root : path) (dirs files : list string) : M unit :=
  for_each files (λ name, append_source_file (root ++ [name])).

(** Lines 34-42. *)
Definition delete_file (root : path) (name : string) : M unit :=
  let replica_file := root ++ [name] in
  let source_file := source_folder ++ relpath replica_file replica_folder in
  found <- os_path_exists source_file ;;
  if found then ret tt
  else os_remove replica_file ;;
       print (show_path replica_file +:+ " removed from replica folder") ;;
       incr_removed ;;
       log_event log_file (show_path replica_file +:+ " removed from replica folder").

(** Lines 43-50. *)
Definition delete_dir (root : path) (name : string) : M unit :=
  let replica_dir := root ++ [name] in
  let source_dir := source_folder ++ relpath replica_dir replica_folder in
  found <- os_path_exists source_dir ;;
  if found then ret tt
  else os_rmdir replica_dir ;;
       print (show_path replica_dir +:+ " removed from replica folder") ;;
       log_event log_file (show_path replica_dir +:+ " removed from replica folder").

Definition delete_body (root : path) (dirs files : list string) : M unit :=
  for_each files (delete_file root) ;;
  for_each dirs (delete_dir root).

(** Lines 53-78: one iteration of the copy loop. *)
Definition copy_file (source_file : path) : M unit :=
  let rel_path := relpath source_file source_folder in
  let replica_file := replica_folder ++ rel_path in
  let replica_dir := dirname replica_file in
  dir_found <- os_path_exists replica_dir ;;
  (if dir_found then ret tt else os_makedirs replica_dir) ;;
  found <- os_path_exists replica_file ;;
  same <- (if found
           then h1 <- get_md5 source_file ;;
                h2 <- get_md5 replica_file ;;
                ret (bool_decide (h1 = h2))
           else ret false) ;;
  if same
  then print (show_path source_file +:+ " already exists in replica folder and is identical") ;;
       incr_identical ;;
       log_event log_file
         (show_path source_file +:+ " already exists in replica folder and is identical")
  else shutil_copy2 source_file replica_file ;;
       print (show_path source_file +:+ " copied to replica folder") ;;
       incr_copied ;;
       log_event log_file (show_path source_file +:+ " copied to replica folder").

Definition summary_lines (s : state) : list string :=
  [ "Files copied - " +:+ pretty (file_copied_counter s) +:+ nl;
    "Files removed - " +:+ pretty (file_removed_counter s) +:+ nl;
    "Files unaltered - " +:+ pretty (file_identical_counter s) +:+ nl ].

Definition report : M unit :=
  λ s, (for_each (summary_lines s) print ;;
        log_summary log_file (String.concat "" (summary_lines s))) s.

Definition sync_folders : M unit :=
  (λ s, Ok tt (set_source_files [] (set_counters 0 0 0 s))) ;;
  fuel <- walk_fuel ;;
  os_walk fuel true source_folder scan_body ;;
  fuel <- walk_fuel ;;
  os_walk fuel false replica_folder delete_body ;;
  files <- get_source_files ;;
  for_each files copy_file ;;
  report ;;
  sched_enter backup_interval 1%Z
    (source_folder, replica_folder, log_file, backup_interval).

End Run.

(** ** The scheduler *)

(** [time.sleep d], idealised: the clock advances by [d]. *)
Definition time_sleep (d : Z) : M unit :=
  λ s, Ok tt (set_clock (st_clock s + d)%Z s).

(** One round of the loop of [sched.scheduler.run], as [__main__] calls it
    (lines 151 and 161): with an empty queue the loop ends; an event that
    is not due is slept for; an event that is due is taken off the queue
    and its action, [sync_folders], is called, followed by a sleep of no
    time. The result tells whether the loop goes on. *)
Definition sched_round : M bool :=
  λ s, match st_queue s with
       | [] => Ok false s
       | ev :: q =>
           if (st_clock s <? ev_time ev)%Z
           then (time_sleep (ev_time ev - st_clock s) ;; ret true) s
           else (let '(source_folder, replica_folder, log_file, backup_interval) :=
                   ev_args ev in
                 sync_folders source_folder replica_folder log_file backup_interval ;;
                 time_sleep 0 ;;
                 ret true) (set_queue q s)
       end.

(** The first [rounds] rounds of [sched.scheduler.run]. *)
Fixpoint scheduler_run (rounds : nat) : M unit :=
  match rounds with
  | O => ret tt
  | S n => continue <- sched_round ;;
           if continue then scheduler_run n else ret tt
  end.

(** Lines 159-161: the first run, then the scheduler. *)
Definition main (source_folder replica_folder log_file : path)
    (backup_interval : Z) (rounds : nat) : M unit :=
  sync_folders source_folder replica_folder log_file backup_interval ;;
  scheduler_run rounds.

(** ** Vocabulary of the specification *)

(** [q] lies strictly beneath the folder [top]. *)
Definition beneath (top q : path) : Prop := ∃ n r, q = top ++ n :: r.

(** Neither path is at or under the other. *)
Definition apart (p q : path) : Prop := ¬ p `prefix_of` q ∧ ¬ q `prefix_of` p.

(** The source folder, the replica folder and the log file do not overlap. *)
Definition layout (source_folder replica_folder log_file : path) : Prop :=
  apart source_folder replica_folder
  ∧ apart log_file source_folder
  ∧ apart log_file replica_folder.

(** The effect of a call on the file system, whether it succeeds or not. *)
Definition sys_effect (sc : syscall) (fs : fsys) : fsys :=
  match sc with
  | SysRemove p => (fs_remove p fs).2
  | SysRmdir p => (fs_rmdir p fs).2
  | SysMakedirs p => (fs_makedirs p fs).2
  | SysCopy2 src dst => (fs_copy2 src dst fs).2
  | SysAppend p data => (fs_append p data fs).2
  | SysStat _ | SysScandir _ | SysOpenRead _ | SysPrint _ => fs
  end.

(** The file system after a sequence of calls. *)
Definition replay (tr : list syscall) (fs : fsys) : fsys :=
  fold_left (λ f sc, sys_effect sc f) tr fs.

(** The state a computation ends in, normally or by an exception. *)
Definition final {A} (r : result A) : state :=
  match r with Ok _ s => s | Raise _ s => s end.

(** The paths whose entry a call may create, change or delete. *)
Definition writes (sc : syscall) (q : path) : Prop :=
  match sc with
  | SysRemove p | SysRmdir p | SysAppend p _ => q = p
  | SysMakedirs p => q `prefix_of` p
  | SysCopy2 src dst => q = dst ∨ q = dst ++ [basename src]
  | SysStat _ | SysScandir _ | SysOpenRead _ | SysPrint _ => False
  end.

(** What a computation does to the world, whatever its outcome: the calls
    it adds to the trace all satisfy [F], the file system is the one these
    calls produce, and the clock advances by the time they take. *)
Definition emits_at {A} (s : state) (F : syscall → Prop) (m : M A) : Prop :=
  ∃ tr,
    st_trace (final (m s)) = st_trace s ++ tr
    ∧ Forall F tr
    ∧ st_fs (final (m s)) = replay tr (st_fs s)
    ∧ st_clock (final (m s)) = (st_clock s + foldr Z.add 0 (latency <$> tr))%Z.

Definition emits {A} (F : syscall → Prop) (m : M A) : Prop :=
  ∀ s, emits_at s F m.

(** The calls of the three parts of a run. The scan lists folders; the
    deletion pass tests paths, deletes strictly beneath the replica
    folder, prints and appends to the log file; an iteration of the copy
    loop for the source file [a] creates the folder of its replica path and
    copies [a] there. *)
Definition scan_calls (sc : syscall) : Prop :=
  match sc with
  | SysScandir _ => True
  | _ => False
  end.

Definition delete_calls (replica_folder log_file : path) (sc : syscall) : Prop :=
  match sc with
  | SysRemove p | SysRmdir p => beneath replica_folder p
  | SysAppend p _ => p = log_file
  | SysStat _ | SysScandir _ | SysPrint _ => True
  | SysOpenRead _ | SysMakedirs _ | SysCopy2 _ _ => False
  end.

Definition copy_calls (source_folder replica_folder log_file : path) (a : path)
    (sc : syscall) : Prop :=
  match sc with
  | SysMakedirs p => p = dirname (replica_folder ++ relpath a source_folder)
  | SysCopy2 x b => x = a ∧ b = replica_folder ++ relpath a source_folder
  | SysAppend p _ => p = log_file
  | SysStat _ | SysOpenRead _ | SysPrint _ => True
  | SysScandir _ | SysRemove _ | SysRmdir _ => False
  end.

Definition report_calls (log_file : path) (sc : syscall) : Prop :=
  match sc with
  | SysAppend p _ => p = log_file
  | SysPrint _ => True
  | _ => False
  end.

(** The calls of a run, whatever the state it starts in. *)
Definition footprint (source_folder replica_folder log_file : path)
    (sc : syscall) : Prop :=
  match sc with
  | SysRemove p | SysRmdir p => beneath replica_folder p
  | SysMakedirs p => ∃ a, p = dirname (replica_folder ++ relpath a source_folder)
  | SysCopy2 a b => b = replica_folder ++ relpath a source_folder
  | SysAppend p _ => p = log_file
  | SysStat _ | SysScandir _ | SysOpenRead _ | SysPrint _ => True
  end.

(** The calls of a run that starts with the file system [fs]: folders are
    created and files copied for the regular files of the source only. *)
Definition run_calls (source_folder replica_folder log_file : path) (fs : fsys)
    (sc : syscall) : Prop :=
  match sc with
  | SysRemove p | SysRmdir p => beneath replica_folder p
  | SysMakedirs p =>
      ∃ rel, rel ≠ [] ∧ is_file fs (source_folder ++ rel) = true
             ∧ p = dirname (replica_folder ++ rel)
  | SysCopy2 a b =>
      ∃ rel, rel ≠ [] ∧ is_file fs (source_folder ++ rel) = true
             ∧ a = source_folder ++ rel ∧ b = replica_folder ++ rel
  | SysAppend p _ => p = log_file
  | SysStat _ | SysScandir _ | SysOpenRead _ | SysPrint _ => True
  end.

(** The files and the folders a trace removes. *)
Definition removed_files (tr : list syscall) : list path :=
  omap (λ sc, match sc with SysRemove p => Some p | _ => None end) tr.

Definition removed_dirs (tr : list syscall) : list path :=
  omap (λ sc, match sc with SysRmdir p => Some p | _ => None end) tr.

(** The copies a trace makes. *)
Definition copies (tr : list syscall) : list (path * path) :=
  omap (λ sc, match sc with SysCopy2 a b => Some (a, b) | _ => None end) tr.

(** The local variables of [sync_folders] other than the one named. *)
Definition same_files_copied_identical (s s' : state) : Prop :=
  source_files s' = source_files s
  ∧ file_copied_counter s' = file_copied_counter s
  ∧ file_identical_counter s' = file_identical_counter s.

Section DeletionPassSpec.

Variables source_folder replica_folder log_file : path.

(** The replica entry [q] has no counterpart of any kind in the source. *)
Definition stale (fs : fsys) (q : path) : Prop :=
  path_exists fs (source_folder ++ relpath q replica_folder) = false.

(** What the deletion pass leaves of the replica entry [q]. *)
Definition pruned (fs : fsys) (q : path) : option entry :=
  if path_exists fs (source_folder ++ relpath q replica_folder)
  then fs !! q else None.

(** The effect of the deletion pass on the region [R] of the replica: from
    [s] to [s'], the entries of [R] are pruned, the other entries are kept
    (the log file apart), the files removed are the stale files of [R],
    each once, and each is counted. *)
Record del_post (R : path → Prop) (s s' : state) : Prop := {
  dp_in : ∀ q, R q → st_fs s' !! q = pruned (st_fs s) q;
  dp_out : ∀ q, q ≠ log_file → st_fs s' !! q ≠ st_fs s !! q → R q;
  dp_wf : wf (st_fs s');
  dp_locals : same_files_copied_identical s s';
  dp_trace : ∃ tr,
    st_trace s' = st_trace s ++ tr
    ∧ NoDup (removed_files tr)
    ∧ (∀ p, p ∈ removed_files tr ↔ R p ∧ is_file (st_fs s) p = true ∧ stale (st_fs s) p)
    ∧ (∀ p, p ∈ removed_dirs tr → R p ∧ is_dir (st_fs s) p = true ∧ stale (st_fs s) p)
    ∧ file_removed_counter s' = file_removed_counter s + length (removed_files tr)
}.

End DeletionPassSpec.

(** A call that neither deletes, nor creates a folder, nor copies. *)
Definition quiet (sc : syscall) : Prop :=
  match sc with
  | SysRemove _ | SysRmdir _ | SysMakedirs _ | SysCopy2 _ _ => False
  | SysStat _ | SysScandir _ | SysOpenRead _ | SysAppend _ _ | SysPrint _ => True
  end.

(** From [fs] to [fs'] entries are kept, and folders may appear on the way
    to [p]. *)
Definition grown (p : path) (fs fs' : fsys) : Prop :=
  ∀ q, fs' !! q = fs !! q
       ∨ (fs !! q = None ∧ fs' !! q = Some Dir ∧ q `prefix_of` p).

Section CopyPassSpec.

Variables source_folder replica_folder log_file : path.

(** The replica holds at [rel] a regular file with the digest of [c]. *)
Definition in_sync (fs : fsys) (rel : path) (c : string) : Prop :=
  ∃ c2, fs !! (replica_folder ++ rel) = Some (File c2)
        ∧ MD5.hexdigest c = MD5.hexdigest c2.

(** Lines 65-78 of [sync_folders], the part of an iteration of the copy
    loop that follows the creation of the folder. *)
Definition copy_file_tail (source_file replica_file : path) : M unit :=
  found <- os_path_exists replica_file ;;
  same <- (if found
           then h1 <- get_md5 source_file ;;
                h2 <- get_md5 replica_file ;;
                ret (bool_decide (h1 = h2))
           else ret false) ;;
  if same
  then print (show_path source_file +:+ " already exists in replica folder and is identical") ;;
       incr_identical ;;
       log_event log_file
         (show_path source_file +:+ " already exists in replica folder and is identical")
  else shutil_copy2 source_file replica_file ;;
       print (show_path source_file +:+ " copied to replica folder") ;;
       incr_copied ;;
       log_event log_file (show_path source_file +:+ " copied to replica folder").

(** The effect of one iteration of the copy loop, for the source file at
    [rel] with content [c]: either the replica file had the digest of [c]
    and nothing changes but the log and the count of identical files, or
    the replica receives [c], folders on the way to it may appear, and the
    file is counted as copied. *)
Record copy_post (rel : path) (c : string) (s s' : state) : Prop := {
  cp_files : source_files s' = source_files s;
  cp_removed : file_removed_counter s' = file_removed_counter s;
  cp_case :
    (in_sync (st_fs s) rel c
     ∧ (∀ q, q ≠ log_file → st_fs s' !! q = st_fs s !! q)
     ∧ file_copied_counter s' = file_copied_counter s
     ∧ file_identical_counter s' = S (file_identical_counter s)
     ∧ ∃ tr, st_trace s' = st_trace s ++ tr ∧ Forall quiet tr)
    ∨ (¬ in_sync (st_fs s) rel c
       ∧ st_fs s !! (replica_folder ++ rel) ≠ Some Dir
       ∧ st_fs s' !! (replica_folder ++ rel) = Some (File c)
       ∧ (∀ q, q ≠ log_file → q ≠ replica_folder ++ rel →
            st_fs s' !! q = st_fs s !! q
            ∨ (st_fs s !! q = None ∧ st_fs s' !! q = Some Dir
               ∧ q `prefix_of` dirname (replica_folder ++ rel)))
       ∧ file_copied_counter s' = S (file_copied_counter s)
       ∧ file_identical_counter s' = file_identical_counter s
       ∧ ∃ tr, st_trace s' = st_trace s ++ tr
               ∧ copies tr = [(source_folder ++ rel, replica_folder ++ rel)])
}.

End CopyPassSpec.

(** The effect of the copy loop from [s] to [s'] after the source files
    [seen]: the entries of [s] are kept, the log file apart, unless they
    are the replica of a file of [seen] or a folder created on the way to
    one; each file of [seen] has a replica with its digest, which is the
    file itself or what the replica held before; and each iteration was
    counted once. *)
Record copied_post (source_folder replica_folder log_file : path)
    (seen : list path) (s s' : state) : Prop := {
  cl_wf : wf (st_fs s');
  cl_files : source_files s' = source_files s;
  cl_removed : file_removed_counter s' = file_removed_counter s;
  cl_count :
    file_copied_counter s' + file_identical_counter s'
    = file_copied_counter s + file_identical_counter s + length seen;
  cl_frame : ∀ q, q ≠ log_file →
    st_fs s' !! q = st_fs s !! q
    ∨ ∃ rel, source_folder ++ rel ∈ seen
        ∧ ((q = replica_folder ++ rel ∧ is_file (st_fs s') q = true)
           ∨ (st_fs s !! q = None ∧ st_fs s' !! q = Some Dir
              ∧ q `prefix_of` dirname (replica_folder ++ rel)));
  cl_trace : ∃ tr,
    st_trace s' = st_trace s ++ tr
    ∧ Forall (λ sc, ∃ a, a ∈ seen ∧ copy_calls source_folder replica_folder log_file a sc) tr
    ∧ file_copied_counter s' = file_copied_counter s + length (copies tr);
  cl_sync : ∀ rel c,
    source_folder ++ rel ∈ seen →
    st_fs s !! (source_folder ++ rel) = Some (File c) →
    ∃ c', st_fs s' !! (replica_folder ++ rel) = Some (File c')
          ∧ MD5.hexdigest c' = MD5.hexdigest c
          ∧ (c' = c ∨ st_fs s !! (replica_folder ++ rel) = Some (File c'))
}.

(** ** The order of the deletion pass *)

(** The replica entry a call of the deletion pass is about: the entry whose
    source counterpart is tested, or the entry removed. *)
Definition touches (source_folder replica_folder : path) (sc : syscall) : option path :=
  match sc with
  | SysStat p => Some (replica_folder ++ relpath p source_folder)
  | SysRemove p | SysRmdir p => Some p
  | _ => None
  end.

Definition touched (source_folder replica_folder : path) (tr : list syscall) : list path :=
  omap (touches source_folder replica_folder) tr.

(** No entry comes after an entry that lies above it. *)
Definition children_first (l : list path) : Prop :=
  ∀ l1 p l2 q, l = l1 ++ p :: l2 → q ∈ l2 → ¬ beneath p q.

(** The calls of the body of the deletion pass for the folder [root] are
    about the entries of [root]. *)
Definition child_calls (source_folder replica_folder root : path) (sc : syscall) : Prop :=
  ∀ q, touches source_folder replica_folder sc = Some q → ∃ name, q = root ++ [name].

(** ** Failing calls *)

(** The exception a call raises on the file system [fs], if any. *)
Definition sys_error (sc : syscall) (fs : fsys) : option exn :=
  match sc with
  | SysRemove p => (fs_remove p fs).1
  | SysRmdir p => (fs_rmdir p fs).1
  | SysMakedirs p => (fs_makedirs p fs).1
  | SysCopy2 src dst => (fs_copy2 src dst fs).1
  | SysAppend p data => (fs_append p data fs).1
  | SysOpenRead p => match fs_open_rb p fs with inl e => Some e | inr _ => None end
  | SysStat _ | SysScandir _ | SysPrint _ => None
  end.

(** The calls [tr], made one after the other from [fs], all succeed. *)
Fixpoint no_fail (tr : list syscall) (fs : fsys) : Prop :=
  match tr with
  | [] => True
  | sc :: tr' => sys_error sc fs = None ∧ no_fail tr' (sys_effect sc fs)
  end.

(** A computation that stops at the first call that fails, with the
    exception of this call, and raises no exception of its own but that
    of a text that is not encoded. *)
Definition strict_at {A} (s : state) (m : M A) : Prop :=
  ∃ tr,
    st_trace (final (m s)) = st_trace s ++ tr
    ∧ st_fs (final (m s)) = replay tr (st_fs s)
    ∧ match m s with
      | Ok _ _ => no_fail tr (st_fs s)
      | Raise e _ =>
          (∃ tr1 sc, tr = tr1 ++ [sc] ∧ no_fail tr1 (st_fs s)
                     ∧ sys_error sc (replay tr1 (st_fs s)) = Some e)
          ∨ (e = UnicodeEncodeError ∧ no_fail tr (st_fs s))
      end.

Definition strict {A} (m : M A) : Prop := ∀ s, strict_at s m.

(** A computation that makes no folder appear. *)
Definition no_new_dir {A} (m : M A) : Prop :=
  ∀ s q, st_fs (final (m s)) !! q = Some Dir → st_fs s !! q = Some Dir.

(** A component of the state that an exception leaves as it was at the
    start. *)
Definition keeps_on_raise {A X} (f : state → X) (m : M A) : Prop :=
  ∀ s e s', m s = Raise e s' → f s' = f s.

(** A computation that leaves a component of the state alone. *)
Definition keeps {A X} (f : state → X) (m : M A) : Prop :=
  ∀ s, f (final (m s)) = f s.

(** ** Counting the entries of a tree *)

Definition beneathb (top q : path) : bool :=
  bool_decide (top `prefix_of` q) && bool_decide (q ≠ top).

Definition is_file_entry (e : entry) : bool :=
  match e with File _ => true | Dir => false end.

(** The regular files beneath a folder. *)
Definition regular_files (top : path) (fs : fsys) : fsys :=
  filter (λ pe, beneathb top pe.1 && is_file_entry pe.2 = true) fs.

(** The regular files beneath the replica folder whose path has no entry
    in the source folder. *)
Definition stale_files (source_folder replica_folder : path) (fs : fsys) : fsys :=
  filter (λ pe, beneathb replica_folder pe.1 && is_file_entry pe.2
                && negb (path_exists fs (source_folder ++ relpath pe.1 replica_folder))
                = true) fs.

(** The replica mirrors the source in [fs] and the log file is a regular
    file: every regular file of the source has a replica with its digest
    and a name that is encoded, and every replica entry has a source
    entry. *)
Record synced (source_folder replica_folder log_file : path) (fs : fsys) : Prop := {
  sy_wf : wf fs;
  sy_log : is_file fs log_file = true;
  sy_files : ∀ rel c, rel ≠ [] → fs !! (source_folder ++ rel) = Some (File c) →
               in_sync replica_folder fs rel c;
  sy_orphans : ∀ rel, rel ≠ [] → is_Some (fs !! (replica_folder ++ rel)) →
                 is_Some (fs !! (source_folder ++ rel));
  sy_names : ∀ rel c, rel ≠ [] → fs !! (source_folder ++ rel) = Some (File c) →
               encodes (show_path (source_folder ++ rel)) = true
}.

(** ** Sample runs *)

(** Tests for [apart], [layout] and [wf]. *)
Definition apartb (p q : path) : bool :=
  negb (bool_decide (p `prefix_of` q)) && negb (bool_decide (q `prefix_of` p)).

Definition layoutb (source_folder replica_folder log_file : path) : bool :=
  apartb source_folder replica_folder
  && apartb log_file source_folder
  && apartb log_file replica_folder.

Definition wfb (fs : fsys) : bool :=
  is_dir fs []
  && forallb (λ pe, match pe.1 with
                    | [] => true
                    | _ :: _ => is_dir fs (dirname pe.1)
                    end) (map_to_list fs).

(** A platform on which every call takes one second, the clock reads the
    same text, and the encoding has the characters of ASCII only. *)
Definition sample_latency (sc : syscall) : Z := 1.
Definition sample_strftime (t : Z) : string := "2024-01-01 00:00:00".
Definition sample_encodable (a : ascii) : bool := false.

Definition initial_state (fs : fsys) : state := State fs [] 0 [] [] [] 0 0 0.

Definition sample_source : path := ["s"].
Definition sample_replica : path := ["r"].
Definition sample_log : path := ["log.txt"].

(** A source with a file, a folder that holds a file and an empty folder;
    a replica with an older version of the second file, a stale file and
    a stale folder that holds a file. *)
Definition sample_fs : fsys :=
  list_to_map
    [ ([], Dir);
      (["s"], Dir);
      (["s"; "a.txt"], File "hi");
      (["s"; "dir"], Dir);
      (["s"; "dir"; "b.txt"], File "v2");
      (["s"; "empty"], Dir);
      (["r"], Dir);
      (["r"; "dir"], Dir);
      (["r"; "dir"; "b.txt"], File "v1");
      (["r"; "old.txt"], File "x");
      (["r"; "gone"], Dir);
      (["r"; "gone"; "c.txt"], File "y");
      (["log.txt"], File "") ].

(** A replica that holds, for the file of the source, another file with
    the same MD5 digest. *)
Definition collision_fs : fsys :=
  list_to_map
    [ ([], Dir);
      (["s"], Dir);
      (["s"; "a.bin"], File collision_a);
      (["r"], Dir);
      (["r"; "a.bin"], File collision_b);
      (["log.txt"], File "") ].

(** A replica that holds a folder where the source holds a file. The walk
    of the source gives the files of a folder before those of its
    folders, so that [d] comes before [sub/e]. *)
Definition mismatch_fs : fsys :=
  list_to_map
    [ ([], Dir);
      (["s"], Dir);
      (["s"; "d"], File "x");
      (["s"; "sub"], Dir);
      (["s"; "sub"; "e"], File "y");
      (["r"], Dir);
      (["r"; "d"], Dir);
      (["log.txt"], File "") ].

(** A replica with two folders that the source has too, of which the one
    that is listed first holds a stale file; the log file is to lie in
    the other one. *)
Definition nested_log_fs : fsys :=
  list_to_map
    [ ([], Dir);
      (["s"], Dir);
      (["s"; "a"], Dir);
      (["s"; "b"], Dir);
      (["s"; "f.txt"], File "x");
      (["r"], Dir);
      (["r"; "a"], Dir);
      (["r"; "b"], Dir);
      (["r"; "b"; "old.txt"], File "o") ].

(** A source file whose name holds a character that is not of ASCII. *)
Definition unencoded_fs : fsys :=
  list_to_map
    [ ([], Dir);
      (["s"], Dir);
      (["s"; String (ascii_of_nat 255) ".txt"], File "x");
      (["r"], Dir);
      (["log.txt"], File "") ].

(** A replica that holds a regular file where the source holds a folder. *)
Definition blocked_fs : fsys :=
  list_to_map
    [ ([], Dir);
      (["s"], Dir);
      (["s"; "a"], Dir);
      (["s"; "a"; "b"], File "x");
      (["r"], Dir);
      (["r"; "a"], File "old");
      (["log.txt"], File "") ].

(** * Further vocabulary: the log, the kinds of entries *)

(** The text that the calls [tr] append to the file [log_file]. *)
Definition appended (log_file : path) (tr : list syscall) : string :=
  foldr (λ sc acc, match sc with
                   | SysAppend p d => if decide (p = log_file) then d +:+ acc else acc
                   | _ => acc
                   end) "" tr.

(** The lines of the log file for a list of events, each with the clock
    at which it was logged. *)
Definition stamped (events : list (Z * string)) : string :=
  foldr (λ e acc, strftime e.1 +:+ " - " +:+ e.2 +:+ nl +:+ acc) "" events.

(** A program that returns has printed the messages of some events, and
    nothing else, and the text it has appended to the log file is the
    lines of these events. *)
Definition tells_at {A} (log_file : path) (s : state) (m : M A) : Prop :=
  match m s with
  | Ok _ s' =>
      ∃ events tr,
        st_stdout s' = st_stdout s ++ events.*2
        ∧ st_trace s' = st_trace s ++ tr
        ∧ appended log_file tr = stamped events
  | Raise _ _ => True
  end.

Definition tells {A} (log_file : path) (m : M A) : Prop :=
  ∀ s, tells_at log_file s m.

(** Two entries of the same kind. *)
Definition same_kind (e e' : entry) : bool :=
  match e, e' with
  | File _, File _ | Dir, Dir => true
  | _, _ => false
  end.

(** Every entry at or under the replica folder whose path has an entry in
    the source folder is of the kind of that entry. *)
Definition fits (source_folder replica_folder : path) (fs : fsys) : Prop :=
  ∀ rel e e', fs !! (replica_folder ++ rel) = Some e →
              fs !! (source_folder ++ rel) = Some e' → same_kind e e' = true.

(** A test for [fits]. *)
Definition fitsb (source_folder replica_folder : path) (fs : fsys) : bool :=
  forallb (λ pe, if bool_decide (replica_folder `prefix_of` pe.1)
                 then match fs !! (source_folder ++ relpath pe.1 replica_folder) with
                      | Some e' => same_kind pe.2 e'
                      | None => true
                      end
                 else true) (map_to_list fs).

(** The paths of the entries beneath the folder [top] are made of
    characters that the encoding of the platform encodes. *)
Definition names_encoded (top : path) (fs : fsys) : Prop :=
  ∀ q, beneath top q → is_Some (fs !! q) → encodes (show_path q) = true.

(** A test for [names_encoded]. *)
Definition names_encodedb (top : path) (fs : fsys) : bool :=
  forallb (λ pe, negb (beneathb top pe.1) || encodes (show_path pe.1))
    (map_to_list fs).

(** The calls of an iteration of the copy loop, for some source file. *)
Definition copy_calls_all (source_folder replica_folder log_file : path)
    (sc : syscall) : Prop :=
  ∃ a, copy_calls source_folder replica_folder log_file a sc.

(** * validate_input and the command loop (lines 92-164) *)

(** Paths are given as text there. How a text names an entry belongs to
    the platform, as do [shlex.split] and [int], which raise [ValueError]
    on the texts they do not accept. *)
Record library : Type := Library {
  resolve : string → path;
  shlex_split : string → option (list string);
  py_int : string → option Z
}.

(** The exceptions of this part: those of the file-system calls and those
    of Python itself. *)
Inductive py_exn : Type :=
| OsError (e : exn)
| IndexError
| ValueError
| EOFError.

(** The state with the lines the user is going to type and the prompts
    shown so far. *)
Record world : Type := World {
  w_state : state;
  w_stdin : list string;
  w_prompts : list string
}.

Inductive io_result (A : Type) : Type :=
| Val (a : A) (w : world)
| Exc (e : py_exn) (w : world).

Arguments Val {A} a w.
Arguments Exc {A} e w.

Definition IO (A : Type) : Type := world → io_result A.

Definition io_ret {A} (a : A) : IO A := λ w, Val a w.

Definition io_bind {A B} (m : IO A) (k : A → IO B) : IO B :=
  λ w, match m w with
       | Val a w' => k a w'
       | Exc e w' => Exc e w'
       end.

Definition io_raise {A} (e : py_exn) : IO A := λ w, Exc e w.

(** A computation on the state alone. *)
Definition lift {A} (m : M A) : IO A :=
  λ w, match m (w_state w) with
       | Ok a s => Val a (World s (w_stdin w) (w_prompts w))
       | Raise e s => Exc (OsError e) (World s (w_stdin w) (w_prompts w))
       end.

Definition io_final {A} (r : io_result A) : world :=
  match r with Val _ w => w | Exc _ w => w end.

Declare Scope io_scope.
Delimit Scope io_scope with io.
Notation "x <- m ;; k" := (io_bind m (λ x, k))
  (at level 20, m at level 99, k at level 200, right associativity) : io_scope.
Notation "m ;; k" := (io_bind m (λ _, k))
  (at level 100, k at level 200, right associativity) : io_scope.

(** [input(prompt)]: the prompt is shown and a line is read. *)
Definition py_input (prompt : string) : IO string :=
  λ w, match w_stdin w with
       | [] => Exc EOFError (World (w_state w) [] (w_prompts w ++ [prompt]))
       | line :: rest => Val line (World (w_state w) rest (w_prompts w ++ [prompt]))
       end.

(** [l[i]] *)
Definition io_index {A} (l : list A) (i : nat) : IO A :=
  match l !! i with
  | Some x => io_ret x
  | None => io_raise IndexError
  end.

Definition os_path_isdir (lib : library) (p : string) : M bool :=
  λ s, Ok (is_dir (st_fs s) (resolve lib p)) (tick (SysStat (resolve lib p)) s).

Definition os_path_isfile (lib : library) (p : string) : M bool :=
  λ s, Ok (is_file (st_fs s) (resolve lib p)) (tick (SysStat (resolve lib p)) s).

(** [os.listdir]: the names of the entries of a folder. *)
Definition os_listdir (lib : library) (p : string) : M (list string) :=
  λ s, let s1 := tick (SysScandir (resolve lib p)) s in
       match st_fs s !! resolve lib p with
       | Some Dir => Ok ((λ ne, ne.1) <$> listdir (st_fs s) (resolve lib p)) s1
       | Some (File _) => Raise NotADirectoryError s1
       | None => Raise (missing (st_fs s) (resolve lib p)) s1
       end.

(** [s.endswith(suffix)] *)
Definition str_endswith (s suffix : string) : bool :=
  bool_decide (str_drop (String.length s - String.length suffix) s = suffix).

(** [s.lower()], for text in ASCII. *)
Definition ascii_lower (a : ascii) : ascii :=
  let n := nat_of_ascii a in
  if (65 <=? n) && (n <=? 90) then ascii_of_nat (n + 32) else a.

Fixpoint str_lower (s : string) : string :=
  match s with
  | EmptyString => EmptyString
  | String a s' => String (ascii_lower a) (str_lower s')
  end.

Definition answer_yes (answer : string) : bool :=
  bool_decide (answer = "y") || bool_decide (answer = "Y").

Definition answer_no (answer : string) : bool :=
  bool_decide (answer = "n") || bool_decide (answer = "N").

(** The list [validate_input] returns: its first four items, of which the
    fourth is an integer, and the items that follow. *)
Record params : Type := Params {
  p_source : string;
  p_replica : string;
  p_log : string;
  p_interval : Z;
  p_rest : list string
}.

(** Line 103: [not os.path.isdir(source_folder) or not os.listdir(source_folder)]. *)
Definition source_unusable (lib : library) (source_folder : string) : M bool :=
  isdir <- os_path_isdir lib source_folder ;;
  if negb isdir then ret true
  else names <- os_listdir lib source_folder ;;
       ret (bool_decide (names = [])).

(** Lines 108-116; the result tells whether [validate_input] goes on. *)
Definition ensure_replica (lib : library) (replica_folder : string) : IO bool :=
  (isdir <- lift (os_path_isdir lib replica_folder) ;;
   if isdir then io_ret true
   else answer <- py_input (replica_folder
                            +:+ " does not exist, do you wish to create it? y/n") ;;
        if answer_yes answer
        then lift (os_makedirs (resolve lib replica_folder)) ;; io_ret true
        else if answer_no answer then io_ret false
        else lift (print "Invalid answer.") ;; io_ret false)%io.

(** Lines 119-129. *)
Definition confirm_replica (lib : library) (source_folder replica_folder : string) :
    IO bool :=
  (names <- lift (os_listdir lib replica_folder) ;;
   if bool_decide (names = []) then io_ret true
   else lift (print (replica_folder
                     +:+ " is not empty continuing will delete all files not present in "
                     +:+ source_folder +:+ ". Do you wish to continue? y/n")) ;;
        answer <- py_input "" ;;
        if answer_yes answer then io_ret true
        else if answer_no answer then io_ret false
        else lift (print "Invalid answer.") ;; io_ret false)%io.

(** Lines 132-134: the log file that is returned. *)
Definition default_log (lib : library) (log_file : string) : M string :=
  isfile <- os_path_isfile lib log_file ;;
  ret (if negb isfile && negb (str_endswith log_file ".txt")
       then log_file +:+ "\log.txt" else log_file).

Definition validate_input (lib : library) (input_string : string) :
    IO (option params) :=
  (input_split <- match shlex_split lib input_string with
                  | Some l => io_ret l
                  | None => io_raise ValueError
                  end ;;
   source_folder <- io_index input_split 0 ;;
   replica_folder <- io_index input_split 1 ;;
   log_file <- io_index input_split 2 ;;
   backup_interval <- io_index input_split 3 ;;
   unusable <- lift (source_unusable lib source_folder) ;;
   if unusable
   then lift (print (source_folder +:+ " does not exist or is empty")) ;;
        io_ret None
   else
     go_on <- ensure_replica lib replica_folder ;;
     if negb go_on then io_ret None
     else
       go_on <- confirm_replica lib source_folder replica_folder ;;
       if negb go_on then io_ret None
       else
         log_file <- lift (default_log lib log_file) ;;
         match py_int lib backup_interval with
         | Some n =>
             io_ret (Some (Params source_folder replica_folder log_file (n * 60)
                                  (drop 4 input_split)))
         | None =>
             lift (print (backup_interval +:+ " is not a integer")) ;;
             io_ret None
         end)%io.

(** Line 147: the text has double quotes and backslashes. *)
Definition dquote : string := String (ascii_of_nat 34) EmptyString.

Definition help_text : string :=
  "Parameters: " +:+ dquote +:+ "path\to\source\folder" +:+ dquote +:+ " "
  +:+ dquote +:+ "path\to\destination\folder" +:+ dquote +:+ " "
  +:+ dquote +:+ "path\to\log" +:+ dquote +:+ " backup_interval in minutes".

Definition print_help : M unit := print help_text.

(** Lines 153-161, one turn of the loop of [__main__], with the first
    [rounds] rounds of the scheduler; an interrupt from the keyboard is
    not modelled. *)
Definition command_turn (lib : library) (rounds : nat) : IO unit :=
  (input_params <- py_input ("Input parameters:" +:+ nl) ;;
   if bool_decide (str_lower input_params = "help") then lift print_help
   else
     validated_params <- validate_input lib input_params ;;
     match validated_params with
     | Some p =>
         lift (main (resolve lib (p_source p)) (resolve lib (p_replica p))
                 (resolve lib (p_log p)) (p_interval p) rounds)
     | None => io_ret tt
     end)%io.

(** A computation that leaves the file system as it is, whatever its
    outcome. *)
Definition io_keeps_fs {A} (m : IO A) : Prop :=
  ∀ w, st_fs (w_state (io_final (m w))) = st_fs (w_state w).

(** ** A sample platform and sample file systems *)

(** The words of a text: what lies between the separators, the empty
    pieces left out. *)
Fixpoint split_on (sep : ascii) (s : string) (word : string) : list string :=
  match s with
  | EmptyString => [word]
  | String a s' =>
      if decide (a = sep) then word :: split_on sep s' EmptyString
      else split_on sep s' (word +:+ String a EmptyString)
  end.

Definition words_of (sep : ascii) (s : string) : list string :=
  filter (λ w, w ≠ EmptyString) (split_on sep s EmptyString).

Fixpoint digits_value (s : string) (acc : Z) : option Z :=
  match s with
  | EmptyString => Some acc
  | String a s' =>
      let n := nat_of_ascii a in
      if (48 <=? n) && (n <=? 57)
      then digits_value s' (acc * 10 + Z.of_nat (n - 48))
      else None
  end.

Definition sample_int (s : string) : option Z :=
  match s with
  | EmptyString => None
  | String a s' =>
      if decide (a = "-"%char)
      then (if decide (s' = EmptyString) then None else Z.opp <$> digits_value s' 0)
      else digits_value s 0
  end.

(** A platform on which a path is a text of names separated by [/], a line
    is cut at the spaces, and an integer is a text of digits that may
    follow a minus sign. *)
Definition sample_lib : library :=
  Library (words_of "/"%char) (λ s, Some (words_of " "%char s)) sample_int.

(** A source with two files and a replica folder that is empty. *)
Definition first_fs : fsys :=
  list_to_map
    [ ([], Dir);
      (["s"], Dir);
      (["s"; "a.txt"], File "hi");
      (["s"; "dir"], Dir);
      (["s"; "dir"; "b.txt"], File "v2");
      (["r"], Dir);
      (["log.txt"], File "") ].

(** A replica of a source folder that is no longer there. *)
Definition orphan_fs : fsys :=
  list_to_map
    [ ([], Dir);
      (["r"], Dir);
      (["r"; "a.txt"], File "hi");
      (["r"; "dir"], Dir);
      (["r"; "dir"; "b.txt"], File "v2");
      (["log.txt"], File "") ].

Definition sample_line : string := "/s /r /log.txt 1".

Definition initial_world (fs : fsys) (lines : list string) : world :=
  World (initial_state fs) lines [].

(** * Properties *)

(** ** hashlib.md5 *)

(** The test suite of RFC 1321, appendix A.5. *)
Example md5_empty : MD5.hexdigest "" = "d41d8cd98f00b204e9800998ecf8427e"%string.
Proof. vm_compute. reflexivity. Qed.

Example md5_abc : MD5.hexdigest "abc" = "900150983cd24fb0d6963f7d28e17f72"%string.
Proof. vm_compute. reflexivity. Qed.

Example md5_digits :
  MD5.hexdigest
    "12345678901234567890123456789012345678901234567890123456789012345678901234567890"
  = "57edf4a22be3c955ac49da2e2107b67a"%string.
Proof. vm_compute. reflexivity. Qed.

Lemma md5_collision :
  collision_a ≠ collision_b ∧ MD5.hexdigest collision_a = MD5.hexdigest collision_b.
Proof. split; [ vm_compute; discriminate | vm_compute; reflexivity ]. Qed.


(** ** Paths *)

Lemma dirname_snoc (p : path) n : dirname (p ++ [n]) = p.
Proof. apply removelast_last. Qed.

Lemma basename_snoc (p : path) n : basename (p ++ [n]) = n.
Proof. apply last_last. Qed.

Lemma relpath_app (top r : path) : relpath (top ++ r) top = r.
Proof. unfold relpath. by rewrite drop_app_length. Qed.

Lemma beneath_prefix top q : beneath top q → top `prefix_of` q.
Proof. intros (n & r & ->). by eexists. Qed.

Lemma beneath_irrefl top : ¬ beneath top top.
Proof.
  intros (n & r & H). apply (f_equal length) in H.
  rewrite length_app in H. simpl in H. lia.
Qed.

Lemma prefix_beneath top q : top `prefix_of` q → q = top ∨ beneath top q.
Proof.
  intros [[|n r] ->].
  - left. by rewrite app_nil_r.
  - right. by exists n, r.
Qed.

Lemma beneath_snoc top n : beneath top (top ++ [n]).
Proof. by exists n, []. Qed.

Lemma beneath_app top q r : beneath top q → beneath top (q ++ r).
Proof. intros (n & k & ->). exists n, (k ++ r). by rewrite <- app_assoc. Qed.

Lemma beneath_trans a b c : beneath a b → beneath b c → beneath a c.
Proof.
  intros (n & r & ->) (m & k & ->). exists n, (r ++ m :: k).
  by rewrite <- app_assoc.
Qed.

Lemma prefix_beneath_trans a b c : a `prefix_of` b → beneath b c → beneath a c.
Proof.
  intros [k ->] (m & r & ->). destruct k as [|x k].
  - rewrite app_nil_r. by exists m, r.
  - exists x, (k ++ m :: r). by rewrite <- app_assoc.
Qed.

Lemma beneath_length top q : beneath top q → length top < length q.
Proof. intros (n & r & ->). rewrite length_app. simpl. lia. Qed.

Lemma beneath_inv_snoc top q n : beneath top (q ++ [n]) → top `prefix_of` q.
Proof.
  intros (m & r & H).
  destruct (decide (r = [])) as [->|Hr].
  - apply app_inj_tail in H as [-> _]. done.
  - destruct (exists_last Hr) as (r' & x & ->).
    change (top ++ m :: r' ++ [x]) with (top ++ (m :: r') ++ [x]) in H.
    rewrite app_assoc in H. apply app_inj_tail in H as [-> _]. by eexists.
Qed.

Lemma beneath_child top q :
  beneath top q → (∃ n, q = top ++ [n]) ∨ (∃ n, beneath (top ++ [n]) q).
Proof.
  intros (n & [|m r] & ->).
  - left. by exists n.
  - right. exists n, m, r. by rewrite <- app_assoc.
Qed.

Lemma beneath_child_inj top n m q :
  beneath (top ++ [n]) q → beneath (top ++ [m]) q → n = m.
Proof.
  intros (a & r & ->) (b & k & H). rewrite <- !app_assoc in H.
  apply app_inv_head in H. simpl in H. congruence.
Qed.

Lemma apart_sym p q : apart p q → apart q p.
Proof. intros [? ?]. by split. Qed.

Lemma apart_app_ne p q a b : apart p q → p ++ a ≠ q ++ b.
Proof.
  intros [H1 H2] E.
  destruct (prefix_weak_total p q (p ++ a)) as [?|?]; try done.
  - by eexists.
  - rewrite E. by eexists.
Qed.

Lemma apart_not_under p q x : apart p q → p `prefix_of` x → ¬ q `prefix_of` x.
Proof.
  intros [H1 H2] Hp Hq.
  destruct (prefix_weak_total p q x) as [?|?]; done.
Qed.

Lemma child_name_Some top q n : child_name top q = Some n ↔ q = top ++ [n].
Proof.
  unfold child_name. split.
  - destruct (reverse q) as [|m rp] eqn:E; [done|].
    case_decide as Hd; [|done]. intros [= ->].
    rewrite <- (reverse_involutive q), E, reverse_cons, Hd. done.
  - intros ->. rewrite reverse_app. simpl.
    rewrite reverse_involutive. by rewrite decide_True.
Qed.

(** ** Listing a folder *)

Lemma NoDup_omap_inj {A B} (f : A → option B) (l : list A) :
  NoDup l →
  (∀ x y z, x ∈ l → y ∈ l → f x = Some z → f y = Some z → x = y) →
  NoDup (omap f l).
Proof.
  induction 1 as [|x l Hx Hl IH]; intros Hinj; simpl; [constructor|].
  assert (NoDup (omap f l)) as IH'.
  { apply IH. intros a b z Ha Hb. apply Hinj; by right. }
  destruct (f x) as [z|] eqn:E; [|done].
  constructor; [|done].
  intros Hz. apply list_elem_of_omap in Hz as (y & Hy & Hfy).
  assert (x = y) by (eapply Hinj; eauto; [left | by right]).
  by subst.
Qed.

Lemma elem_of_listdir (fs : fsys) top n e :
  (n, e) ∈ listdir fs top ↔ fs !! (top ++ [n]) = Some e.
Proof.
  unfold listdir. rewrite list_elem_of_omap. split.
  - intros ([q e'] & Hin & Hf). simpl in Hf.
    destruct (child_name top q) as [m|] eqn:E; [|done].
    simpl in Hf. injection Hf as -> ->.
    apply child_name_Some in E as ->. by apply elem_of_map_to_list.
  - intros H. exists (top ++ [n], e). split.
    + by apply elem_of_map_to_list.
    + simpl. by rewrite (proj2 (child_name_Some top _ n) eq_refl).
Qed.

Lemma NoDup_listdir (fs : fsys) top : NoDup (listdir fs top).
Proof.
  apply NoDup_omap_inj; [apply NoDup_map_to_list|].
  intros [q1 e1] [q2 e2] [n e] _ _. simpl.
  destruct (child_name top q1) as [m1|] eqn:E1; [|done].
  destruct (child_name top q2) as [m2|] eqn:E2; [|done].
  simpl. intros [= -> ->] [= -> ->].
  apply child_name_Some in E1, E2. by subst.
Qed.

Lemma elem_of_subdirs (fs : fsys) top n :
  n ∈ subdirs (listdir fs top) ↔ fs !! (top ++ [n]) = Some Dir.
Proof.
  unfold subdirs. rewrite list_elem_of_omap. split.
  - intros ([m e] & Hin & Hf). simpl in Hf. destruct e; [done|].
    injection Hf as ->. by apply elem_of_listdir.
  - intros H. exists (n, Dir). split; [by apply elem_of_listdir|done].
Qed.

Lemma elem_of_nondirs (fs : fsys) top n :
  n ∈ nondirs (listdir fs top) ↔ ∃ c, fs !! (top ++ [n]) = Some (File c).
Proof.
  unfold nondirs. rewrite list_elem_of_omap. split.
  - intros ([m e] & Hin & Hf). simpl in Hf. destruct e as [c|]; [|done].
    injection Hf as ->. exists c. by apply elem_of_listdir.
  - intros [c H]. exists (n, File c). split; [by apply elem_of_listdir|done].
Qed.

Lemma NoDup_subdirs (fs : fsys) top : NoDup (subdirs (listdir fs top)).
Proof.
  apply NoDup_omap_inj; [apply NoDup_listdir|].
  intros [n1 e1] [n2 e2] z _ _. simpl.
  destruct e1, e2; try done. by intros [= ->] [= ->].
Qed.

Lemma NoDup_nondirs (fs : fsys) top : NoDup (nondirs (listdir fs top)).
Proof.
  apply NoDup_omap_inj; [apply NoDup_listdir|].
  intros [n1 e1] [n2 e2] z H1 H2. simpl.
  destruct e1 as [c1|], e2 as [c2|]; try done. intros [= ->] [= ->].
  apply elem_of_listdir in H1, H2. congruence.
Qed.

Lemma listdir_nil (fs : fsys) top :
  listdir fs top = [] ↔ ∀ n, fs !! (top ++ [n]) = None.
Proof.
  split.
  - intros H n. destruct (fs !! (top ++ [n])) as [e|] eqn:E; [|done].
    apply elem_of_listdir in E. rewrite H in E. by apply elem_of_nil in E.
  - intros H. destruct (listdir fs top) as [|[n e] l] eqn:E; [done|].
    assert ((n, e) ∈ listdir fs top) as Hin by (rewrite E; left).
    apply elem_of_listdir in Hin. by rewrite H in Hin.
Qed.

(** ** The file-system calls keep the file system well formed *)

Lemma wf_root fs : wf fs → fs !! [] = Some Dir.
Proof. by intros [? _]. Qed.

Lemma wf_parent fs p n : wf fs → is_Some (fs !! (p ++ [n])) → fs !! p = Some Dir.
Proof. intros [_ H]. apply H. Qed.

Lemma wf_prefix fs p r : wf fs → is_Some (fs !! (p ++ r)) → is_Some (fs !! p).
Proof.
  intros Hwf. induction r as [|n r IH] using rev_ind.
  - by rewrite app_nil_r.
  - rewrite app_assoc. intros H. apply IH. erewrite wf_parent; eauto.
Qed.

Lemma wf_beneath_dir fs p q : wf fs → beneath p q → is_Some (fs !! q) → fs !! p = Some Dir.
Proof.
  intros Hwf (n & r & ->) H.
  change (p ++ n :: r) with (p ++ [n] ++ r) in H. rewrite app_assoc in H.
  apply wf_prefix in H; [|done]. by eapply wf_parent.
Qed.

Lemma wf_file_leaf fs p c q : wf fs → fs !! p = Some (File c) → beneath p q → fs !! q = None.
Proof.
  intros Hwf Hp Hq. destruct (fs !! q) eqn:E; [|done].
  assert (fs !! p = Some Dir) by (eapply wf_beneath_dir; eauto). congruence.
Qed.

Lemma wf_none_beneath fs p q : wf fs → fs !! p = None → p `prefix_of` q → fs !! q = None.
Proof.
  intros Hwf Hp [r ->]. destruct (fs !! (p ++ r)) eqn:E; [|done].
  assert (is_Some (fs !! p)) as [? ?] by (eapply wf_prefix; eauto). congruence.
Qed.

Lemma wf_delete fs p :
  wf fs → p ≠ [] → (∀ n, fs !! (p ++ [n]) = None) → wf (delete p fs).
Proof.
  intros [Hr Hp] Hne Hleaf. split.
  - by rewrite lookup_delete_ne.
  - intros q n [e He]. destruct (decide (p = q ++ [n])) as [->|Hn].
    + by rewrite lookup_delete_eq in He.
    + rewrite lookup_delete_ne in He by done.
      destruct (decide (p = q)) as [->|Hq].
      * by rewrite Hleaf in He.
      * rewrite lookup_delete_ne by done. apply (Hp q n). eauto.
Qed.

Lemma wf_insert fs p e :
  wf fs → p ≠ [] → fs !! dirname p = Some Dir →
  (e = Dir ∨ ∀ n, fs !! (p ++ [n]) = None) → wf (<[p := e]> fs).
Proof.
  intros [Hr Hp] Hne Hd Hleaf. split.
  - by rewrite lookup_insert_ne.
  - intros q n Hqn.
    assert (fs !! q = Some Dir) as Hq.
    { destruct (decide (p = q ++ [n])) as [->|Hn].
      - by rewrite dirname_snoc in Hd.
      - rewrite lookup_insert_ne in Hqn by done. eauto. }
    destruct (decide (p = q)) as [->|Hpq].
    + rewrite lookup_insert_eq. destruct Hleaf as [->|Hleaf]; [done|].
      destruct (decide (q = q ++ [n])) as [E|Hn].
      * apply (f_equal length) in E. rewrite length_app in E. simpl in E. lia.
      * rewrite lookup_insert_ne in Hqn by done. rewrite Hleaf in Hqn.
        by destruct Hqn.
    + by rewrite lookup_insert_ne.
Qed.

Lemma fs_remove_wf p fs : wf fs → wf (fs_remove p fs).2.
Proof.
  intros Hwf. unfold fs_remove. destruct (fs !! p) as [[c|]|] eqn:E; simpl; try done.
  apply wf_delete; [done| |].
  - intros ->. rewrite (wf_root fs Hwf) in E. done.
  - intros n. eapply wf_file_leaf; eauto. apply beneath_snoc.
Qed.

Lemma fs_rmdir_wf p fs : wf fs → wf (fs_rmdir p fs).2.
Proof.
  intros Hwf. unfold fs_rmdir. destruct (fs !! p) as [[c|]|] eqn:E; simpl; try done.
  destruct p as [|x p]; [done|].
  destruct (listdir fs (x :: p)) eqn:El; simpl; [|done].
  apply wf_delete; [done|done|]. by apply listdir_nil.
Qed.

Lemma fs_create_wf p e fs : wf fs → fs !! p = None → wf (fs_create p e fs).2.
Proof.
  intros Hwf Hp. unfold fs_create.
  destruct (fs !! dirname p) as [[c|]|] eqn:E; simpl; try done.
  apply wf_insert; try done.
  - intros ->. rewrite (wf_root fs Hwf) in Hp. done.
  - right. intros n. eapply wf_none_beneath; eauto. by eexists.
Qed.

Lemma fs_mkdir_wf p fs : wf fs → wf (fs_mkdir p fs).2.
Proof.
  intros Hwf. unfold fs_mkdir. destruct (fs !! p) eqn:E; simpl; [done|].
  by apply fs_create_wf.
Qed.

Lemma fs_makedirs_rev_wf rp fs : wf fs → wf (fs_makedirs_rev rp fs).2.
Proof.
  revert fs. induction rp as [|n rp IH]; intros fs Hwf; simpl.
  - by apply fs_mkdir_wf.
  - destruct (path_exists fs (reverse rp)).
    + by apply fs_mkdir_wf.
    + specialize (IH fs Hwf).
      destruct (fs_makedirs_rev rp fs) as [[e|] fs1]; simpl in *.
      * destruct e; simpl; try done. by apply fs_mkdir_wf.
      * by apply fs_mkdir_wf.
Qed.

Lemma fs_overwrite_wf p c c' fs :
  wf fs → fs !! p = Some (File c) → wf (<[p := File c']> fs).
Proof.
  intros Hwf Hp.
  assert (p ≠ []) as Hne.
  { intros ->. rewrite (wf_root fs Hwf) in Hp. done. }
  apply wf_insert; try done.
  - destruct (exists_last Hne) as (q & n & ->). rewrite dirname_snoc.
    eapply wf_parent; eauto.
  - right. intros n. eapply wf_file_leaf; eauto. apply beneath_snoc.
Qed.

Lemma fs_write_wf p c fs : wf fs → wf (fs_write p c fs).2.
Proof.
  intros Hwf. unfold fs_write. destruct (fs !! p) as [[c'|]|] eqn:E; simpl; try done.
  - by eapply fs_overwrite_wf.
  - by apply fs_create_wf.
Qed.

Lemma fs_append_wf p d fs : wf fs → wf (fs_append p d fs).2.
Proof.
  intros Hwf. unfold fs_append. destruct (fs !! p) as [[c'|]|] eqn:E; simpl; try done.
  - by eapply fs_overwrite_wf.
  - by apply fs_create_wf.
Qed.

Lemma fs_copy2_wf a b fs : wf fs → wf (fs_copy2 a b fs).2.
Proof.
  intros Hwf. unfold fs_copy2.
  destruct (bool_decide _ && _); [done|].
  destruct (fs !! a) as [[c|]|]; simpl; try done. by apply fs_write_wf.
Qed.

Lemma sys_effect_wf sc fs : wf fs → wf (sys_effect sc fs).
Proof.
  intros Hwf. destruct sc; simpl; try done.
  - by apply fs_remove_wf.
  - by apply fs_rmdir_wf.
  - by apply fs_makedirs_rev_wf.
  - by apply fs_copy2_wf.
  - by apply fs_append_wf.
Qed.

Lemma replay_wf tr fs : wf fs → wf (replay tr fs).
Proof.
  revert fs. induction tr as [|sc tr IH]; intros fs Hwf; simpl; [done|].
  apply IH. by apply sys_effect_wf.
Qed.

(** ** A call changes only the entries it writes *)

Lemma fs_create_frame p e fs q : q ≠ p → (fs_create p e fs).2 !! q = fs !! q.
Proof.
  intros Hq. unfold fs_create. destruct (fs !! dirname p) as [[c|]|]; simpl; try done.
  by rewrite lookup_insert_ne.
Qed.

Lemma fs_mkdir_frame p fs q : q ≠ p → (fs_mkdir p fs).2 !! q = fs !! q.
Proof.
  intros Hq. unfold fs_mkdir. destruct (fs !! p); simpl; [done|].
  by apply fs_create_frame.
Qed.

Lemma fs_makedirs_rev_frame rp fs q :
  ¬ q `prefix_of` reverse rp → (fs_makedirs_rev rp fs).2 !! q = fs !! q.
Proof.
  revert fs. induction rp as [|n rp IH]; intros fs Hq; simpl.
  - apply fs_mkdir_frame. intros ->. by apply Hq.
  - assert (q ≠ reverse (n :: rp)) as Hne by (intros ->; by apply Hq).
    assert (¬ q `prefix_of` reverse rp) as Hq'.
    { intros [k Hk]. apply Hq. rewrite reverse_cons, Hk. exists (k ++ [n]).
      by rewrite app_assoc. }
    destruct (path_exists fs (reverse rp)).
    + by apply fs_mkdir_frame.
    + specialize (IH fs Hq').
      destruct (fs_makedirs_rev rp fs) as [[e|] fs1]; simpl in *.
      * destruct e; simpl; try done. by rewrite fs_mkdir_frame.
      * by rewrite fs_mkdir_frame.
Qed.

Lemma fs_write_frame p c fs q : q ≠ p → (fs_write p c fs).2 !! q = fs !! q.
Proof.
  intros Hq. unfold fs_write. destruct (fs !! p) as [[c'|]|]; simpl; try done.
  - by rewrite lookup_insert_ne.
  - by apply fs_create_frame.
Qed.

Lemma sys_effect_frame sc fs q : ¬ writes sc q → sys_effect sc fs !! q = fs !! q.
Proof.
  destruct sc as [p|p|p|p|p|p|a b|p d|l]; simpl; intros Hq; try done.
  - unfold fs_remove. destruct (fs !! p) as [[c|]|]; simpl; try done.
    by rewrite lookup_delete_ne.
  - unfold fs_rmdir. destruct (fs !! p) as [[c|]|]; simpl; try done.
    destruct p; [done|]. destruct (listdir _ _); simpl; [|done].
    by rewrite lookup_delete_ne.
  - unfold fs_makedirs. apply fs_makedirs_rev_frame. by rewrite reverse_involutive.
  - unfold fs_copy2, copy2_target.
    destruct (bool_decide _ && _); [done|].
    destruct (fs !! a) as [[c|]|]; simpl; try done.
    apply fs_write_frame. destruct (is_dir fs b); naive_solver.
  - unfold fs_append. destruct (fs !! p) as [[c|]|]; simpl; try done.
    + by rewrite lookup_insert_ne.
    + by apply fs_create_frame.
Qed.

Lemma replay_app tr1 tr2 fs : replay (tr1 ++ tr2) fs = replay tr2 (replay tr1 fs).
Proof. apply fold_left_app. Qed.

Lemma replay_frame tr fs q :
  (∀ sc, sc ∈ tr → ¬ writes sc q) → replay tr fs !! q = fs !! q.
Proof.
  revert fs. induction tr as [|sc tr IH]; intros fs H; simpl; [done|].
  rewrite IH.
  - apply sys_effect_frame, H. left.
  - intros sc' Hin. apply H. by right.
Qed.

(** ** Texts and their encoding *)

Lemma encodes_app (a b : string) : encodes (a +:+ b) = encodes a && encodes b.
Proof.
  induction a as [|x a IH]; [done|].
  change (encodes (String x (a +:+ b)) = encodes (String x a) && encodes b).
  cbn [encodes]. rewrite IH. by rewrite andb_assoc.
Qed.

Lemma log_event_written p msg s :
  encodes msg = true →
  log_event p msg s
  = fs_call (SysAppend p (strftime (st_clock s) +:+ " - " +:+ msg +:+ nl))
      (fs_append p (strftime (st_clock s) +:+ " - " +:+ msg +:+ nl)) s.
Proof. intros H. unfold log_event. by rewrite H. Qed.

Lemma log_event_refused p msg s :
  encodes msg = false →
  log_event p msg s
  = (fs_call (SysAppend p "") (fs_append p "") ;; raise UnicodeEncodeError) s.
Proof. intros H. unfold log_event. by rewrite H. Qed.

Lemma log_event_Ok p msg s a s' : log_event p msg s = Ok a s' → encodes msg = true.
Proof.
  unfold log_event. destruct (encodes msg); [done|].
  unfold bind, raise. by destruct (fs_call _ _ s).
Qed.

(** The lines of the summary are made of characters of ASCII: the
    encoding encodes them, whatever the counters. *)
Lemma encodes_pretty_N_go (x : N) (s : string) :
  encodes s = true → encodes (pretty_N_go x s) = true.
Proof.
  revert s. induction (N.lt_wf_0 x) as [x _ IH]; intros s Hs.
  destruct (decide (x = 0)%N) as [->|Hx]; [by rewrite pretty_N_go_0|].
  rewrite pretty_N_go_step by lia. apply IH.
  - apply N.div_lt; lia.
  - cbn [encodes]. rewrite Hs, andb_true_r.
    unfold pretty_N_char. by repeat case_match.
Qed.

Lemma encodes_pretty_nat (n : nat) : encodes (pretty n) = true.
Proof.
  unfold pretty, pretty_nat, pretty, pretty_N.
  case_decide; [done|]. by apply encodes_pretty_N_go.
Qed.

Lemma summary_lines_encoded (s : state) :
  Forall (λ line, encodes line = true) (summary_lines s).
Proof.
  unfold summary_lines.
  repeat constructor; by rewrite !encodes_app, encodes_pretty_nat.
Qed.

(** ** The trace accounts for every change of the world *)

Lemma emits_ret {A} F (a : A) : emits F (ret a).
Proof. intros s. exists []. simpl. rewrite app_nil_r. repeat split; [constructor|lia]. Qed.

Lemma emits_raise {A} F e : emits F (@raise A e).
Proof. intros s. exists []. simpl. rewrite app_nil_r. repeat split; [constructor|lia]. Qed.

Lemma emits_at_bind {A B} s F (m : M A) (k : A → M B) :
  emits_at s F m → (∀ a s1, m s = Ok a s1 → emits_at s1 F (k a)) →
  emits_at s F (bind m k).
Proof.
  intros Hm Hk. unfold emits_at, bind in *. destruct Hm as (tr1 & Ht1 & HF1 & Hfs1 & Hc1).
  destruct (m s) as [a s1|e s1]; simpl in *.
  - destruct (Hk a s1 eq_refl) as (tr2 & Ht2 & HF2 & Hfs2 & Hc2).
    exists (tr1 ++ tr2). rewrite Ht2, Ht1, Hfs2, Hfs1, Hc2, Hc1.
    rewrite app_assoc, replay_app, fmap_app, foldr_app.
    repeat split; [by apply Forall_app|].
    assert (∀ l x, foldr Z.add x l = (foldr Z.add 0 l + x)%Z) as Hsum.
    { induction l as [|y l IH]; intros x; simpl; [lia|]. rewrite IH. lia. }
    rewrite (Hsum _ (foldr Z.add 0%Z (latency <$> tr2))). lia.
  - exists tr1. done.
Qed.

Lemma emits_at_weaken {A} s (F G : syscall → Prop) (m : M A) :
  (∀ sc, F sc → G sc) → emits_at s F m → emits_at s G m.
Proof.
  intros HFG (tr & ? & HF & ? & ?). exists tr.
  repeat split; try done. eapply Forall_impl; eauto.
Qed.

Lemma emits_bind {A B} F (m : M A) (k : A → M B) :
  emits F m → (∀ a, emits F (k a)) → emits F (bind m k).
Proof. intros Hm Hk s. apply emits_at_bind; [apply Hm|]. intros a s1 _. apply Hk. Qed.

Lemma emits_weaken {A} (F G : syscall → Prop) (m : M A) :
  (∀ sc, F sc → G sc) → emits F m → emits G m.
Proof.
  intros HFG Hm s. by eapply emits_at_weaken.
Qed.

Lemma emits_local {A} F (f : state → state) (g : state → A) :
  (∀ s, st_trace (f s) = st_trace s) → (∀ s, st_fs (f s) = st_fs s) →
  (∀ s, st_clock (f s) = st_clock s) →
  emits F (λ s, Ok (g s) (f s)).
Proof.
  intros H1 H2 H3 s. exists []. simpl. rewrite H1, H2, H3, app_nil_r.
  repeat split; [constructor|lia].
Qed.

Lemma emits_for_each {A} F (l : list A) body :
  (∀ x, x ∈ l → emits F (body x)) → emits F (for_each l body).
Proof.
  induction l as [|x l IH]; intros H; simpl.
  - apply emits_ret.
  - apply emits_bind; [apply H; left|]. intros _. apply IH.
    intros y Hy. apply H. by right.
Qed.

Lemma emits_fs_call F sc op :
  F sc → (∀ fs, (op fs).2 = sys_effect sc fs) → emits F (fs_call sc op).
Proof.
  intros HF Hop s. exists [sc]. unfold fs_call. specialize (Hop (st_fs (tick sc s))).
  destruct (op (st_fs (tick sc s))) as [[e|] fs'] eqn:E; simpl in *;
    repeat split; try done; try (by repeat constructor); lia.
Qed.

Lemma emits_os_path_exists F p : F (SysStat p) → emits F (os_path_exists p).
Proof.
  intros HF s. exists [SysStat p]. simpl.
  repeat split; [by repeat constructor|lia].
Qed.

Lemma emits_os_scandir F p : F (SysScandir p) → emits F (os_scandir p).
Proof.
  intros HF s. exists [SysScandir p]. simpl.
  repeat split; [by repeat constructor|lia].
Qed.

Lemma emits_open_rb F p : F (SysOpenRead p) → emits F (open_rb p).
Proof.
  intros HF s. exists [SysOpenRead p]. unfold open_rb.
  destruct (fs_open_rb p (st_fs s)); simpl;
    repeat split; try (by repeat constructor); lia.
Qed.

Lemma emits_print F l : F (SysPrint l) → emits F (print l).
Proof.
  intros HF s. exists [SysPrint l]. simpl.
  repeat split; [by repeat constructor|lia].
Qed.

Lemma emits_os_remove F p : F (SysRemove p) → emits F (os_remove p).
Proof. intros. by apply emits_fs_call. Qed.

Lemma emits_os_rmdir F p : F (SysRmdir p) → emits F (os_rmdir p).
Proof. intros. by apply emits_fs_call. Qed.

Lemma emits_os_makedirs F p : F (SysMakedirs p) → emits F (os_makedirs p).
Proof. intros. by apply emits_fs_call. Qed.

Lemma emits_shutil_copy2 F a b : F (SysCopy2 a b) → emits F (shutil_copy2 a b).
Proof. intros. by apply emits_fs_call. Qed.

Lemma emits_log_event F p msg :
  (∀ d, F (SysAppend p d)) → emits F (log_event p msg).
Proof.
  intros HF s. unfold log_event. destruct (encodes msg).
  - by apply (emits_fs_call F (SysAppend p _) _ (HF _)).
  - apply emits_at_bind; [by apply (emits_fs_call F (SysAppend p _) _ (HF _))|].
    intros ? ? _. apply emits_raise.
Qed.

Lemma emits_log_summary F p d : F (SysAppend p d) → emits F (log_summary p d).
Proof. intros. by apply emits_fs_call. Qed.

Lemma emits_get_md5 F p : F (SysOpenRead p) → emits F (get_md5 p).
Proof.
  intros HF. unfold get_md5. apply emits_bind; [by apply emits_open_rb|].
  intros c. apply emits_ret.
Qed.

Lemma emits_os_walk F n topdown top body :
  (∀ p, F (SysScandir p)) →
  (∀ root dirs files, top `prefix_of` root → emits F (body root dirs files)) →
  emits F (os_walk n topdown top body).
Proof.
  intros HF. revert top. induction n as [|n IH]; intros top Hbody; simpl.
  - apply emits_raise.
  - apply emits_bind; [by apply emits_os_scandir|].
    intros [[dirs files]|]; [|apply emits_ret].
    assert (emits F (for_each dirs (λ d, os_walk n topdown (top ++ [d]) body))) as Hsub.
    { apply emits_for_each. intros d _. apply IH.
      intros root ds fs [k Hk]. apply Hbody. rewrite Hk, <- app_assoc. by eexists. }
    destruct topdown; apply emits_bind; try done; intros ?; try done;
      by apply Hbody.
Qed.

(** ** The calls of a run *)

Section Footprint.

Variables src rep logf : path.

Lemma emits_scan n top : emits scan_calls (os_walk n true top scan_body).
Proof.
  apply emits_os_walk; [done|]. intros root dirs files _. unfold scan_body.
  apply emits_for_each. intros name _. by apply emits_local.
Qed.

Lemma emits_delete_file root name :
  rep `prefix_of` root →
  emits (delete_calls rep logf) (delete_file src rep logf root name).
Proof.
  intros Hroot. unfold delete_file.
  apply emits_bind; [by apply emits_os_path_exists|].
  intros [|]; [apply emits_ret|].
  apply emits_bind.
  { apply emits_os_remove. eapply prefix_beneath_trans; eauto. apply beneath_snoc. }
  intros ?. apply emits_bind; [by apply emits_print|].
  intros ?. apply emits_bind; [by apply emits_local|].
  intros ?. by apply emits_log_event.
Qed.

Lemma emits_delete_dir root name :
  rep `prefix_of` root →
  emits (delete_calls rep logf) (delete_dir src rep logf root name).
Proof.
  intros Hroot. unfold delete_dir.
  apply emits_bind; [by apply emits_os_path_exists|].
  intros [|]; [apply emits_ret|].
  apply emits_bind.
  { apply emits_os_rmdir. eapply prefix_beneath_trans; eauto. apply beneath_snoc. }
  intros ?. apply emits_bind; [by apply emits_print|].
  intros ?. by apply emits_log_event.
Qed.

Lemma emits_delete_body root dirs files :
  rep `prefix_of` root →
  emits (delete_calls rep logf) (delete_body src rep logf root dirs files).
Proof.
  intros Hroot. unfold delete_body. apply emits_bind.
  - apply emits_for_each. intros ? _. by apply emits_delete_file.
  - intros ?. apply emits_for_each. intros ? _. by apply emits_delete_dir.
Qed.

Lemma emits_delete_walk n top :
  rep `prefix_of` top →
  emits (delete_calls rep logf) (os_walk n false top (delete_body src rep logf)).
Proof.
  intros Htop. apply emits_os_walk; [done|]. intros root dirs files Hroot.
  apply emits_delete_body. by etrans.
Qed.

Lemma emits_copy_file a :
  emits (copy_calls src rep logf a) (copy_file src rep logf a).
Proof.
  unfold copy_file.
  apply emits_bind; [by apply emits_os_path_exists|]. intros d.
  apply emits_bind.
  { destruct d; [apply emits_ret|]. by apply emits_os_makedirs. }
  intros ?. apply emits_bind; [by apply emits_os_path_exists|]. intros found.
  apply emits_bind.
  { destruct found; [|apply emits_ret].
    apply emits_bind; [by apply emits_get_md5|]. intros h1.
    apply emits_bind; [by apply emits_get_md5|]. intros h2. apply emits_ret. }
  intros [|].
  - apply emits_bind; [by apply emits_print|].
    intros ?. apply emits_bind; [by apply emits_local|].
    intros ?. by apply emits_log_event.
  - apply emits_bind; [by apply emits_shutil_copy2|].
    intros ?. apply emits_bind; [by apply emits_print|].
    intros ?. apply emits_bind; [by apply emits_local|].
    intros ?. by apply emits_log_event.
Qed.

Lemma emits_report : emits (report_calls logf) (report logf).
Proof.
  intros s. unfold report.
  apply (emits_bind _ (for_each (summary_lines s) print)
           (λ _, log_summary logf (String.concat "" (summary_lines s)))).
  - apply emits_for_each. intros ? _. by apply emits_print.
  - intros ?. by apply emits_log_summary.
Qed.

Lemma scan_calls_footprint sc : scan_calls sc → footprint src rep logf sc.
Proof. by destruct sc. Qed.

Lemma delete_calls_footprint sc : delete_calls rep logf sc → footprint src rep logf sc.
Proof. by destruct sc. Qed.

Lemma copy_calls_footprint a sc : copy_calls src rep logf a sc → footprint src rep logf sc.
Proof.
  destruct sc as [q|q|q|q|q|q|x b|q d|l]; simpl; try done.
  - intros ->. eauto.
  - by intros [-> ->].
Qed.

Lemma report_calls_footprint sc : report_calls logf sc → footprint src rep logf sc.
Proof. by destruct sc. Qed.

Lemma emits_sync_folders interval :
  emits (footprint src rep logf) (sync_folders src rep logf interval).
Proof.
  unfold sync_folders.
  apply emits_bind; [by apply emits_local|]. intros ?.
  apply emits_bind; [by apply emits_local|]. intros n1.
  apply emits_bind.
  { eapply emits_weaken; [apply scan_calls_footprint|apply emits_scan]. }
  intros ?. apply emits_bind; [by apply emits_local|]. intros n2.
  apply emits_bind.
  { eapply emits_weaken; [apply delete_calls_footprint|by apply emits_delete_walk]. }
  intros ?. apply emits_bind; [by apply emits_local|]. intros files.
  apply emits_bind.
  { apply emits_for_each. intros x _.
    eapply emits_weaken; [apply copy_calls_footprint|apply emits_copy_file]. }
  intros ?. apply emits_bind.
  { eapply emits_weaken; [apply report_calls_footprint|apply emits_report]. }
  intros ?. by apply emits_local.
Qed.

(** With the source folder apart from the replica folder and the log file
    not under it, the calls of a run do not write under the source
    folder. *)
Lemma footprint_not_source sc p :
  apart src rep → ¬ src `prefix_of` logf →
  footprint src rep logf sc → src `prefix_of` p → ¬ writes sc p.
Proof.
  intros Hsr Hls HF Hp.
  destruct sc as [q|q|q|q|q|q|a b|q d|l]; simpl in *; try tauto.
  - intros ->. eapply (apart_not_under src rep); [done|done|by apply beneath_prefix].
  - intros ->. eapply (apart_not_under src rep); [done|done|by apply beneath_prefix].
  - destruct HF as [a ->]. intros Hpre.
    assert (src `prefix_of` dirname (rep ++ relpath a src)) as H by (by etrans).
    destruct (decide (relpath a src = [])) as [E|E].
    + rewrite E, app_nil_r in H. destruct Hsr as [Hsr _]. apply Hsr.
      etrans; [done|]. unfold dirname. destruct rep as [|x r] using rev_ind.
      * done.
      * rewrite removelast_last. by eexists.
    + destruct (exists_last E) as (r & x & Er). rewrite Er in H.
      rewrite app_assoc, dirname_snoc in H.
      eapply (apart_not_under src rep); [done|apply H|by eexists].
  - subst b. intros [->| ->].
    + eapply (apart_not_under src rep); [done|done|by eexists].
    + eapply (apart_not_under src rep); [done|done|].
      rewrite <- app_assoc. by eexists.
  - subst q. by intros ->.
Qed.

Lemma replay_source_frame tr fs p :
  apart src rep → ¬ src `prefix_of` logf →
  Forall (footprint src rep logf) tr → src `prefix_of` p →
  replay tr fs !! p = fs !! p.
Proof.
  intros Hsr Hls HF Hp. apply replay_frame. intros sc Hsc.
  eapply footprint_not_source; eauto. by eapply Forall_forall in HF.
Qed.

End Footprint.

(** ** Reasoning about loops and sequences *)

Lemma bind_eq {A B} (m : M A) (k : A → M B) s :
  bind m k s = match m s with Ok a s' => k a s' | Raise e s' => Raise e s' end.
Proof. done. Qed.

Lemma bind_Ok {A B} (m : M A) (k : A → M B) s b s' :
  bind m k s = Ok b s' → ∃ a s1, m s = Ok a s1 ∧ k a s1 = Ok b s'.
Proof. unfold bind. destruct (m s) as [a s1|]; [eauto|done]. Qed.

(** A loop with an invariant over the elements already handled. *)
Lemma for_each_rule {A} (I : list A → state → Prop) (E : exn → state → Prop)
    (l : list A) (body : A → M unit) :
  (∀ seen x rest s, l = seen ++ x :: rest → I seen s →
     match body x s with
     | Ok _ s' => I (seen ++ [x]) s'
     | Raise e s' => E e s'
     end) →
  ∀ s, I [] s →
    match for_each l body s with
    | Ok _ s' => I l s'
    | Raise e s' => E e s'
    end.
Proof.
  intros Hbody.
  assert (∀ rest seen s, l = seen ++ rest → I seen s →
            match for_each rest body s with
            | Ok _ s' => I l s'
            | Raise e s' => E e s'
            end) as H.
  { induction rest as [|x rest IH]; intros seen s Hl HI; simpl.
    - rewrite app_nil_r in Hl. by subst.
    - rewrite bind_eq. specialize (Hbody seen x rest s Hl HI).
      destruct (body x s) as [[] s1|e s1]; [|done].
      apply (IH (seen ++ [x])); [|done]. by rewrite <- app_assoc. }
  intros s HI. by apply (H l []).
Qed.

(** ** The log file *)

Lemma fs_append_cases p d fs :
  (∃ c, fs_append p d fs = (None, <[p := File c]> fs))
  ∨ (∃ e, fs_append p d fs = (Some e, fs) ∧ is_file fs p = false).
Proof.
  unfold fs_append, fs_create, is_file.
  destruct (fs !! p) as [[c|]|]; [left; eauto|right; eauto|].
  destruct (fs !! dirname p) as [[c|]|]; [right; eauto|left; eauto|right; eauto].
Qed.

Lemma is_file_insert (fs : fsys) p c : is_file (<[p := File c]> fs) p = true.
Proof. unfold is_file. by rewrite lookup_insert_eq. Qed.

Lemma is_file_true (fs : fsys) p : is_file fs p = true ↔ ∃ c, fs !! p = Some (File c).
Proof.
  unfold is_file. destruct (fs !! p) as [[c|]|].
  - split; [eauto|done].
  - split; [done|]. intros [? ?]. done.
  - split; [done|]. intros [? ?]. done.
Qed.

Lemma is_dir_true (fs : fsys) p : is_dir fs p = true ↔ fs !! p = Some Dir.
Proof. unfold is_dir. destruct (fs !! p) as [[c|]|]; split; done. Qed.

Lemma path_exists_true (fs : fsys) p : path_exists fs p = true ↔ is_Some (fs !! p).
Proof.
  unfold path_exists. destruct (fs !! p); split; try done; eauto.
Qed.

Lemma path_exists_false (fs : fsys) p : path_exists fs p = false ↔ fs !! p = None.
Proof. unfold path_exists. destruct (fs !! p); split; done. Qed.

(** Appending to the log: it succeeds and leaves a regular file, or it
    fails where the log file is not a regular file. *)
Lemma append_log_spec logf d s :
  match fs_call (SysAppend logf d) (fs_append logf d) s with
  | Ok _ s' =>
      (∃ c, st_fs s' = <[logf := File c]> (st_fs s))
      ∧ st_fs s' = sys_effect (SysAppend logf d) (st_fs s)
      ∧ st_trace s' = st_trace s ++ [SysAppend logf d]
      ∧ source_files s' = source_files s
      ∧ file_copied_counter s' = file_copied_counter s
      ∧ file_removed_counter s' = file_removed_counter s
      ∧ file_identical_counter s' = file_identical_counter s
  | Raise e s' => st_fs s' = st_fs s ∧ is_file (st_fs s) logf = false
  end.
Proof.
  unfold fs_call. simpl.
  destruct (fs_append_cases logf d (st_fs s)) as [[c H]|(e & H & Hf)]; rewrite H; simpl.
  - repeat split; eauto.
  - done.
Qed.

(** Logging an event: it succeeds and leaves a regular file, or it fails
    where the log file is not a regular file or the message is not
    encoded. *)
Lemma log_event_spec logf msg s :
  match log_event logf msg s with
  | Ok _ s' =>
      ∃ d, (∃ c, st_fs s' = <[logf := File c]> (st_fs s))
           ∧ st_fs s' = sys_effect (SysAppend logf d) (st_fs s)
           ∧ st_trace s' = st_trace s ++ [SysAppend logf d]
           ∧ source_files s' = source_files s
           ∧ file_copied_counter s' = file_copied_counter s
           ∧ file_removed_counter s' = file_removed_counter s
           ∧ file_identical_counter s' = file_identical_counter s
  | Raise e s' =>
      (st_fs s' = st_fs s ∧ is_file (st_fs s) logf = false) ∨ encodes msg = false
  end.
Proof.
  unfold log_event. destruct (encodes msg) eqn:E.
  - match goal with |- context [fs_call (SysAppend logf ?d) _ s] =>
      pose proof (append_log_spec logf d s) as H;
      destruct (fs_call (SysAppend logf d) (fs_append logf d) s) as [[] s'|e s']
    end.
    + by eexists.
    + by left.
  - rewrite bind_eq. destruct (fs_call _ _ s); by right.
Qed.

Lemma encodes_removed q :
  encodes (show_path q +:+ " removed from replica folder") = encodes (show_path q).
Proof. rewrite encodes_app. apply andb_true_r. Qed.

Lemma encodes_identical q :
  encodes (show_path q +:+ " already exists in replica folder and is identical")
  = encodes (show_path q).
Proof. rewrite encodes_app. apply andb_true_r. Qed.

Lemma encodes_copied q :
  encodes (show_path q +:+ " copied to replica folder") = encodes (show_path q).
Proof. rewrite encodes_app. apply andb_true_r. Qed.

(** What holds of an element whenever its iteration returns holds of
    every element of a loop that returns. *)
Lemma for_each_Ok_all {A} (P : A → Prop) (l : list A) (body : A → M unit) :
  (∀ x s s', body x s = Ok tt s' → P x) →
  ∀ s s', for_each l body s = Ok tt s' → ∀ x, x ∈ l → P x.
Proof.
  intros Hbody. induction l as [|y l IH]; intros s s' Hrun x Hx.
  { by apply elem_of_nil in Hx. }
  cbn [for_each] in Hrun. apply bind_Ok in Hrun as ([] & s1 & Hy & Hl).
  apply elem_of_cons in Hx as [->|Hx]; [by eapply Hbody|by eapply IH].
Qed.

(** ** The deletion pass *)

Section DeletionPass.

Variables src rep logf : path.
Hypothesis Hlay : layout src rep logf.

#[local] Abbreviation stale_ := (stale src rep).
#[local] Abbreviation pruned_ := (pruned src rep).
#[local] Abbreviation del_post_ := (del_post src rep logf).

Lemma beneath_rep_not_log q : beneath rep q → q ≠ logf.
Proof.
  intros Hq ->. destruct Hlay as (_ & _ & [_ H]). apply H. by apply beneath_prefix.
Qed.

Lemma source_not_log r : src ++ r ≠ logf.
Proof.
  intros E. destruct Hlay as (_ & [_ H] & _). apply H. rewrite <- E. by eexists.
Qed.

Lemma source_not_beneath_rep r : ¬ beneath rep (src ++ r).
Proof.
  intros H. destruct Hlay as (Hsr & _ & _).
  eapply (apart_not_under src rep); [done|by eexists|by apply beneath_prefix].
Qed.

Lemma relpath_snoc q n : rep `prefix_of` q → relpath (q ++ [n]) rep = relpath q rep ++ [n].
Proof. intros [r ->]. by rewrite <- app_assoc, !relpath_app. Qed.

Lemma dp_keep R s s' q :
  del_post_ R s s' → ¬ R q → q ≠ logf → st_fs s' !! q = st_fs s !! q.
Proof.
  intros H HR Hq. destruct (decide (st_fs s' !! q = st_fs s !! q)) as [|Hne]; [done|].
  destruct HR. by eapply dp_out.
Qed.

(** The source is out of reach of the deletion pass. *)
Lemma dp_source R s s' r :
  (∀ q, R q → beneath rep q) → del_post_ R s s' →
  st_fs s' !! (src ++ r) = st_fs s !! (src ++ r).
Proof.
  intros HR H. eapply dp_keep; eauto using source_not_log.
  intros Hq. eapply source_not_beneath_rep; eauto.
Qed.

Lemma dp_stale R s s' q :
  (∀ q, R q → beneath rep q) → del_post_ R s s' →
  stale_ (st_fs s') q ↔ stale_ (st_fs s) q.
Proof.
  intros HR H. unfold stale, path_exists.
  by rewrite (dp_source R s s').
Qed.

Lemma pruned_None (fs : fsys) q : fs !! q = None → pruned_ fs q = None.
Proof. intros H. unfold pruned. rewrite H. by destruct (path_exists _ _). Qed.

(** A step that reads only. *)
Lemma del_post_skip R s s' tr :
  wf (st_fs s) → st_fs s' = st_fs s → st_trace s' = st_trace s ++ tr →
  removed_files tr = [] → removed_dirs tr = [] →
  source_files s' = source_files s →
  file_copied_counter s' = file_copied_counter s →
  file_removed_counter s' = file_removed_counter s →
  file_identical_counter s' = file_identical_counter s →
  (∀ q, R q → stale_ (st_fs s) q → st_fs s !! q = None) →
  del_post_ R s s'.
Proof.
  intros Hwf Hfs Htr Hrf Hrd Hsf Hc Hr Hi Hst. split.
  - intros q Hq. rewrite Hfs. unfold pruned.
    destruct (path_exists _ _) eqn:E; [done|]. by apply Hst.
  - intros q _ Hne. by rewrite Hfs in Hne.
  - by rewrite Hfs.
  - done.
  - exists tr. rewrite Hrf, Hrd.
    split; [done|]. split; [constructor|]. split; [|split].
    + intros p. split; [by intros ?%elem_of_nil|].
      intros (HR & Hf & Hs). apply is_file_true in Hf as [c Hf].
      rewrite (Hst p HR Hs) in Hf. done.
    + intros p. by intros ?%elem_of_nil.
    + simpl. lia.
Qed.

Lemma removed_files_app tr1 tr2 :
  removed_files (tr1 ++ tr2) = removed_files tr1 ++ removed_files tr2.
Proof. apply omap_app. Qed.

Lemma removed_dirs_app tr1 tr2 :
  removed_dirs (tr1 ++ tr2) = removed_dirs tr1 ++ removed_dirs tr2.
Proof. apply omap_app. Qed.

(** Two steps on regions of the replica that do not meet. *)
Lemma del_post_trans R1 R2 s s1 s2 :
  (∀ q, R1 q → beneath rep q) → (∀ q, R2 q → beneath rep q) →
  (∀ q, R1 q → R2 q → False) →
  del_post_ R1 s s1 → del_post_ R2 s1 s2 →
  del_post_ (λ q, R1 q ∨ R2 q) s s2.
Proof.
  intros HR1 HR2 Hdisj H1 H2.
  assert (∀ q, R2 q → st_fs s1 !! q = st_fs s !! q) as Hsame.
  { intros q Hq. eapply dp_keep; eauto using beneath_rep_not_log. }
  assert (∀ q, R2 q → pruned_ (st_fs s1) q = pruned_ (st_fs s) q) as Hpr.
  { intros q Hq. unfold pruned, path_exists.
    rewrite (dp_source R1 s s1) by done. by rewrite Hsame. }
  split.
  - intros q [Hq|Hq].
    + erewrite (dp_keep R2 s1 s2); eauto using beneath_rep_not_log.
      by eapply dp_in.
    + rewrite <- Hpr by done. by eapply dp_in.
  - intros q Hlog Hne.
    destruct (decide (st_fs s1 !! q = st_fs s !! q)) as [E|E].
    + right. eapply dp_out; eauto. by rewrite E.
    + left. eapply dp_out; eauto.
  - by eapply dp_wf.
  - destruct (dp_locals _ _ _ _ _ _ H1) as (? & ? & ?).
    destruct (dp_locals _ _ _ _ _ _ H2) as (? & ? & ?).
    repeat split; congruence.
  - destruct (dp_trace _ _ _ _ _ _ H1) as (tr1 & Ht1 & Hn1 & Hf1 & Hd1 & Hc1).
    destruct (dp_trace _ _ _ _ _ _ H2) as (tr2 & Ht2 & Hn2 & Hf2 & Hd2 & Hc2).
    exists (tr1 ++ tr2). rewrite removed_files_app, removed_dirs_app.
    assert (∀ p, R2 p → is_file (st_fs s1) p = is_file (st_fs s) p) as Hif.
    { intros p Hp. unfold is_file. by rewrite Hsame. }
    assert (∀ p, R2 p → is_dir (st_fs s1) p = is_dir (st_fs s) p) as Hid.
    { intros p Hp. unfold is_dir. by rewrite Hsame. }
    split; [by rewrite Ht2, Ht1, app_assoc|].
    split; [|split; [|split]].
    + apply NoDup_app. repeat split; try done.
      intros p Hp1 Hp2. apply Hf1 in Hp1 as (? & _). apply Hf2 in Hp2 as (? & _). eauto.
    + intros p. rewrite elem_of_app, Hf1, Hf2. split.
      * intros [(?&?&?)|(?&?&?)].
        -- repeat split; [by left|done|done].
        -- repeat split; [by right|by rewrite <- Hif|by eapply (dp_stale R1 s s1)].
      * intros ([Hp|Hp] & Hf & Hs); [by left|right].
        repeat split; [done|by rewrite Hif|by eapply (dp_stale R1 s s1)].
    + intros p. rewrite elem_of_app. intros [H|H].
      * apply Hd1 in H as (? & ? & ?). repeat split; [by left|done|done].
      * apply Hd2 in H as (? & ? & ?).
        repeat split; [by right|by rewrite <- Hid|by eapply (dp_stale R1 s s1)].
    + rewrite length_app. lia.
Qed.

(** The region may be named otherwise, and may take in paths that have no
    entry. *)
Lemma del_post_extend R R' s s' :
  (∀ q, R q → R' q) → (∀ q, R' q → beneath rep q) →
  (∀ q, R' q → is_Some (st_fs s !! q) → R q) →
  del_post_ R s s' → del_post_ R' s s'.
Proof.
  intros Hsub Hrep Hsome H. split.
  - intros q Hq.
    destruct (decide (st_fs s' !! q = st_fs s !! q)) as [E|E].
    + assert (R q → st_fs s' !! q = pruned_ (st_fs s) q) as Hin.
      { intros HR. by eapply dp_in. }
      destruct (st_fs s !! q) as [e|] eqn:Eq.
      * apply Hin, Hsome; [done|]. rewrite Eq. eauto.
      * rewrite E. symmetry. by apply pruned_None.
    + eapply dp_in; eauto. eapply dp_out; eauto using beneath_rep_not_log.
  - intros q Hlog Hne. apply Hsub. eapply dp_out; eauto.
  - by eapply dp_wf.
  - by eapply dp_locals.
  - destruct (dp_trace _ _ _ _ _ _ H) as (tr & Ht & Hn & Hf & Hd & Hc).
    exists tr. split; [done|]. split; [done|]. split; [|split; [|done]].
    + intros p. rewrite Hf. split.
      * intros (? & ? & ?). repeat split; eauto.
      * intros (Hp & Hif & Hs). repeat split; try done.
        apply Hsome; [done|]. apply is_file_true in Hif as [c ->]. eauto.
    + intros p Hp. apply Hd in Hp as (? & ? & ?). repeat split; eauto.
Qed.


(** A loop whose iterations handle regions of the replica that do not
    meet, after the region [R0] has been handled. *)
Lemma for_each_del_post {A} (R0 : path → Prop) (Rx : A → path → Prop)
    (E : state → Prop) (l : list A) (body : A → M unit) s s0 :
  NoDup l →
  (∀ q, R0 q → beneath rep q) → (∀ x q, Rx x q → beneath rep q) →
  (∀ x y q, Rx x q → Rx y q → x = y) → (∀ x q, x ∈ l → R0 q → Rx x q → False) →
  del_post_ R0 s s0 →
  (∀ (seen : list A) x si, x ∈ l → x ∉ seen →
     del_post_ (λ q, R0 q ∨ ∃ y, y ∈ seen ∧ Rx y q) s si →
     match body x si with
     | Ok _ s' => del_post_ (Rx x) si s'
     | Raise e s' => E s'
     end) →
  match for_each l body s0 with
  | Ok _ s' => del_post_ (λ q, R0 q ∨ ∃ y, y ∈ l ∧ Rx y q) s s'
  | Raise e s' => E s'
  end.
Proof.
  intros Hnd HR0 HRx Hinj Hdisj H0 Hbody.
  apply (for_each_rule
           (λ seen si, del_post_ (λ q, R0 q ∨ ∃ y, y ∈ seen ∧ Rx y q) s si)
           (λ _ s', E s')).
  - intros seen x rest si Hl HI.
    assert (x ∈ l) as Hx.
    { rewrite Hl, elem_of_app. right. left. }
    assert (x ∉ seen) as Hns.
    { rewrite Hl in Hnd. apply NoDup_app in Hnd as (_ & Hnd & _).
      intros Hin. apply (Hnd x Hin). left. }
    specialize (Hbody seen x si Hx Hns HI).
    destruct (body x si) as [[] s'|e s']; [|done].
    eapply del_post_extend; [| | |eapply del_post_trans; [| | |exact HI|exact Hbody]].
    + intros q [[Hq|(y & Hy & Hq)]|Hq].
      * by left.
      * right. exists y. split; [|done]. rewrite elem_of_app. by left.
      * right. exists x. split; [|done]. rewrite elem_of_app. right. left.
    + intros q [Hq|(y & _ & Hq)]; eauto.
    + intros q [Hq|(y & Hy & Hq)] _.
      * left. by left.
      * apply elem_of_app in Hy as [Hy|Hy%list_elem_of_singleton].
        -- left. right. eauto.
        -- subst y. by right.
    + intros q [Hq|(y & _ & Hq)]; eauto.
    + eauto.
    + intros q [Hq|(y & Hy & Hq)] Hq'; [eauto|].
      assert (y = x) as -> by eauto. done.
  - eapply del_post_extend; [| | |exact H0].
    + intros q Hq. by left.
    + intros q [Hq|(y & Hy & _)]; [eauto|]. by apply elem_of_nil in Hy.
    + intros q [Hq|(y & Hy & _)] _; [done|]. by apply elem_of_nil in Hy.
Qed.

(** *** One replica file *)

Lemma os_remove_file p c s :
  st_fs s !! p = Some (File c) →
  os_remove p s = Ok tt (set_fs (delete p (st_fs s)) (tick (SysRemove p) s)).
Proof. intros H. unfold os_remove, fs_call, fs_remove. simpl. by rewrite H. Qed.

Lemma delete_file_spec (N : Prop) root name s :
  wf (st_fs s) → rep `prefix_of` root → is_file (st_fs s) (root ++ [name]) = true →
  (N → stale_ (st_fs s) (root ++ [name]) →
   encodes (show_path (root ++ [name])) = true) →
  match delete_file src rep logf root name s with
  | Ok _ s' => del_post_ (λ q, q = root ++ [name]) s s'
  | Raise e s' => is_file (st_fs s') logf = false ∨ ¬ N
  end.
Proof.
  intros Hwf Hroot Hf Henc. apply is_file_true in Hf as [c Hc].
  assert (beneath rep (root ++ [name])) as Hb.
  { eapply prefix_beneath_trans; eauto. apply beneath_snoc. }
  unfold delete_file. rewrite bind_eq. unfold os_path_exists at 1.
  destruct (path_exists (st_fs s) _) eqn:Hex.
  - apply (del_post_skip _ _ _ [SysStat (src ++ relpath (root ++ [name]) rep)]);
      try done.
    intros q -> Hst. unfold stale in Hst. congruence.
  - rewrite bind_eq, (os_remove_file _ c) by done.
    rewrite bind_eq. unfold print at 1. rewrite bind_eq. unfold incr_removed at 1.
    match goal with |- context [log_event logf ?m ?s4] =>
      pose proof (log_event_spec logf m s4) as Hlog;
      destruct (log_event logf m s4) as [[] s'|e s']
    end; cycle 1.
    { destruct Hlog as [[-> Hlog]|Hlog]; [by left|right].
      intros HN. by rewrite encodes_removed, (Henc HN Hex) in Hlog. }
    destruct Hlog as (d & [c' Hfs] & Heff & Htr & Hsf & Hcc & Hrc & Hic).
    simpl in *.
    assert (root ++ [name] ≠ logf) as Hnl by (by apply beneath_rep_not_log).
    split.
    + intros q ->. rewrite Hfs, lookup_insert_ne, lookup_delete_eq by done.
      unfold pruned. by rewrite Hex.
    + intros q Hq Hne. destruct (decide (q = root ++ [name])) as [|Hn]; [done|].
      destruct Hne. by rewrite Hfs, lookup_insert_ne, lookup_delete_ne.
    + rewrite Heff. apply fs_append_wf.
      replace (delete (root ++ [name]) (st_fs s))
        with (fs_remove (root ++ [name]) (st_fs s)).2
        by (unfold fs_remove; by rewrite Hc).
      by apply fs_remove_wf.
    + done.
    + eexists. split; [rewrite Htr, <- !app_assoc; reflexivity|]. simpl.
      split; [apply NoDup_singleton|]. split; [|split].
      * intros p. rewrite list_elem_of_singleton. split.
        -- intros ->. repeat split; [|done]. apply is_file_true. eauto.
        -- by intros (-> & _).
      * intros p. by intros ?%elem_of_nil.
      * rewrite Hrc. lia.
Qed.

(** *** One replica folder *)

Lemma fs_rmdir_empty p fs :
  fs !! p = Some Dir → p ≠ [] → (∀ n, fs !! (p ++ [n]) = None) →
  fs_rmdir p fs = (None, delete p fs).
Proof.
  intros Hp Hne Hleaf. unfold fs_rmdir. rewrite Hp.
  destruct p as [|x p]; [done|].
  by rewrite (proj2 (listdir_nil fs (x :: p)) Hleaf).
Qed.

Lemma delete_dir_spec (N : Prop) root name s :
  wf (st_fs s) → rep `prefix_of` root → is_dir (st_fs s) (root ++ [name]) = true →
  (stale_ (st_fs s) (root ++ [name]) → ∀ n, st_fs s !! ((root ++ [name]) ++ [n]) = None) →
  (N → stale_ (st_fs s) (root ++ [name]) →
   encodes (show_path (root ++ [name])) = true) →
  match delete_dir src rep logf root name s with
  | Ok _ s' => del_post_ (λ q, q = root ++ [name]) s s'
  | Raise e s' => is_file (st_fs s') logf = false ∨ ¬ N
  end.
Proof.
  intros Hwf Hroot Hd Hleaf Henc. apply is_dir_true in Hd.
  assert (beneath rep (root ++ [name])) as Hb.
  { eapply prefix_beneath_trans; eauto. apply beneath_snoc. }
  unfold delete_dir. rewrite bind_eq. unfold os_path_exists at 1.
  destruct (path_exists (st_fs s) _) eqn:Hex.
  - apply (del_post_skip _ _ _ [SysStat (src ++ relpath (root ++ [name]) rep)]);
      try done.
    intros q -> Hst. unfold stale in Hst. congruence.
  - rewrite bind_eq. unfold os_rmdir at 1, fs_call at 1.
    assert (root ++ [name] ≠ []) as Hne by (by destruct root).
    cbn [st_fs tick set_clock set_trace].
    rewrite (fs_rmdir_empty _ _ Hd Hne (Hleaf Hex)).
    rewrite bind_eq. unfold print at 1.
    match goal with |- context [log_event logf ?m ?s4] =>
      pose proof (log_event_spec logf m s4) as Hlog;
      destruct (log_event logf m s4) as [[] s'|e s']
    end; cycle 1.
    { destruct Hlog as [[-> Hlog]|Hlog]; [by left|right].
      intros HN. by rewrite encodes_removed, (Henc HN Hex) in Hlog. }
    destruct Hlog as (d & [c' Hfs] & Heff & Htr & Hsf & Hcc & Hrc & Hic).
    simpl in *.
    assert (root ++ [name] ≠ logf) as Hnl by (by apply beneath_rep_not_log).
    split.
    + intros q ->. rewrite Hfs, lookup_insert_ne, lookup_delete_eq by done.
      unfold pruned. by rewrite Hex.
    + intros q Hq Hne'. destruct (decide (q = root ++ [name])) as [|Hn]; [done|].
      destruct Hne'. by rewrite Hfs, lookup_insert_ne, lookup_delete_ne.
    + rewrite Heff. apply fs_append_wf. apply wf_delete; auto.
    + done.
    + eexists. split; [rewrite Htr, <- !app_assoc; reflexivity|]. simpl.
      split; [constructor|]. split; [|split].
      * intros p. split; [by intros ?%elem_of_nil|].
        intros (-> & Hf & _). apply is_file_true in Hf as [? Hf]. congruence.
      * intros p ->%list_elem_of_singleton. repeat split; [|done].
        by apply is_dir_true.
      * rewrite Hrc. lia.
Qed.


(** *** The walk *)

Lemma snoc_not_beneath_snoc (top : path) x y : ¬ beneath (top ++ [x]) (top ++ [y]).
Proof. intros H%beneath_length. rewrite !length_app in H. simpl in H. lia. Qed.

Lemma delete_walk_spec (N : Prop) n top s :
  wf (st_fs s) → rep `prefix_of` top → 0 < n →
  (∀ q, beneath top q → is_Some (st_fs s !! q) → length q < length top + n) →
  (N → ∀ q, beneath top q → is_Some (st_fs s !! q) → stale_ (st_fs s) q →
       encodes (show_path q) = true) →
  match os_walk n false top (delete_body src rep logf) s with
  | Ok _ s' => del_post_ (beneath top) s s'
  | Raise e s' => is_file (st_fs s') logf = false ∨ ¬ N
  end.
Proof.
  revert top s. induction n as [|n IH]; intros top s Hwf Htop Hn Hfit Hnames; [lia|].
  cbn [os_walk]. rewrite bind_eq. unfold os_scandir at 1.
  set (s1 := tick (SysScandir top) s).
  assert (del_post_ (λ _, False) s s1) as H1.
  { by apply (del_post_skip _ _ _ [SysScandir top]). }
  assert (∀ q, beneath top q → beneath rep q) as Hrep.
  { intros q Hq. by eapply prefix_beneath_trans. }
  destruct (is_dir (st_fs s) top) eqn:Hd; cycle 1.
  { unfold ret. eapply del_post_extend; [| | |exact H1]; try done.
    intros q Hq Hsome. assert (st_fs s !! top = Some Dir) as Ht.
    { eapply wf_beneath_dir; eauto. }
    apply is_dir_true in Ht. congruence. }
  set (dirs := subdirs (listdir (st_fs s) top)).
  set (files := nondirs (listdir (st_fs s) top)).
  assert (∀ d, d ∈ dirs ↔ st_fs s !! (top ++ [d]) = Some Dir) as Hdirs.
  { intros d. apply elem_of_subdirs. }
  assert (∀ f, f ∈ files ↔ ∃ c, st_fs s !! (top ++ [f]) = Some (File c)) as Hfiles.
  { intros f. apply elem_of_nondirs. }
  assert (∀ d, rep `prefix_of` top ++ [d]) as Htopd.
  { intros d. etrans; [done|]. by eexists. }
  assert (∀ y, beneath rep (top ++ [y])) as Hrep1.
  { intros y. apply (prefix_beneath_trans rep top); [done|apply beneath_snoc]. }
  assert (∀ y q, beneath (top ++ [y]) q → beneath rep q) as Hrep2.
  { intros y q Hq. by apply (prefix_beneath_trans rep (top ++ [y])). }
  assert (∀ x y : string, top ++ [x] = top ++ [y] → x = y) as Hsnoc.
  { intros x y Hq. apply app_inv_head in Hq. by injection Hq. }
  set (E := λ s' : state, is_file (st_fs s') logf = false ∨ ¬ N).
  set (RA := λ q, False ∨ ∃ y, y ∈ dirs ∧ beneath (top ++ [y]) q).
  set (RB := λ q, RA q ∨ ∃ y, y ∈ files ∧ q = top ++ [y]).
  assert (∀ q, RA q → beneath rep q) as HRA.
  { intros q [[]|(y & _ & Hq)]. eauto. }
  assert (∀ q, RB q → beneath rep q) as HRB.
  { intros q [Hq|(y & _ & ->)]; eauto. }
  rewrite bind_eq.
  (* the subfolders *)
  assert (match for_each dirs
                  (λ d, os_walk n false (top ++ [d]) (delete_body src rep logf)) s1 with
          | Ok _ s' => del_post_ RA s s'
          | Raise _ s' => E s'
          end) as HA.
  { apply (for_each_del_post (λ _, False) (λ d q, beneath (top ++ [d]) q) E); try done.
    - apply NoDup_subdirs.
    - intros x y q. apply beneath_child_inj.
    - intros seen x si Hx Hns Hsi. apply IH.
      + by eapply dp_wf.
      + done.
      + specialize (Hfit (top ++ [x]) (beneath_snoc _ _)). rewrite length_app in Hfit.
        simpl in Hfit. apply Hdirs in Hx. rewrite Hx in Hfit.
        specialize (Hfit (mk_is_Some _ _ eq_refl)). lia.
      + intros q Hq Hsome.
        rewrite (dp_keep _ _ _ _ Hsi) in Hsome.
        * rewrite length_app. simpl.
          specialize (Hfit q (beneath_trans _ _ _ (beneath_snoc top x) Hq) Hsome). lia.
        * intros [[]|(y & Hy & Hq')].
          assert (y = x) as -> by (eapply beneath_child_inj; eauto). done.
        * apply beneath_rep_not_log. eauto.
      + intros HN q Hq Hsome Hst.
        rewrite (dp_keep _ _ _ _ Hsi) in Hsome.
        * apply (Hnames HN); [|done|].
          -- apply (beneath_trans _ _ _ (beneath_snoc top x) Hq).
          -- apply (dp_stale _ _ _ q) in Hsi; [by apply Hsi|].
             intros p [[]|(y & _ & Hp)]. eauto.
        * intros [[]|(y & Hy & Hq')].
          assert (y = x) as -> by (eapply beneath_child_inj; eauto). done.
        * apply beneath_rep_not_log. eauto. }
  destruct (for_each dirs _ s1) as [[] s2|e s2]; [|done].
  unfold delete_body. rewrite bind_eq.
  (* the files of the folder *)
  assert (∀ x q, RA q → q = top ++ [x] → False) as HdisjB.
  { intros x q [[]|(y & _ & Hq)] ->. by apply snoc_not_beneath_snoc in Hq. }
  assert (match for_each files (delete_file src rep logf top) s2 with
          | Ok _ s' => del_post_ RB s s'
          | Raise _ s' => E s'
          end) as HB.
  { apply (for_each_del_post RA (λ f q, q = top ++ [f]) E); try done.
    - apply NoDup_nondirs.
    - by intros x q ->.
    - intros x y q -> Hq. eauto.
    - intros x q _. apply HdisjB.
    - intros seen x si Hx Hns Hsi. apply delete_file_spec.
      + by eapply dp_wf.
      + done.
      + unfold is_file. rewrite (dp_keep _ _ _ _ Hsi).
        * apply Hfiles in Hx as [c ->]. done.
        * intros [Hq|(y & Hy & Hq)].
          -- eapply HdisjB; eauto.
          -- apply Hsnoc in Hq as ->. done.
        * by apply beneath_rep_not_log.
      + intros HN Hst. apply (Hnames HN); [apply beneath_snoc| |].
        * apply Hfiles in Hx as [c ->]. eauto.
        * apply (dp_stale _ _ _ (top ++ [x])) in Hsi; [by apply Hsi|].
          intros p [Hp|(y & _ & ->)]; eauto. }
  destruct (for_each files _ s2) as [[] s3|e s3]; [|done].
  (* the subfolders themselves *)
  assert (∀ x q, RB q → q = top ++ [x] → x ∈ dirs → False) as HdisjC.
  { intros x q [Hq|(y & Hy & ->)] Hq' Hx.
    - eapply HdisjB; eauto.
    - apply Hsnoc in Hq' as ->.
      apply Hdirs in Hx. apply Hfiles in Hy as [c Hy]. congruence. }
  assert (match for_each dirs (delete_dir src rep logf top) s3 with
          | Ok _ s' => del_post_ (λ q, RB q ∨ ∃ y, y ∈ dirs ∧ q = top ++ [y]) s s'
          | Raise _ s' => E s'
          end) as HC.
  { apply (for_each_del_post RB (λ d q, q = top ++ [d]) E); try done.
    - apply NoDup_subdirs.
    - by intros x q ->.
    - intros x y q -> Hq. eauto.
    - intros x q Hx HR Hq. eapply HdisjC; eauto.
    - intros seen x si Hx Hns Hsi.
      assert (∀ q, (RB q ∨ ∃ y, y ∈ seen ∧ q = top ++ [y]) → beneath rep q) as Hacc.
      { intros q [Hq|(y & _ & ->)]; eauto. }
      apply delete_dir_spec.
      + by eapply dp_wf.
      + done.
      + unfold is_dir. rewrite (dp_keep _ _ _ _ Hsi).
        * apply Hdirs in Hx. by rewrite Hx.
        * intros [Hq|(y & Hy & Hq)].
          -- eapply HdisjC; eauto.
          -- apply Hsnoc in Hq as ->. done.
        * by apply beneath_rep_not_log.
      + intros Hst m.
        rewrite (dp_in _ _ _ _ _ _ Hsi).
        * unfold pruned. rewrite relpath_snoc by done.
          destruct (path_exists (st_fs s) _) eqn:Hex; [|done].
          apply path_exists_true in Hex. rewrite app_assoc in Hex.
          apply (wf_parent _ _ _ Hwf) in Hex.
          apply (dp_stale _ _ _ (top ++ [x]) Hacc Hsi) in Hst.
          unfold stale, path_exists in Hst. by rewrite Hex in Hst.
        * left. left. right. exists x. split; [done|]. apply beneath_snoc.
      + intros HN Hst. apply (Hnames HN); [apply beneath_snoc| |].
        * apply Hdirs in Hx. rewrite Hx. eauto.
        * by apply (dp_stale _ _ _ (top ++ [x]) Hacc Hsi). }
  destruct (for_each dirs _ s3) as [[] s4|e s4]; [|done].
  eapply del_post_extend; [| | |exact HC]; try done.
  - intros q [[[[]|(y & _ & Hq)]|(y & _ & ->)]|(y & _ & ->)].
    + eapply beneath_trans; [apply beneath_snoc|done].
    + apply beneath_snoc.
    + apply beneath_snoc.
  - intros q Hq Hsome. destruct (beneath_child _ _ Hq) as [[m ->]|[m Hm]].
    + destruct Hsome as [[c|] Hsome].
      * left. right. exists m. split; [|done]. apply Hfiles. eauto.
      * right. exists m. split; [|done]. by apply Hdirs.
    + left. left. right. exists m. split; [|done]. apply Hdirs.
      eapply wf_beneath_dir; eauto.
Qed.

End DeletionPass.

(** ** The scan of the source folder *)

Lemma scan_body_eq root dirs files s :
  scan_body root dirs files s
  = Ok tt (set_source_files (source_files s ++ ((λ name, root ++ [name]) <$> files)) s).
Proof.
  unfold scan_body. revert s. induction files as [|f files IH]; intros s; simpl.
  - unfold ret. f_equal. destruct s. unfold set_source_files. simpl.
    by rewrite app_nil_r.
  - rewrite bind_eq. unfold append_source_file at 1. rewrite IH.
    f_equal. unfold set_source_files. simpl. by rewrite <- app_assoc.
Qed.

(** The scan lists every regular file beneath the folder once, and changes
    nothing but the list. *)
Lemma scan_walk_spec n top s :
  wf (st_fs s) → 0 < n →
  (∀ q, beneath top q → is_Some (st_fs s !! q) → length q < length top + n) →
  ∃ found s',
    os_walk n true top scan_body s = Ok tt s'
    ∧ st_fs s' = st_fs s
    ∧ source_files s' = source_files s ++ found
    ∧ file_copied_counter s' = file_copied_counter s
    ∧ file_removed_counter s' = file_removed_counter s
    ∧ file_identical_counter s' = file_identical_counter s
    ∧ NoDup found
    ∧ ∀ p, p ∈ found ↔ beneath top p ∧ is_file (st_fs s) p = true.
Proof.
  revert top s. induction n as [|n IH]; intros top s Hwf Hn Hfit; [lia|].
  cbn [os_walk]. rewrite bind_eq. unfold os_scandir at 1.
  set (s1 := tick (SysScandir top) s).
  destruct (is_dir (st_fs s) top) eqn:Hd; cycle 1.
  { exists [], s1. rewrite app_nil_r.
    do 6 (split; [done|]). split; [constructor|].
    intros p. split; [by intros ?%elem_of_nil|].
    intros [Hb Hf]. apply is_file_true in Hf as [c Hf].
    assert (st_fs s !! top = Some Dir) as Ht.
    { eapply wf_beneath_dir; eauto. }
    apply is_dir_true in Ht. congruence. }
  set (dirs := subdirs (listdir (st_fs s) top)).
  set (files := nondirs (listdir (st_fs s) top)).
  assert (∀ d, d ∈ dirs ↔ st_fs s !! (top ++ [d]) = Some Dir) as Hdirs.
  { intros d. apply elem_of_subdirs. }
  assert (∀ f, f ∈ files ↔ ∃ c, st_fs s !! (top ++ [f]) = Some (File c)) as Hfiles.
  { intros f. apply elem_of_nondirs. }
  rewrite bind_eq, scan_body_eq.
  set (here := (λ name, top ++ [name]) <$> files).
  set (s2 := set_source_files (source_files s1 ++ here) s1).
  set (I := λ (seen : list string) si,
       st_fs si = st_fs s
       ∧ file_copied_counter si = file_copied_counter s
       ∧ file_removed_counter si = file_removed_counter s
       ∧ file_identical_counter si = file_identical_counter s
       ∧ ∃ fd, source_files si = source_files s ++ here ++ fd
               ∧ NoDup fd
               ∧ ∀ p, p ∈ fd ↔ (∃ d, d ∈ seen ∧ beneath (top ++ [d]) p)
                               ∧ is_file (st_fs s) p = true).
  assert (match for_each dirs (λ d, os_walk n true (top ++ [d]) scan_body) s2 with
          | Ok _ s3 => I dirs s3
          | Raise _ _ => False
          end) as Hloop.
  { apply (for_each_rule I (λ _ _, False)).
    - intros seen x rest si Hl (Hfs & Hc & Hr & Hi & fd & Hsf & Hnd & Hin).
      assert (x ∈ dirs) as Hx by (rewrite Hl, elem_of_app; right; left).
      assert (x ∉ seen) as Hns.
      { pose proof (NoDup_subdirs (st_fs s) top) as Hnd'.
        fold dirs in Hnd'. rewrite Hl in Hnd'.
        apply NoDup_app in Hnd' as (_ & Hnd' & _).
        intros Hin'. apply (Hnd' x Hin'). left. }
      destruct (IH (top ++ [x]) si)
        as (found & s' & Hrun & Hfs' & Hsf' & Hc' & Hr' & Hi' & Hnd' & Hin').
      + by rewrite Hfs.
      + specialize (Hfit (top ++ [x]) (beneath_snoc _ _)).
        rewrite length_app in Hfit. simpl in Hfit. apply Hdirs in Hx.
        rewrite Hx in Hfit. specialize (Hfit (mk_is_Some _ _ eq_refl)). lia.
      + intros q Hq Hsome. rewrite Hfs in Hsome. rewrite length_app. simpl.
        specialize (Hfit q (beneath_trans _ _ _ (beneath_snoc top x) Hq) Hsome). lia.
      + rewrite Hrun. unfold I.
        split; [congruence|]. split; [congruence|].
        split; [congruence|]. split; [congruence|].
        exists (fd ++ found).
        split; [by rewrite Hsf', Hsf, <- !app_assoc|]. split.
        * apply NoDup_app. repeat split; try done.
          intros p Hp1 Hp2. apply Hin in Hp1 as [(d & Hd1 & Hb1) _].
          apply Hin' in Hp2 as [Hb2 _].
          assert (d = x) as -> by (eapply beneath_child_inj; eauto). done.
        * intros p. rewrite elem_of_app, Hin, Hin', Hfs. split.
          -- intros [[(d & Hd1 & Hb1) Hf]|[Hb Hf]]; (split; [|done]).
             ++ exists d. split; [rewrite elem_of_app; by left|done].
             ++ exists x. split; [rewrite elem_of_app; right; left|done].
          -- intros [(d & Hd1 & Hb1) Hf].
             apply elem_of_app in Hd1 as [Hd1|Hd1%list_elem_of_singleton].
             ++ left. split; [eauto|done].
             ++ subst d. by right.
    - unfold I. do 4 (split; [done|]). exists []. rewrite app_nil_r.
      split; [done|]. split; [constructor|].
      intros p. split; [by intros ?%elem_of_nil|].
      intros [(d & Hd' & _) _]. by apply elem_of_nil in Hd'. }
  destruct (for_each dirs _ s2) as [[] s3|e s3]; [|done].
  destruct Hloop as (Hfs & Hc & Hr & Hi & fd & Hsf & Hnd & Hin).
  exists (here ++ fd), s3.
  do 6 (split; [done|]). split.
  - apply NoDup_app. repeat split; [|intros p Hp1 Hp2|done].
    + apply NoDup_fmap_2; [|apply NoDup_nondirs].
      intros x y Hxy. apply app_inv_head in Hxy. by injection Hxy.
    + apply list_elem_of_fmap in Hp1 as (f & -> & _).
      apply Hin in Hp2 as [(d & _ & Hb) _]. by apply snoc_not_beneath_snoc in Hb.
  - intros p. rewrite elem_of_app. split.
    + intros [H|H].
      * apply list_elem_of_fmap in H as (f & -> & Hf).
        split; [apply beneath_snoc|]. apply is_file_true. by apply Hfiles.
      * apply Hin in H as [(d & _ & Hb) ?]. split; [|done].
        eapply beneath_trans; [apply beneath_snoc|done].
    + intros [Hb Hf].
      destruct (beneath_child _ _ Hb) as [[m ->]|[m Hm]].
      * left. apply list_elem_of_fmap. exists m. split; [done|].
        apply Hfiles. by apply is_file_true.
      * right. apply Hin. split; [|done]. exists m. split; [|done].
        apply Hdirs. eapply wf_beneath_dir; eauto.
        apply is_file_true in Hf as [c ->]. eauto.
Qed.

Lemma depth_bound (fs : fsys) q : is_Some (fs !! q) → length q ≤ depth fs.
Proof.
  intros [e He]. unfold depth. apply max_list_elem_of_le.
  apply list_elem_of_fmap. exists (q, e). split; [done|].
  by apply elem_of_map_to_list.
Qed.

(** ** get_md5 *)

Lemma str_app_nil_r (s : string) : s +:+ "" = s.
Proof.
  induction s as [|a s IH]; [done|].
  change (String a (s +:+ "") = String a s). by rewrite IH.
Qed.

Lemma str_app_assoc (a b c : string) : (a +:+ b) +:+ c = a +:+ b +:+ c.
Proof.
  induction a as [|x a IH]; [done|].
  change (String x ((a +:+ b) +:+ c) = String x (a +:+ b +:+ c)). by rewrite IH.
Qed.

Lemma str_take_drop n (s : string) : str_take n s +:+ str_drop n s = s.
Proof.
  revert s. induction n as [|n IH]; intros [|a s]; try done.
  change (String a (str_take n s +:+ str_drop n s) = String a s). by rewrite IH.
Qed.

Lemma str_drop_length n (s : string) :
  String.length (str_drop n s) = String.length s - n.
Proof.
  revert s. induction n as [|n IH]; intros [|a s]; simpl; try done.
Qed.

Lemma str_take_empty n (s : string) : 0 < n → str_take n s = "" → s = "".
Proof. destruct n; [lia|]. by destruct s. Qed.

Lemma chunk_size_pos : 0 < chunk_size.
Proof. unfold chunk_size. lia. Qed.

(** The loop of [get_md5] feeds the hash object the whole file. *)
Lemma read_loop_all fuel (rest file_hash : string) :
  String.length rest < fuel →
  read_loop fuel rest file_hash = file_hash +:+ rest.
Proof.
  revert rest file_hash. induction fuel as [|fuel IH]; intros rest acc Hlen; [lia|].
  cbn [read_loop]. case_decide as Hc.
  - apply str_take_empty in Hc; [|apply chunk_size_pos]. subst rest.
    by rewrite str_app_nil_r.
  - rewrite IH.
    + by rewrite str_app_assoc, str_take_drop.
    + rewrite str_drop_length. pose proof chunk_size_pos.
      destruct rest; [done|]. simpl in *. lia.
Qed.

Lemma get_md5_eq p s :
  get_md5 p s =
  match st_fs s !! p with
  | Some (File c) => Ok (MD5.hexdigest c) (tick (SysOpenRead p) s)
  | Some Dir => Raise IsADirectoryError (tick (SysOpenRead p) s)
  | None => Raise (missing (st_fs s) p) (tick (SysOpenRead p) s)
  end.
Proof.
  unfold get_md5. rewrite bind_eq. unfold open_rb, fs_open_rb.
  destruct (st_fs s !! p) as [[c|]|]; try done.
  unfold ret. by rewrite read_loop_all by lia.
Qed.

#[local] Opaque MD5.hexdigest.

(** ** os.makedirs *)

Lemma grown_refl p fs : grown p fs fs.
Proof. intros q. by left. Qed.

Lemma grown_trans p fs1 fs2 fs3 : grown p fs1 fs2 → grown p fs2 fs3 → grown p fs1 fs3.
Proof.
  intros H12 H23 q. destruct (H23 q) as [E|(E2 & E3 & Hp)].
  - rewrite E. apply H12.
  - right. destruct (H12 q) as [E'|(? & E' & _)]; [|congruence].
    rewrite <- E'. done.
Qed.

Lemma grown_mono p p' fs fs' : p `prefix_of` p' → grown p fs fs' → grown p' fs fs'.
Proof.
  intros Hp H q. destruct (H q) as [?|(? & ? & ?)]; [by left|right].
  repeat split; try done. by etrans.
Qed.

Lemma grown_mkdir p fs : grown p fs (fs_mkdir p fs).2.
Proof.
  intros q. unfold fs_mkdir. destruct (fs !! p) eqn:E; simpl; [by left|].
  unfold fs_create. destruct (fs !! dirname p) as [[c|]|]; simpl; try by left.
  destruct (decide (q = p)) as [->|Hq].
  - right. by rewrite lookup_insert_eq.
  - left. by rewrite lookup_insert_ne.
Qed.

Lemma grown_makedirs_rev rp fs : grown (reverse rp) fs (fs_makedirs_rev rp fs).2.
Proof.
  revert fs. induction rp as [|n rp IH]; intros fs.
  - apply grown_mkdir.
  - cbn [fs_makedirs_rev].
    assert (reverse rp `prefix_of` reverse (n :: rp)) as Hpre.
    { rewrite reverse_cons. by eexists. }
    destruct (path_exists fs (reverse rp)).
    + apply grown_mkdir.
    + specialize (IH fs). apply (grown_mono _ _ _ _ Hpre) in IH.
      destruct (fs_makedirs_rev rp fs) as [[e|] fs1]; simpl in *.
      * destruct e; simpl; try done.
        eapply grown_trans; [exact IH|apply grown_mkdir].
      * eapply grown_trans; [exact IH|apply grown_mkdir].
Qed.

Lemma grown_makedirs p fs : grown p fs (fs_makedirs p fs).2.
Proof.
  unfold fs_makedirs. pose proof (grown_makedirs_rev (reverse p) fs) as H.
  by rewrite reverse_involutive in H.
Qed.

Lemma grown_Some (p : path) (fs fs' : fsys) q e : grown p fs fs' → fs !! q = Some e → fs' !! q = Some e.
Proof. intros H Hq. destruct (H q) as [->|(? & _)]; congruence. Qed.

Lemma grown_other (p : path) (fs fs' : fsys) q : grown p fs fs' → ¬ q `prefix_of` p → fs' !! q = fs !! q.
Proof. intros H Hq. by destruct (H q) as [?|(_ & _ & ?)]. Qed.

(** ** One iteration of the copy loop *)

Section CopyPass.

Variables src rep logf : path.
Hypothesis Hlay : layout src rep logf.

#[local] Abbreviation in_sync_ := (in_sync rep).
#[local] Abbreviation copy_post_ := (copy_post src rep logf).

Lemma copy_file_unfold rel :
  copy_file src rep logf (src ++ rel)
  = (dir_found <- os_path_exists (dirname (rep ++ rel)) ;;
     (if dir_found then ret tt else os_makedirs (dirname (rep ++ rel))) ;;
     copy_file_tail logf (src ++ rel) (rep ++ rel)).
Proof. unfold copy_file. by rewrite relpath_app. Qed.

Lemma finish_copied msg1 msg2 s3 :
  match (print msg1 ;; incr_copied ;; log_event logf msg2) s3 with
  | Ok _ s' =>
      (∃ c', st_fs s' = <[logf := File c']> (st_fs s3))
      ∧ (∃ d, st_trace s' = st_trace s3 ++ [SysPrint msg1; SysAppend logf d])
      ∧ source_files s' = source_files s3
      ∧ file_copied_counter s' = S (file_copied_counter s3)
      ∧ file_removed_counter s' = file_removed_counter s3
      ∧ file_identical_counter s' = file_identical_counter s3
  | Raise _ s' => is_file (st_fs s3) logf = false ∨ encodes msg2 = false
  end.
Proof.
  rewrite bind_eq. unfold print at 1. rewrite bind_eq. unfold incr_copied at 1.
  match goal with |- context [log_event logf ?m ?s4] =>
    pose proof (log_event_spec logf m s4) as Hlog;
    destruct (log_event logf m s4) as [[] s'|e s']
  end; cycle 1.
  { destruct Hlog as [[_ Hlog]|Hlog]; [by left|by right]. }
  destruct Hlog as (d0 & Hfs & Heff & Htr & Hsf & Hcc & Hrc & Hic). simpl in *.
  repeat split; try done. eexists. by rewrite Htr, <- app_assoc.
Qed.

Lemma finish_identical msg1 msg2 s3 :
  match (print msg1 ;; incr_identical ;; log_event logf msg2) s3 with
  | Ok _ s' =>
      (∃ c', st_fs s' = <[logf := File c']> (st_fs s3))
      ∧ (∃ d, st_trace s' = st_trace s3 ++ [SysPrint msg1; SysAppend logf d])
      ∧ source_files s' = source_files s3
      ∧ file_copied_counter s' = file_copied_counter s3
      ∧ file_removed_counter s' = file_removed_counter s3
      ∧ file_identical_counter s' = S (file_identical_counter s3)
  | Raise _ s' => is_file (st_fs s3) logf = false ∨ encodes msg2 = false
  end.
Proof.
  rewrite bind_eq. unfold print at 1. rewrite bind_eq. unfold incr_identical at 1.
  match goal with |- context [log_event logf ?m ?s4] =>
    pose proof (log_event_spec logf m s4) as Hlog;
    destruct (log_event logf m s4) as [[] s'|e s']
  end; cycle 1.
  { destruct Hlog as [[_ Hlog]|Hlog]; [by left|by right]. }
  destruct Hlog as (d0 & Hfs & Heff & Htr & Hsf & Hcc & Hrc & Hic). simpl in *.
  repeat split; try done. eexists. by rewrite Htr, <- app_assoc.
Qed.

Section Iteration.

Variables (r : path) (n : string) (c : string) (s : state).
Hypothesis Hwf : wf (st_fs s).
Hypothesis Hsf : st_fs s !! (src ++ r ++ [n]) = Some (File c).

Let rel := r ++ [n].
Let sf := src ++ rel.
Let rf := rep ++ rel.
Let rd := rep ++ r.

Lemma copy_dirname : dirname rf = rd.
Proof. unfold rf, rd, rel. rewrite app_assoc. apply dirname_snoc. Qed.

Lemma copy_rf_eq : rf = rd ++ [n].
Proof. unfold rf, rd, rel. by rewrite app_assoc. Qed.

Lemma copy_sf_ne_rf : sf ≠ rf.
Proof. destruct Hlay as (H & _). by apply apart_app_ne. Qed.

Lemma copy_rf_ne_log : rf ≠ logf.
Proof.
  intros E. destruct Hlay as (_ & _ & [_ H]). apply H. rewrite <- E. by eexists.
Qed.

Lemma copy_rf_not_prefix : ¬ rf `prefix_of` rd.
Proof.
  intros H%prefix_length. rewrite copy_rf_eq, length_app in H. simpl in H. lia.
Qed.

Lemma in_sync_folder : in_sync_ (st_fs s) rel c → path_exists (st_fs s) rd = true.
Proof.
  intros (c2 & Hc2 & _). fold rf in Hc2. rewrite copy_rf_eq in Hc2.
  apply path_exists_true. erewrite wf_parent; eauto.
Qed.

(** The part after the creation of the folder, from a state [s1] that
    differs from [s] by the folders created. *)
Lemma copy_tail_spec s1 tr1 :
  grown rd (st_fs s) (st_fs s1) →
  st_trace s1 = st_trace s ++ tr1 →
  (path_exists (st_fs s) rd = true → st_fs s1 = st_fs s ∧ Forall quiet tr1) →
  copies tr1 = [] →
  source_files s1 = source_files s →
  file_copied_counter s1 = file_copied_counter s →
  file_removed_counter s1 = file_removed_counter s →
  file_identical_counter s1 = file_identical_counter s →
  match copy_file_tail logf sf rf s1 with
  | Ok _ s' => copy_post_ rel c s s'
  | Raise e s' => is_file (st_fs s) logf = false ∨ ¬ in_sync_ (st_fs s) rel c
                  ∨ encodes (show_path (src ++ rel)) = false
  end.
Proof.
  intros Hg Htr Hkeep Hcp1 Hl1 Hl2 Hl3 Hl4.
  assert (st_fs s1 !! sf = Some (File c)) as Hsf1 by (by eapply grown_Some).
  assert (st_fs s1 !! rf = st_fs s !! rf) as Hrf1.
  { eapply grown_other; eauto. apply copy_rf_not_prefix. }
  assert (∀ q, q ≠ logf → q ≠ rf →
            st_fs s1 !! q = st_fs s !! q
            ∨ (st_fs s !! q = None ∧ st_fs s1 !! q = Some Dir
               ∧ q `prefix_of` dirname rf)) as Hframe.
  { intros q _ _. rewrite copy_dirname. apply Hg. }
  pose proof copy_sf_ne_rf as Hne. pose proof copy_rf_ne_log as Hnl.
  (* what the copy branch does from a state that holds [fs1] *)
  assert (∀ s2 tr2,
            st_fs s2 = st_fs s1 → st_trace s2 = st_trace s ++ tr2 →
            copies tr2 = [] →
            source_files s2 = source_files s →
            file_copied_counter s2 = file_copied_counter s →
            file_removed_counter s2 = file_removed_counter s →
            file_identical_counter s2 = file_identical_counter s →
            ¬ in_sync_ (st_fs s) rel c → st_fs s !! rf ≠ Some Dir →
            match (shutil_copy2 sf rf ;;
                   print (show_path sf +:+ " copied to replica folder") ;;
                   incr_copied ;;
                   log_event logf (show_path sf +:+ " copied to replica folder")) s2 with
            | Ok _ s' => copy_post_ rel c s s'
            | Raise e s' => is_file (st_fs s) logf = false ∨ ¬ in_sync_ (st_fs s) rel c
                  ∨ encodes (show_path (src ++ rel)) = false
            end) as Hcopy.
  { intros s2 tr2 Hfs2 Htr2 Hcp2 Hm1 Hm2 Hm3 Hm4 Hns Hnd.
    rewrite bind_eq. unfold shutil_copy2 at 1, fs_call at 1.
    cbn [st_fs tick set_clock set_trace]. rewrite Hfs2.
    assert (is_dir (st_fs s1) rf = false) as Hid.
    { unfold is_dir. rewrite Hrf1. by destruct (st_fs s !! rf) as [[?|]|]. }
    unfold fs_copy2, copy2_target. rewrite Hid.
    rewrite bool_decide_eq_false_2 by done. cbn [andb]. rewrite Hsf1.
    destruct (fs_write rf c (st_fs s1)) as [[e|] fs2] eqn:Hw; [right; by left|].
    assert (fs2 = <[rf := File c]> (st_fs s1)) as ->.
    { unfold fs_write, fs_create in Hw.
      destruct (st_fs s1 !! rf) as [[?|]|]; try done; [congruence|].
      destruct (st_fs s1 !! dirname rf) as [[?|]|]; try done; congruence. }
    match goal with |- context [bind (print ?m1) _ ?s3] =>
      pose proof (finish_copied m1 m1 s3) as Hfin;
      destruct ((print m1 ;; incr_copied ;; log_event logf m1) s3) as [[] s'|e s']
    end; [|right; by left].
    destruct Hfin as ([c' Hfs'] & [d Htr'] & Hn1 & Hn2 & Hn3 & Hn4). simpl in *.
    split; [congruence|congruence|]. right.
    split; [done|]. split; [done|]. split.
    { by rewrite Hfs', lookup_insert_ne, lookup_insert_eq. }
    split.
    { intros q Hq1 Hq2. rewrite Hfs', !lookup_insert_ne by done. by apply Hframe. }
    split; [congruence|]. split; [congruence|].
    eexists. split; [rewrite Htr', Htr2, <- !app_assoc; reflexivity|].
    unfold copies in *. by rewrite omap_app, Hcp2. }
  unfold copy_file_tail. rewrite bind_eq. unfold os_path_exists at 1.
  destruct (path_exists (st_fs s1) rf) eqn:Hrf.
  - (* an entry exists at the replica path *)
    rewrite bind_eq. rewrite bind_eq, get_md5_eq.
    cbn [st_fs tick set_clock set_trace]. rewrite Hsf1.
    rewrite bind_eq, get_md5_eq. cbn [st_fs tick set_clock set_trace].
    destruct (st_fs s1 !! rf) as [[c2|]|] eqn:Hc2.
    + unfold ret at 1. case_bool_decide as Hh.
      * (* identical *)
        assert (in_sync_ (st_fs s) rel c) as Hs.
        { exists c2. fold rf. by rewrite <- Hrf1. }
        destruct (Hkeep (in_sync_folder Hs)) as [Hfs1 Hq1].
        match goal with |- context [bind (print ?m1) _ ?s3] =>
          pose proof (finish_identical m1 m1 s3) as Hfin;
          destruct ((print m1 ;; incr_identical ;; log_event logf m1) s3) as [[] s'|e s']
        end.
        -- destruct Hfin as ([c' Hfs'] & [d Htr'] & Hn1 & Hn2 & Hn3 & Hn4). simpl in *.
           split; [congruence|congruence|]. left.
           split; [done|]. split.
           { intros q Hq. by rewrite Hfs', lookup_insert_ne, Hfs1. }
           split; [congruence|]. split; [congruence|].
           eexists. split; [rewrite Htr', Htr, <- !app_assoc; reflexivity|].
           apply Forall_app. split; [done|]. by repeat constructor.
        -- destruct Hfin as [Hfin|Hfin].
           ++ left. simpl in Hfin. by rewrite <- Hfs1.
           ++ right. right. by rewrite encodes_identical in Hfin.
      * (* different digests *)
        match goal with |- context [bind (shutil_copy2 sf rf) _ ?s2] =>
          apply (Hcopy s2 (tr1 ++ [SysStat rf; SysOpenRead sf; SysOpenRead rf]))
        end; try done.
        -- simpl. by rewrite Htr, <- !app_assoc.
        -- unfold copies in *. by rewrite omap_app, Hcp1.
        -- intros (c3 & Hc3 & Hh3). fold rf in Hc3. rewrite <- Hrf1 in Hc3.
           congruence.
        -- by rewrite <- Hrf1.
    + right. left. intros (c3 & Hc3 & _). fold rf in Hc3. rewrite <- Hrf1 in Hc3. done.
    + unfold path_exists in Hrf. rewrite Hc2 in Hrf. done.
  - (* nothing at the replica path *)
    apply path_exists_false in Hrf.
    rewrite bind_eq. unfold ret at 1.
    match goal with |- context [bind (shutil_copy2 sf rf) _ ?s2] =>
      apply (Hcopy s2 (tr1 ++ [SysStat rf]))
    end; try done.
    + simpl. by rewrite Htr, <- !app_assoc.
    + unfold copies in *. by rewrite omap_app, Hcp1.
    + intros (c3 & Hc3 & _). fold rf in Hc3. rewrite <- Hrf1 in Hc3. congruence.
    + rewrite <- Hrf1. congruence.
Qed.

Lemma copy_file_spec_snoc :
  match copy_file src rep logf sf s with
  | Ok _ s' => copy_post_ rel c s s'
  | Raise e s' => is_file (st_fs s) logf = false ∨ ¬ in_sync_ (st_fs s) rel c
                  ∨ encodes (show_path (src ++ rel)) = false
  end.
Proof.
  unfold sf. rewrite copy_file_unfold. fold rf sf. rewrite copy_dirname.
  rewrite bind_eq. unfold os_path_exists at 1.
  destruct (path_exists (st_fs s) rd) eqn:Hrd.
  - rewrite bind_eq. unfold ret at 1.
    apply (copy_tail_spec _ [SysStat rd]); try done.
    + apply grown_refl.
    + intros _. split; [done|]. by repeat constructor.
  - rewrite bind_eq. unfold os_makedirs at 1, fs_call at 1.
    cbn [st_fs tick set_clock set_trace].
    pose proof (grown_makedirs rd (st_fs s)) as Hg.
    destruct (fs_makedirs rd (st_fs s)) as [[e|] fs1].
    + right. left. intros Hs. apply in_sync_folder in Hs. congruence.
    + apply (copy_tail_spec _ [SysStat rd; SysMakedirs rd]); try done.
      * simpl. by rewrite <- app_assoc.
      * congruence.
Qed.

End Iteration.

Lemma copy_file_spec rel c s :
  wf (st_fs s) → rel ≠ [] → st_fs s !! (src ++ rel) = Some (File c) →
  match copy_file src rep logf (src ++ rel) s with
  | Ok _ s' => copy_post_ rel c s s'
  | Raise e s' => is_file (st_fs s) logf = false ∨ ¬ in_sync_ (st_fs s) rel c
                  ∨ encodes (show_path (src ++ rel)) = false
  end.
Proof.
  intros Hwf Hrel Hsf. destruct (exists_last Hrel) as (r & n & ->).
  by apply copy_file_spec_snoc.
Qed.

End CopyPass.

(** An iteration of the copy loop that returns has logged the source
    file. *)
Lemma copy_file_Ok_encodes src rep logf a s s' :
  copy_file src rep logf a s = Ok tt s' → encodes (show_path a) = true.
Proof.
  unfold copy_file. intros H.
  apply bind_Ok in H as (dir_found & s1 & _ & H).
  apply bind_Ok in H as ([] & s2 & _ & H).
  apply bind_Ok in H as (found & s3 & _ & H).
  apply bind_Ok in H as (same & s4 & _ & H).
  destruct same.
  - apply bind_Ok in H as ([] & s5 & _ & H).
    apply bind_Ok in H as ([] & s6 & _ & H).
    apply log_event_Ok in H. by rewrite encodes_identical in H.
  - apply bind_Ok in H as ([] & s5 & _ & H).
    apply bind_Ok in H as ([] & s6 & _ & H).
    apply bind_Ok in H as ([] & s7 & _ & H).
    apply log_event_Ok in H. by rewrite encodes_copied in H.
Qed.

(** ** The copy loop *)

Section CopyLoop.

Variables src rep logf : path.
Hypothesis Hlay : layout src rep logf.

#[local] Abbreviation copied_post_ := (copied_post src rep logf).

Lemma source_ne_replica r1 r2 : src ++ r1 ≠ rep ++ r2.
Proof. destruct Hlay as (H & _). by apply apart_app_ne. Qed.

Lemma replica_ne_log r : rep ++ r ≠ logf.
Proof.
  intros E. destruct Hlay as (_ & _ & [_ H]). apply H. rewrite <- E. by eexists.
Qed.

Lemma copied_post_source seen s s' r :
  copied_post_ seen s s' → is_Some (st_fs s !! (src ++ r)) →
  st_fs s' !! (src ++ r) = st_fs s !! (src ++ r).
Proof.
  intros H [e He].
  destruct (cl_frame _ _ _ _ _ _ H (src ++ r)) as [?|(rel & _ & [[E _]|(E & _)])].
  - by apply (source_not_log src rep logf Hlay).
  - done.
  - by apply source_ne_replica in E.
  - congruence.
Qed.

Lemma copy_loop_spec files s :
  wf (st_fs s) → NoDup files →
  (∀ p, p ∈ files → beneath src p ∧ is_file (st_fs s) p = true) →
  match for_each files (copy_file src rep logf) s with
  | Ok _ s' => copied_post_ files s s'
  | Raise _ _ => True
  end.
Proof.
  intros Hwf Hnd Hfiles.
  apply (for_each_rule (λ seen si, copied_post_ seen s si) (λ _ _, True)).
  - intros seen p rest si Hl HI.
    assert (p ∈ files) as Hp by (rewrite Hl, elem_of_app; right; left).
    assert (p ∉ seen) as Hns.
    { rewrite Hl in Hnd. apply NoDup_app in Hnd as (_ & Hnd & _).
      intros Hin. apply (Hnd p Hin). left. }
    destruct (Hfiles p Hp) as [(n & r & ->) Hf].
    set (rel := n :: r) in *.
    assert (rel ≠ []) as Hrel by done.
    apply is_file_true in Hf as [c Hc].
    assert (st_fs si !! (src ++ rel) = Some (File c)) as Hci.
    { rewrite (copied_post_source seen s si) by (rewrite ?Hc; eauto). done. }
    pose proof (copy_file_spec src rep logf Hlay rel c si (cl_wf _ _ _ _ _ _ HI) Hrel Hci)
      as Hstep.
    pose proof (emits_copy_file src rep logf (src ++ rel) si) as (tr & Htr & HF & Hrep & _).
    destruct (copy_file src rep logf (src ++ rel) si) as [[] s'|e s']; [|done].
    simpl in Hrep, Htr.
    destruct Hstep as [Hsf Hrm Hcase].
    assert (file_copied_counter s' = file_copied_counter si + length (copies tr)) as Hcc.
    { destruct Hcase as [(_ & _ & Hc1 & _ & tr' & Htr' & Hq)
                        |(_ & _ & _ & _ & Hc1 & _ & tr' & Htr' & Hcp)].
      - rewrite Htr in Htr'. apply app_inv_head in Htr' as <-.
        replace (copies tr) with (@nil (path * path)); [simpl; lia|].
        clear -Hq. induction Hq as [|sc l Hsc _ IH]; [done|].
        unfold copies in *. simpl. destruct sc; try done.
      - rewrite Htr in Htr'. apply app_inv_head in Htr' as <-.
        rewrite Hcp. simpl. lia. }
    assert (∀ q, q ≠ logf → q ≠ rep ++ rel →
              st_fs s' !! q = st_fs si !! q
              ∨ (st_fs si !! q = None ∧ st_fs s' !! q = Some Dir
                 ∧ q `prefix_of` dirname (rep ++ rel))) as Hfr.
    { destruct Hcase as [(_ & Hk & _)|(_ & _ & _ & Hk & _)]; [|done].
      intros q Hq _. left. by apply Hk. }
    assert (∃ c', st_fs s' !! (rep ++ rel) = Some (File c')
                  ∧ MD5.hexdigest c' = MD5.hexdigest c
                  ∧ (c' = c ∨ st_fs s !! (rep ++ rel) = Some (File c'))) as Hnew.
    { destruct Hcase as [((c2 & Hc2 & Hh) & Hk & _)|(_ & _ & Hk & _)]; [|eauto].
      exists c2. rewrite Hk by apply replica_ne_log. split; [done|]. split; [done|].
      right. destruct (cl_frame _ _ _ _ _ _ HI (rep ++ rel) (replica_ne_log _))
        as [E|(rel' & Hin & [[E _]|(_ & E & _)])].
      - by rewrite <- E.
      - apply app_inv_head in E. by subst rel'.
      - congruence. }
    split.
    + rewrite Hrep. apply replay_wf. by eapply cl_wf.
    + rewrite Hsf. by eapply cl_files.
    + rewrite Hrm. by eapply cl_removed.
    + pose proof (cl_count _ _ _ _ _ _ HI) as Hcnt. rewrite length_app. simpl.
      destruct Hcase as [(_ & _ & -> & -> & _)|(_ & _ & _ & _ & -> & -> & _)]; lia.
    + intros q Hq. destruct (decide (q = rep ++ rel)) as [->|Hne].
      { right. exists rel. split; [rewrite elem_of_app; right; left|]. left.
        split; [done|]. destruct Hnew as (c' & Hc' & _). apply is_file_true. eauto. }
      destruct (Hfr q Hq Hne) as [E|(E1 & E2 & E3)].
      * destruct (cl_frame _ _ _ _ _ _ HI q Hq) as [E'|(rel' & Hin & Hcases)].
        -- left. congruence.
        -- right. exists rel'. split; [rewrite elem_of_app; by left|].
           destruct Hcases as [[-> Hif]|(? & ? & ?)].
           ++ left. split; [done|]. unfold is_file in *. by rewrite E.
           ++ right. repeat split; try done. congruence.
      * right. exists rel. split; [rewrite elem_of_app; right; left|]. right.
        split; [|done].
        destruct (cl_frame _ _ _ _ _ _ HI q Hq) as [E'|(rel' & Hin & Hcases)].
        -- congruence.
        -- destruct Hcases as [[-> Hif]|(? & ? & ?)]; [|congruence].
           apply is_file_true in Hif as [? ?]. congruence.
    + destruct (cl_trace _ _ _ _ _ _ HI) as (tr0 & Htr0 & HF0 & Hc0).
      exists (tr0 ++ tr). split; [by rewrite Htr, Htr0, app_assoc|]. split.
      * apply Forall_app. split.
        -- eapply Forall_impl; [exact HF0|]. intros sc (a & Ha & Hsc).
           exists a. split; [rewrite elem_of_app; by left|done].
        -- eapply Forall_impl; [exact HF|]. intros sc Hsc.
           exists (src ++ rel). split; [rewrite elem_of_app; right; left|done].
      * unfold copies in *. rewrite omap_app, length_app. lia.
    + intros rel0 c0 Hin Hc0. apply elem_of_app in Hin as [Hin|Hin].
      * destruct (cl_sync _ _ _ _ _ _ HI rel0 c0 Hin Hc0) as (c' & Hc' & Hh & Hor).
        exists c'. split; [|done].
        assert (rep ++ rel0 ≠ rep ++ rel) as Hne.
        { intros E. apply app_inv_head in E. by subst rel0. }
        destruct (Hfr (rep ++ rel0) (replica_ne_log _) Hne) as [E|(E & _)]; congruence.
      * apply list_elem_of_singleton, app_inv_head in Hin. subst rel0.
        assert (c0 = c) as -> by congruence. done.
  - split; [done|done|done|simpl; lia| | |].
    + intros q _. by left.
    + exists []. rewrite app_nil_r. split; [done|]. split; [constructor|simpl; lia].
    + intros rel c Hin. by apply elem_of_nil in Hin.
Qed.

End CopyLoop.

(** ** Components of the state that a computation leaves alone *)

Section Keeps.

Context {X : Type} (f : state → X).
Hypothesis f_tick : ∀ sc s, f (tick sc s) = f s.
Hypothesis f_fs : ∀ fs s, f (set_fs fs s) = f s.
Hypothesis f_stdout : ∀ o s, f (set_stdout o s) = f s.
Hypothesis f_counters : ∀ c r i s, f (set_counters c r i s) = f s.

Lemma keeps_ret {A} (a : A) : keeps f (ret a).
Proof. done. Qed.

Lemma keeps_raise {A} e : keeps f (@raise A e).
Proof. done. Qed.

Lemma keeps_bind {A B} (m : M A) (k : A → M B) :
  keeps f m → (∀ a, keeps f (k a)) → keeps f (bind m k).
Proof.
  intros Hm Hk s. unfold bind. specialize (Hm s).
  destruct (m s) as [a s1|e s1]; simpl in *; [|done]. by rewrite Hk.
Qed.

Lemma keeps_for_each {A} (l : list A) body :
  (∀ x, keeps f (body x)) → keeps f (for_each l body).
Proof.
  intros H. induction l as [|x l IH]; simpl; [apply keeps_ret|].
  apply keeps_bind; [apply H|]. by intros ?.
Qed.

Lemma keeps_local {A} (g : state → state) (h : state → A) :
  (∀ s, f (g s) = f s) → keeps f (λ s, Ok (h s) (g s)).
Proof. intros H s. apply H. Qed.

Lemma keeps_fs_call sc op : keeps f (fs_call sc op).
Proof.
  intros s. unfold fs_call. destruct (op _) as [[e|] fs']; simpl;
    by rewrite f_fs, f_tick.
Qed.

Lemma keeps_exists p : keeps f (os_path_exists p).
Proof. intros s. apply f_tick. Qed.

Lemma keeps_print l : keeps f (print l).
Proof. intros s. simpl. by rewrite f_stdout, f_tick. Qed.

Lemma keeps_get_md5 p : keeps f (get_md5 p).
Proof.
  intros s. rewrite get_md5_eq. destruct (st_fs s !! p) as [[?|]|]; apply f_tick.
Qed.

Lemma keeps_log_event p msg : keeps f (log_event p msg).
Proof.
  intros s. unfold log_event. destruct (encodes msg); [apply keeps_fs_call|].
  apply (keeps_bind (fs_call (SysAppend p "") (fs_append p ""))
           (λ _, raise UnicodeEncodeError)); [apply keeps_fs_call|done].
Qed.

Lemma keeps_os_walk n topdown top body :
  (∀ root dirs files, keeps f (body root dirs files)) →
  keeps f (os_walk n topdown top body).
Proof.
  intros Hbody. revert top. induction n as [|n IH]; intros top; simpl.
  - apply keeps_raise.
  - apply keeps_bind; [intros s; apply f_tick|].
    intros [[dirs files]|]; [|apply keeps_ret].
    destruct topdown; apply keeps_bind; try done; intros ?; try done;
      by apply keeps_for_each.
Qed.

Lemma keeps_delete src rep logf n top :
  keeps f (os_walk n false top (delete_body src rep logf)).
Proof.
  apply keeps_os_walk. intros root dirs files. unfold delete_body.
  apply keeps_bind; [|intros ?]; apply keeps_for_each; intros name.
  - unfold delete_file. apply keeps_bind; [apply keeps_exists|].
    intros [|]; [apply keeps_ret|].
    apply keeps_bind; [apply keeps_fs_call|]. intros ?.
    apply keeps_bind; [apply keeps_print|]. intros ?.
    apply keeps_bind; [by apply keeps_local|]. intros ?.
    apply keeps_log_event.
  - unfold delete_dir. apply keeps_bind; [apply keeps_exists|].
    intros [|]; [apply keeps_ret|].
    apply keeps_bind; [apply keeps_fs_call|]. intros ?.
    apply keeps_bind; [apply keeps_print|]. intros ?.
    apply keeps_log_event.
Qed.

Lemma keeps_copy_file src rep logf a : keeps f (copy_file src rep logf a).
Proof.
  unfold copy_file. apply keeps_bind; [apply keeps_exists|]. intros d.
  apply keeps_bind.
  { destruct d; [apply keeps_ret|apply keeps_fs_call]. }
  intros ?. apply keeps_bind; [apply keeps_exists|]. intros found.
  apply keeps_bind.
  { destruct found; [|apply keeps_ret].
    apply keeps_bind; [apply keeps_get_md5|]. intros h1.
    apply keeps_bind; [apply keeps_get_md5|]. intros h2.
    apply keeps_ret. }
  intros [|].
  - apply keeps_bind; [apply keeps_print|]. intros ?.
    apply keeps_bind; [by apply keeps_local|]. intros ?.
    apply keeps_log_event.
  - apply keeps_bind; [apply keeps_fs_call|]. intros ?.
    apply keeps_bind; [apply keeps_print|]. intros ?.
    apply keeps_bind; [by apply keeps_local|]. intros ?.
    apply keeps_log_event.
Qed.

Lemma keeps_report logf : keeps f (report logf).
Proof.
  intros s. unfold report.
  apply (keeps_bind (for_each (summary_lines s) print)
           (λ _, log_summary logf (String.concat "" (summary_lines s)))).
  - apply keeps_for_each. intros l. apply keeps_print.
  - intros ?. apply keeps_fs_call.
Qed.

Lemma keeps_scan n top :
  (∀ l s, f (set_source_files l s) = f s) →
  keeps f (os_walk n true top scan_body).
Proof.
  intros Hsf. apply keeps_os_walk. intros root dirs files. unfold scan_body.
  apply keeps_for_each. intros name. by apply keeps_local.
Qed.

End Keeps.

(** ** The summary *)

Lemma report_spec logf s :
  match report logf s with
  | Ok _ s' =>
      (∃ c, st_fs s' = <[logf := File c]> (st_fs s))
      ∧ (∃ tr, st_trace s' = st_trace s ++ tr ∧ Forall (report_calls logf) tr)
      ∧ source_files s' = source_files s
      ∧ file_copied_counter s' = file_copied_counter s
      ∧ file_removed_counter s' = file_removed_counter s
      ∧ file_identical_counter s' = file_identical_counter s
  | Raise _ s' => is_file (st_fs s) logf = false
  end.
Proof.
  unfold report, summary_lines. cbn [for_each].
  unfold bind, print, ret, log_summary. cbv beta iota.
  match goal with |- context [fs_call (SysAppend logf ?d) _ ?s4] =>
    pose proof (append_log_spec logf d s4) as Hlog;
    destruct (fs_call (SysAppend logf d) (fs_append logf d) s4) as [[] s'|e s']
  end; [|by destruct Hlog as [_ ?]].
  destruct Hlog as (Hfs & Heff & Htr & Hsf & Hcc & Hrc & Hic). simpl in *.
  repeat split; try done. eexists. split; [by rewrite Htr, <- !app_assoc|].
  by repeat constructor.
Qed.

(** ** The parts of a run that completes *)

Section Run.

Variables src rep logf : path.
Variable iv : Z.

Lemma sync_folders_Ok s s' :
  sync_folders src rep logf iv s = Ok tt s' →
  ∃ sa sb sc sd,
    os_walk (S (depth (st_fs s))) true src scan_body
      (set_source_files [] (set_counters 0 0 0 s)) = Ok tt sa
    ∧ os_walk (S (depth (st_fs sa))) false rep (delete_body src rep logf) sa = Ok tt sb
    ∧ for_each (source_files sb) (copy_file src rep logf) sb = Ok tt sc
    ∧ report logf sc = Ok tt sd
    ∧ s' = set_queue (heappush (Event (st_clock sd + iv) 1 (src, rep, logf, iv))
                        (st_queue sd)) sd.
Proof.
  intros H. unfold sync_folders in H.
  rewrite bind_eq in H. cbv beta iota in H.
  rewrite bind_eq in H. unfold walk_fuel at 1 in H. cbv beta iota in H.
  rewrite bind_eq in H. cbn [st_fs set_source_files set_counters] in H.
  destruct (os_walk _ true src scan_body _) as [[] sa|] eqn:Ha; [|done].
  rewrite bind_eq in H. unfold walk_fuel at 1 in H. cbv beta iota in H.
  rewrite bind_eq in H.
  destruct (os_walk _ false rep _ sa) as [[] sb|] eqn:Hb; [|done].
  rewrite bind_eq in H. unfold get_source_files at 1 in H. cbv beta iota in H.
  rewrite bind_eq in H.
  destruct (for_each _ _ sb) as [[] sc|] eqn:Hc; [|done].
  rewrite bind_eq in H.
  destruct (report logf sc) as [[] sd|] eqn:Hd; [|done].
  unfold sched_enter in H. injection H as <-.
  by exists sa, sb, sc, sd.
Qed.

Lemma sync_folders_compose s sa sb sc sd :
  os_walk (S (depth (st_fs s))) true src scan_body
    (set_source_files [] (set_counters 0 0 0 s)) = Ok tt sa →
  os_walk (S (depth (st_fs sa))) false rep (delete_body src rep logf) sa = Ok tt sb →
  for_each (source_files sb) (copy_file src rep logf) sb = Ok tt sc →
  report logf sc = Ok tt sd →
  sync_folders src rep logf iv s
  = Ok tt (set_queue (heappush (Event (st_clock sd + iv) 1 (src, rep, logf, iv))
                        (st_queue sd)) sd).
Proof.
  intros Ha Hb Hc Hd. unfold sync_folders.
  rewrite bind_eq. cbv beta iota.
  rewrite bind_eq. unfold walk_fuel at 1. cbv beta iota.
  rewrite bind_eq. cbn [st_fs set_source_files set_counters]. rewrite Ha.
  rewrite bind_eq. unfold walk_fuel at 1. cbv beta iota.
  rewrite bind_eq, Hb.
  rewrite bind_eq. unfold get_source_files at 1. cbv beta iota.
  rewrite bind_eq, Hc. rewrite bind_eq, Hd. done.
Qed.

End Run.

(** ** A run that completes *)

Section RunSpec.

Variables src rep logf : path.
Variable iv : Z.
Hypothesis Hlay : layout src rep logf.

Lemma run_Ok_spec s s' :
  wf (st_fs s) → sync_folders src rep logf iv s = Ok tt s' →
  ∃ found sa sb sc,
    NoDup found
    ∧ (∀ p, p ∈ found ↔ beneath src p ∧ is_file (st_fs s) p = true)
    ∧ st_fs sa = st_fs s
    ∧ source_files sa = found
    ∧ file_copied_counter sa = 0
    ∧ file_removed_counter sa = 0
    ∧ file_identical_counter sa = 0
    ∧ del_post src rep logf (beneath rep) sa sb
    ∧ copied_post src rep logf found sb sc
    ∧ (∀ q, q ≠ logf → st_fs s' !! q = st_fs sc !! q)
    ∧ is_file (st_fs s') logf = true
    ∧ source_files s' = source_files sc
    ∧ file_copied_counter s' = file_copied_counter sc
    ∧ file_removed_counter s' = file_removed_counter sc
    ∧ file_identical_counter s' = file_identical_counter sc
    ∧ st_queue s' = heappush (Event (st_clock s' + iv) 1 (src, rep, logf, iv)) (st_queue s)
    ∧ ∃ tra trb trc trd,
        st_trace s' = st_trace s ++ tra ++ trb ++ trc ++ trd
        ∧ Forall scan_calls tra
        ∧ st_trace sb = st_trace sa ++ trb
        ∧ Forall (delete_calls rep logf) trb
        ∧ st_trace sc = st_trace sb ++ trc
        ∧ Forall (report_calls logf) trd.
Proof.
  intros Hwf Hrun.
  apply sync_folders_Ok in Hrun as (sa & sb & sc & sd & Ha & Hb & Hc & Hd & ->).
  set (s0 := set_source_files [] (set_counters 0 0 0 s)) in *.
  destruct (scan_walk_spec (S (depth (st_fs s))) src s0)
    as (found & sa' & Ha' & Hfsa & Hsfa & Hca & Hra & Hia & Hnd & Hfound).
  { done. }
  { lia. }
  { intros q Hq Hsome. apply depth_bound in Hsome. simpl in Hsome. lia. }
  rewrite Ha in Ha'. injection Ha' as <-.
  pose proof (delete_walk_spec src rep logf Hlay False (S (depth (st_fs sa))) rep sa)
    as Hdel.
  rewrite Hb in Hdel.
  assert (del_post src rep logf (beneath rep) sa sb) as Hdp.
  { apply Hdel; [by rewrite Hfsa|done|lia| |by intros []].
    intros q Hq Hsome. apply depth_bound in Hsome. lia. }
  clear Hdel.
  assert (source_files sb = found) as Hsfb.
  { destruct (dp_locals _ _ _ _ _ _ Hdp) as (-> & _). by rewrite Hsfa. }
  pose proof (copy_loop_spec src rep logf Hlay found sb) as Hcp.
  rewrite Hsfb in Hc. rewrite Hc in Hcp.
  assert (copied_post src rep logf found sb sc) as Hcl.
  { apply Hcp; [by eapply dp_wf|done|]. intros p Hp.
    apply Hfound in Hp as [Hp Hf]. split; [done|].
    destruct Hp as (n & r & ->). unfold is_file in *.
    rewrite (dp_source src rep logf Hlay (beneath rep) sa sb); [|done|done].
    by rewrite Hfsa. }
  clear Hcp.
  pose proof (report_spec logf sc) as Hrp. rewrite Hd in Hrp.
  destruct Hrp as ([c Hfs] & (trd & Htrd & HFd) & Hsfd & Hcd & Hrd & Hid).
  exists found, sa, sb, sc. simpl.
  do 9 (split; [done|]).
  split. { intros q Hq. by rewrite Hfs, lookup_insert_ne. }
  split. { rewrite Hfs. apply is_file_insert. }
  do 4 (split; [done|]).
  split.
  { f_equal.
    pose proof (keeps_report st_queue ltac:(done) ltac:(done) ltac:(done) logf sc)
      as Hq4.
    rewrite Hd in Hq4.
    pose proof (keeps_for_each st_queue found (copy_file src rep logf)
                  (keeps_copy_file st_queue ltac:(done) ltac:(done) ltac:(done)
                     ltac:(done) src rep logf) sb) as Hq3.
    rewrite Hc in Hq3.
    pose proof (keeps_delete st_queue ltac:(done) ltac:(done) ltac:(done)
                  ltac:(done) src rep logf (S (depth (st_fs sa))) rep sa) as Hq2.
    rewrite Hb in Hq2.
    pose proof (keeps_scan st_queue ltac:(done) (S (depth (st_fs s))) src
                  ltac:(done) s0) as Hq1.
    rewrite Ha in Hq1. simpl in *. congruence. }
  destruct (emits_scan (S (depth (st_fs s))) src s0) as (tra & Htra & HFa & _).
  rewrite Ha in Htra. simpl in Htra.
  destruct (emits_delete_walk src rep logf (S (depth (st_fs sa))) rep
              (reflexivity rep) sa) as (trb & Htrb & HFb & _).
  rewrite Hb in Htrb. simpl in Htrb.
  destruct (cl_trace _ _ _ _ _ _ Hcl) as (trc & Htrc & _).
  exists tra, trb, trc, trd. repeat split; try done.
  by rewrite Htrd, Htrc, Htrb, Htra, <- !app_assoc.
Qed.

(** A run that completes has logged every regular file of the source. *)
Lemma run_Ok_names s s' :
  wf (st_fs s) → sync_folders src rep logf iv s = Ok tt s' →
  ∀ p, beneath src p → is_file (st_fs s) p = true → encodes (show_path p) = true.
Proof.
  intros Hwf Hrun p Hp Hf.
  apply sync_folders_Ok in Hrun as (sa & sb & sc & sd & Ha & Hb & Hc & Hd & ->).
  set (s0 := set_source_files [] (set_counters 0 0 0 s)) in *.
  destruct (scan_walk_spec (S (depth (st_fs s))) src s0)
    as (found & sa' & Ha' & Hfsa & Hsfa & Hca & Hra & Hia & Hnd & Hfound).
  { done. }
  { lia. }
  { intros q Hq Hsome. apply depth_bound in Hsome. simpl in Hsome. lia. }
  rewrite Ha in Ha'. injection Ha' as <-.
  pose proof (delete_walk_spec src rep logf Hlay False (S (depth (st_fs sa))) rep sa)
    as Hdel.
  rewrite Hb in Hdel.
  assert (del_post src rep logf (beneath rep) sa sb) as Hdp.
  { apply Hdel; [by rewrite Hfsa|done|lia| |by intros []].
    intros q Hq Hsome. apply depth_bound in Hsome. lia. }
  assert (source_files sb = found) as Hsfb.
  { destruct (dp_locals _ _ _ _ _ _ Hdp) as (-> & _). by rewrite Hsfa. }
  rewrite Hsfb in Hc.
  apply (for_each_Ok_all (λ a, encodes (show_path a) = true) found
           (copy_file src rep logf) (copy_file_Ok_encodes src rep logf) sb sc Hc).
  by apply Hfound.
Qed.

End RunSpec.

(** ** Counting *)

Lemma beneathb_true top q : beneathb top q = true ↔ beneath top q.
Proof.
  unfold beneathb. rewrite andb_true_iff, !bool_decide_eq_true. split.
  - intros [Hp Hne]. by destruct (prefix_beneath _ _ Hp).
  - intros H. split; [by apply beneath_prefix|].
    intros ->. by apply beneath_irrefl in H.
Qed.

(** A list without repetitions that holds the keys of a map has the size
    of the map. *)
Lemma length_keys (l : list path) (m : fsys) :
  NoDup l → (∀ p, p ∈ l ↔ is_Some (m !! p)) → length l = size m.
Proof.
  intros Hnd Hin. rewrite <- length_map_to_list, <- (length_fmap fst).
  apply Permutation_length, NoDup_Permutation; [done|apply NoDup_fst_map_to_list|].
  intros p. rewrite Hin, list_elem_of_fmap. split.
  - intros [e He]. exists (p, e). split; [done|]. by apply elem_of_map_to_list.
  - intros ([q e] & -> & He). apply elem_of_map_to_list in He. simpl. eauto.
Qed.

Lemma regular_files_lookup (top : path) (fs : fsys) p :
  is_Some (regular_files top fs !! p) ↔ beneath top p ∧ is_file fs p = true.
Proof.
  unfold regular_files, is_file. split.
  - intros [e He]. apply map_lookup_filter_Some in He as [He HP]. simpl in HP.
    apply andb_true_iff in HP as [Hb Hf]. apply beneathb_true in Hb.
    rewrite He. by destruct e.
  - intros [Hb Hf]. destruct (fs !! p) as [[c|]|] eqn:E; try done.
    exists (File c). apply map_lookup_filter_Some. split; [done|]. simpl.
    apply andb_true_iff. split; [by apply beneathb_true|done].
Qed.

Lemma stale_files_lookup (src rep : path) (fs : fsys) p :
  is_Some (stale_files src rep fs !! p)
  ↔ beneath rep p ∧ is_file fs p = true ∧ stale src rep fs p.
Proof.
  unfold stale_files, is_file, stale. split.
  - intros [e He]. apply map_lookup_filter_Some in He as [He HP]. simpl in HP.
    apply andb_true_iff in HP as [HP Hs]. apply andb_true_iff in HP as [Hb Hf].
    apply beneathb_true in Hb. apply negb_true_iff in Hs.
    rewrite He. by destruct e.
  - intros (Hb & Hf & Hs). destruct (fs !! p) as [[c|]|] eqn:E; try done.
    exists (File c). apply map_lookup_filter_Some. split; [done|]. simpl.
    rewrite !andb_true_iff. repeat split; [by apply beneathb_true|].
    by apply negb_true_iff.
Qed.

(** ** The log file stays a regular file *)

Section LogFile.

Variables src rep logf : path.
Hypothesis Hlay : layout src rep logf.

Lemma sys_effect_log_file sc fs :
  footprint src rep logf sc → is_file fs logf = true →
  is_file (sys_effect sc fs) logf = true.
Proof.
  intros HF Hf. apply is_file_true in Hf as [c Hc].
  destruct Hlay as (_ & _ & [_ Hrl]).
  assert (∀ r, logf ≠ rep ++ r) as Hne.
  { intros r E. apply Hrl. rewrite E. by eexists. }
  destruct sc as [q|q|q|q|q|q|a b|q d|l]; simpl in HF;
    try (apply is_file_true; simpl; eauto; fail).
  - destruct HF as (n & r & ->). unfold is_file.
    rewrite (sys_effect_frame (SysRemove _)), Hc; [done|]. simpl. apply Hne.
  - destruct HF as (n & r & ->). unfold is_file.
    rewrite (sys_effect_frame (SysRmdir _)), Hc; [done|]. simpl. apply Hne.
  - apply is_file_true. exists c. simpl.
    eapply grown_Some; [apply grown_makedirs|done].
  - subst b. unfold is_file.
    rewrite (sys_effect_frame (SysCopy2 _ _)), Hc; [done|]. simpl.
    intros [E|E]; [by apply Hne in E|]. rewrite <- app_assoc in E. by apply Hne in E.
  - subst q. simpl. unfold fs_append. rewrite Hc. simpl. apply is_file_insert.
Qed.

Lemma replay_log_file tr fs :
  Forall (footprint src rep logf) tr → is_file fs logf = true →
  is_file (replay tr fs) logf = true.
Proof.
  intros HF. revert fs. induction HF as [|sc tr Hsc _ IH]; intros fs Hf; [done|].
  simpl. apply IH. by apply sys_effect_log_file.
Qed.

(** The deletion pass fails only on the log file, or on the name of an
    entry that is not encoded. *)
Lemma delete_walk_total n top s :
  wf (st_fs s) → rep `prefix_of` top → 0 < n →
  (∀ q, beneath top q → is_Some (st_fs s !! q) → length q < length top + n) →
  is_file (st_fs s) logf = true →
  (∀ q, beneath top q → is_Some (st_fs s !! q) → stale src rep (st_fs s) q →
        encodes (show_path q) = true) →
  ∃ s', os_walk n false top (delete_body src rep logf) s = Ok tt s'
        ∧ del_post src rep logf (beneath top) s s'.
Proof.
  intros Hwf Htop Hn Hfit Hlog Hnames.
  pose proof (delete_walk_spec src rep logf Hlay True n top s Hwf Htop Hn Hfit
                (λ _, Hnames)) as H.
  destruct (emits_delete_walk src rep logf n top Htop s) as (tr & _ & HF & Hfs & _).
  destruct (os_walk n false top _ s) as [[] s'|e s']; [eauto|].
  simpl in *. destruct H as [H|H]; [|by destruct H].
  rewrite Hfs, replay_log_file in H; try done.
  eapply Forall_impl; [exact HF|]. apply delete_calls_footprint.
Qed.

End LogFile.

(** ** A run on a replica that mirrors the source *)

Section Synced.

Variables src rep logf : path.
Variable iv : Z.
Hypothesis Hlay : layout src rep logf.

Lemma quiet_of_delete_calls tr :
  Forall (delete_calls rep logf) tr → removed_files tr = [] → removed_dirs tr = [] →
  Forall quiet tr.
Proof.
  induction 1 as [|sc tr Hsc _ IH]; intros Hf Hd; [constructor|].
  destruct sc; simpl in *; try done; constructor; try done; by apply IH.
Qed.

Lemma quiet_of_scan_calls tr : Forall scan_calls tr → Forall quiet tr.
Proof. intros H. eapply Forall_impl; [exact H|]. by intros []. Qed.

Lemma quiet_of_report_calls tr : Forall (report_calls logf) tr → Forall quiet tr.
Proof. intros H. eapply Forall_impl; [exact H|]. by intros []. Qed.

Lemma nil_of_no_elem {A} (l : list A) : (∀ x, x ∉ l) → l = [].
Proof. destruct l as [|x l]; [done|]. intros H. destruct (H x). left. Qed.

Lemma run_synced s :
  synced src rep logf (st_fs s) →
  ∃ s', sync_folders src rep logf iv s = Ok tt s'
        ∧ (∀ q, q ≠ logf → st_fs s' !! q = st_fs s !! q)
        ∧ file_copied_counter s' = 0
        ∧ file_removed_counter s' = 0
        ∧ file_identical_counter s' = size (regular_files src (st_fs s))
        ∧ ∃ tr, st_trace s' = st_trace s ++ tr ∧ Forall quiet tr.
Proof.
  intros [Hwf Hlog Hsync Horph Hnames].
  set (s0 := set_source_files [] (set_counters 0 0 0 s)).
  (* the scan *)
  destruct (scan_walk_spec (S (depth (st_fs s))) src s0)
    as (found & sa & Ha & Hfsa & Hsfa & Hca & Hra & Hia & Hnd & Hfound).
  { done. }
  { lia. }
  { intros q Hq Hsome. apply depth_bound in Hsome. simpl in Hsome. lia. }
  destruct (emits_scan (S (depth (st_fs s))) src s0) as (tra & Htra & HFa & _).
  rewrite Ha in Htra. simpl in Htra, Hfsa, Hsfa, Hca, Hra, Hia.
  (* the deletion pass *)
  destruct (delete_walk_total src rep logf Hlay (S (depth (st_fs sa))) rep sa)
    as (sb & Hb & Hdp).
  { by rewrite Hfsa. }
  { done. }
  { lia. }
  { intros q Hq Hsome. apply depth_bound in Hsome. lia. }
  { by rewrite Hfsa. }
  { intros q (n & r & ->) Hsome Hst. unfold stale in Hst.
    rewrite relpath_app, Hfsa in Hst. apply path_exists_false in Hst.
    rewrite Hfsa in Hsome. apply Horph in Hsome; [|done].
    rewrite Hst in Hsome. by destruct Hsome. }
  destruct (emits_delete_walk src rep logf (S (depth (st_fs sa))) rep
              (reflexivity rep) sa) as (trb & Htrb & HFb & Hrpb & _).
  rewrite Hb in Htrb, Hrpb. simpl in Htrb, Hrpb.
  assert (is_file (st_fs sb) logf = true) as Hlogb.
  { rewrite Hrpb. apply (replay_log_file src rep logf Hlay); [|by rewrite Hfsa].
    eapply Forall_impl; [exact HFb|]. apply delete_calls_footprint. }
  assert (∀ q, beneath rep q → stale src rep (st_fs sa) q → st_fs sa !! q = None)
    as Hnostale.
  { intros q (n & r & ->) Hst. unfold stale in Hst. rewrite relpath_app, Hfsa in Hst.
    apply path_exists_false in Hst. rewrite Hfsa.
    destruct (st_fs s !! (rep ++ n :: r)) eqn:E; [|done].
    assert (is_Some (st_fs s !! (src ++ n :: r))) as [? ?]; [|congruence].
    apply Horph; [done|]. by rewrite E. }
  assert (∀ q, q ≠ logf → st_fs sb !! q = st_fs s !! q) as Hfsb.
  { intros q Hq. rewrite <- Hfsa.
    destruct (decide (st_fs sb !! q = st_fs sa !! q)) as [|Hne]; [done|].
    pose proof (dp_out _ _ _ _ _ _ Hdp q Hq Hne) as Hb'.
    rewrite (dp_in _ _ _ _ _ _ Hdp q Hb'). unfold pruned.
    destruct (path_exists _ _) eqn:E; [done|]. symmetry. by apply Hnostale. }
  destruct (dp_trace _ _ _ _ _ _ Hdp) as (trb' & Htrb' & _ & Hrf & Hrd & Hrc).
  rewrite Htrb in Htrb'. apply app_inv_head in Htrb' as <-.
  assert (removed_files trb = []) as Hrf0.
  { apply nil_of_no_elem. intros p Hp. apply Hrf in Hp as (Hp & Hf & Hs).
    apply is_file_true in Hf as [c Hc]. rewrite (Hnostale p Hp Hs) in Hc. done. }
  assert (removed_dirs trb = []) as Hrd0.
  { apply nil_of_no_elem. intros p Hp. apply Hrd in Hp as (Hp & Hf & Hs).
    apply is_dir_true in Hf. rewrite (Hnostale p Hp Hs) in Hf. done. }
  destruct (dp_locals _ _ _ _ _ _ Hdp) as (Hsfb & Hcb & Hib).
  (* the copy loop *)
  pose proof (for_each_rule
    (λ (seen : list path) si,
       (∀ q, q ≠ logf → st_fs si !! q = st_fs s !! q)
       ∧ wf (st_fs si) ∧ is_file (st_fs si) logf = true
       ∧ file_copied_counter si = 0
       ∧ file_removed_counter si = 0
       ∧ file_identical_counter si = length seen
       ∧ ∃ tr, st_trace si = st_trace sb ++ tr ∧ Forall quiet tr)
    (λ _ _, False) found (copy_file src rep logf)) as Hloop.
  assert (match for_each found (copy_file src rep logf) sb with
          | Ok _ sc =>
              (∀ q, q ≠ logf → st_fs sc !! q = st_fs s !! q)
              ∧ wf (st_fs sc) ∧ is_file (st_fs sc) logf = true
              ∧ file_copied_counter sc = 0
              ∧ file_removed_counter sc = 0
              ∧ file_identical_counter sc = length found
              ∧ ∃ tr, st_trace sc = st_trace sb ++ tr ∧ Forall quiet tr
          | Raise _ _ => False
          end) as Hc.
  { apply Hloop.
    - intros seen p rest si Hl (Hfsi & Hwfi & Hlogi & Hci & Hri & Hii & tri & Htri & Hqi).
      assert (p ∈ found) as Hp by (rewrite Hl, elem_of_app; right; left).
      apply Hfound in Hp as [(n & r & ->) Hf]. simpl in Hf, Hfsa.
      apply is_file_true in Hf as [c Hc].
      assert (st_fs si !! (src ++ n :: r) = Some (File c)) as Hci'.
      { rewrite Hfsi; [done|]. by apply (source_not_log src rep logf Hlay). }
      assert (in_sync rep (st_fs si) (n :: r) c) as Hsi.
      { destruct (Hsync (n :: r) c) as (c2 & Hc2 & Hh); [done|done|].
        exists c2. split; [|done]. rewrite Hfsi; [done|].
        apply (replica_ne_log src rep logf Hlay). }
      pose proof (copy_file_spec src rep logf Hlay (n :: r) c si Hwfi
                    ltac:(done) Hci') as Hstep.
      destruct (emits_copy_file src rep logf (src ++ n :: r) si)
        as (tr & _ & HF & Hrep & _).
      destruct (copy_file src rep logf (src ++ n :: r) si) as [[] s'|e s'].
      + destruct Hstep as [Hsf Hrm [(_ & Hk & Hc1 & Hi1 & tr' & Htr' & Hq')|(Hns & _)]];
          [|done].
        simpl in Hrep. split; [intros q Hq; by rewrite Hk, Hfsi|].
        split; [rewrite Hrep; by apply replay_wf|].
        split.
        { rewrite Hrep. apply (replay_log_file src rep logf Hlay); [|done].
          eapply Forall_impl; [exact HF|]. apply copy_calls_footprint. }
        split; [congruence|]. split; [congruence|].
        split; [rewrite length_app; simpl; lia|].
        exists (tri ++ tr'). split; [by rewrite Htr', Htri, app_assoc|].
        by apply Forall_app.
      + destruct Hstep as [Hstep|[Hstep|Hstep]]; [congruence|done|].
        rewrite (Hnames (n :: r) c) in Hstep; [done|done|].
        rewrite <- Hfsi; [done|]. by apply (source_not_log src rep logf Hlay).
    - split; [done|]. split; [by eapply dp_wf|]. split; [done|].
      rewrite Hrf0 in Hrc. simpl in Hrc.
      split; [congruence|]. split; [lia|]. split; [simpl; congruence|].
      exists []. by rewrite app_nil_r. }
  destruct (for_each found (copy_file src rep logf) sb) as [[] sc|] eqn:Hcc; [|done].
  destruct Hc as (Hfsc & Hwfc & Hlogc & Hc0 & Hr0 & Hi0 & trc & Htrc & Hqc).
  (* the summary *)
  pose proof (report_spec logf sc) as Hrp.
  destruct (report logf sc) as [[] sd|] eqn:Hd; [|congruence].
  destruct Hrp as ([c Hfsd] & (trd & Htrd & HFd) & Hsfd & Hcd & Hrd' & Hid).
  eexists. split.
  { apply (sync_folders_compose src rep logf iv s sa sb sc sd); try done.
    by rewrite Hsfb, Hsfa. }
  simpl. split.
  { intros q Hq. by rewrite Hfsd, lookup_insert_ne, Hfsc. }
  split; [congruence|]. split; [congruence|]. split.
  { rewrite Hid, Hi0. apply length_keys; [done|]. intros p.
    rewrite regular_files_lookup. apply Hfound. }
  exists (tra ++ trb ++ trc ++ trd).
  split; [by rewrite Htrd, Htrc, Htrb, Htra, <- !app_assoc|].
  repeat (apply Forall_app; split); try done.
  - by apply quiet_of_scan_calls.
  - by apply quiet_of_delete_calls.
  - by apply quiet_of_report_calls.
Qed.

End Synced.

(** * Consequences for a whole run *)

Lemma run_source_frame src rep logf iv s p :
  apart src rep → ¬ src `prefix_of` logf → src `prefix_of` p →
  st_fs (final (sync_folders src rep logf iv s)) !! p = st_fs s !! p.
Proof.
  intros Hsr Hsl Hp.
  destruct (emits_sync_folders src rep logf iv s) as (tr & _ & HF & -> & _).
  by apply (replay_source_frame src rep logf).
Qed.

Lemma layout_source src rep logf :
  layout src rep logf → apart src rep ∧ ¬ src `prefix_of` logf.
Proof. intros (H1 & [_ H2] & _). done. Qed.

(** The mirror a run leaves. *)
Lemma run_mirror src rep logf iv s s' :
  layout src rep logf → wf (st_fs s) →
  sync_folders src rep logf iv s = Ok tt s' →
  (∀ rel c, rel ≠ [] → st_fs s' !! (src ++ rel) = Some (File c) →
     ∃ c', st_fs s' !! (rep ++ rel) = Some (File c')
           ∧ MD5.hexdigest c' = MD5.hexdigest c
           ∧ (c' = c ∨ st_fs s !! (rep ++ rel) = Some (File c')))
  ∧ (∀ rel, rel ≠ [] → is_Some (st_fs s' !! (rep ++ rel)) →
       is_Some (st_fs s' !! (src ++ rel))).
Proof.
  intros Hlay Hwf Hrun.
  assert (∀ r, st_fs s' !! (src ++ r) = st_fs s !! (src ++ r)) as Hsrc.
  { intros r. destruct (layout_source _ _ _ Hlay) as [H1 H2].
    pose proof (run_source_frame src rep logf iv s (src ++ r) H1 H2) as H.
    rewrite Hrun in H. apply H. by eexists. }
  destruct (run_Ok_spec src rep logf iv Hlay s s' Hwf Hrun)
    as (found & sa & sb & sc & Hnd & Hfound & Hfsa & Hsfa & _ & _ & _ & Hdp & Hcl
        & Hfs' & _).
  assert (∀ r, st_fs sb !! (src ++ r) = st_fs s !! (src ++ r)) as Hsrcb.
  { intros r. rewrite <- Hfsa. by apply (dp_source src rep logf Hlay (beneath rep)). }
  assert (∀ n r, st_fs sb !! (rep ++ n :: r)
                 = if path_exists (st_fs s) (src ++ n :: r)
                   then st_fs s !! (rep ++ n :: r) else None) as Hrepb.
  { intros n r. rewrite (dp_in _ _ _ _ _ _ Hdp); [|by exists n, r].
    unfold pruned. by rewrite relpath_app, Hfsa. }
  split.
  - intros rel c Hrel Hc. rewrite Hsrc in Hc.
    destruct rel as [|n r]; [done|].
    destruct (cl_sync _ _ _ _ _ _ Hcl (n :: r) c) as (c' & Hc' & Hh & Hor).
    { apply Hfound. split; [by exists n, r|]. apply is_file_true. eauto. }
    { by rewrite Hsrcb. }
    exists c'. rewrite Hfs' by apply (replica_ne_log src rep logf Hlay).
    split; [done|]. split; [done|].
    destruct Hor as [?|Hb]; [by left|right].
    rewrite Hrepb in Hb. unfold path_exists in Hb. by rewrite Hc in Hb.
  - intros rel Hrel Hsome. rewrite Hsrc.
    rewrite Hfs' in Hsome by apply (replica_ne_log src rep logf Hlay).
    destruct rel as [|n r]; [done|].
    destruct (cl_frame _ _ _ _ _ _ Hcl (rep ++ n :: r)
                (replica_ne_log src rep logf Hlay _))
      as [E|(rel' & Hin & [[E _]|(_ & _ & Hpre)])].
    + rewrite E, Hrepb in Hsome.
      destruct (path_exists _ _) eqn:Hex; [|by destruct Hsome].
      by apply path_exists_true.
    + apply app_inv_head in E. subst rel'.
      apply Hfound in Hin as [_ Hf]. apply is_file_true in Hf as [c ->]. eauto.
    + apply Hfound in Hin as [_ Hf]. apply is_file_true in Hf as [c Hc].
      assert (rep ++ n :: r `prefix_of` rep ++ rel') as Hp.
      { etrans; [exact Hpre|]. unfold dirname.
        destruct (rep ++ rel') as [|x l] using rev_ind; [done|].
        rewrite removelast_last. by eexists. }
      apply prefix_app_inv in Hp as [k ->].
      apply (wf_prefix _ (src ++ n :: r) k Hwf). rewrite <- app_assoc, Hc. eauto.
Qed.

Lemma run_establishes_synced src rep logf iv s s' :
  layout src rep logf → wf (st_fs s) →
  sync_folders src rep logf iv s = Ok tt s' →
  synced src rep logf (st_fs s').
Proof.
  intros Hlay Hwf Hrun.
  destruct (run_mirror src rep logf iv s s' Hlay Hwf Hrun) as [Hf Ho].
  destruct (run_Ok_spec src rep logf iv Hlay s s' Hwf Hrun)
    as (found & sa & sb & sc & _ & _ & _ & _ & _ & _ & _ & _ & _ & _ & Hlog & _).
  split; try done.
  - destruct (emits_sync_folders src rep logf iv s) as (tr & _ & _ & Hfs & _).
    rewrite Hrun in Hfs. simpl in Hfs. rewrite Hfs. by apply replay_wf.
  - intros rel c Hrel Hc. destruct (Hf rel c Hrel Hc) as (c' & Hc' & Hh & _).
    exists c'. by split.
  - intros rel c Hrel Hc.
    destruct (layout_source _ _ _ Hlay) as [H1 H2].
    pose proof (run_source_frame src rep logf iv s (src ++ rel) H1 H2) as Hsame.
    rewrite Hrun in Hsame. simpl in Hsame.
    rewrite Hsame in Hc by (by eexists).
    apply (run_Ok_names src rep logf iv Hlay s s' Hwf Hrun).
    + destruct rel as [|n r]; [done|]. by exists n, r.
    + unfold is_file. by rewrite Hc.
Qed.


(** The calls of each part of a run, by kind. *)
Lemma scan_calls_none tr :
  Forall scan_calls tr → removed_files tr = [] ∧ copies tr = [].
Proof.
  induction 1 as [|sc tr Hsc _ [IH1 IH2]]; [done|]. by destruct sc.
Qed.

Lemma delete_calls_no_copy rep logf tr :
  Forall (delete_calls rep logf) tr → copies tr = [].
Proof. induction 1 as [|sc tr Hsc _ IH]; [done|]. by destruct sc. Qed.

Lemma copy_calls_no_remove src rep logf (P : path → Prop) tr :
  Forall (λ sc, ∃ a, P a ∧ copy_calls src rep logf a sc) tr → removed_files tr = [].
Proof.
  induction 1 as [|sc tr (a & _ & Hsc) _ IH]; [done|]. by destruct sc.
Qed.

Lemma report_calls_none logf tr :
  Forall (report_calls logf) tr → removed_files tr = [] ∧ copies tr = [].
Proof.
  induction 1 as [|sc tr Hsc _ [IH1 IH2]]; [done|]. by destruct sc.
Qed.

Lemma copies_app tr1 tr2 : copies (tr1 ++ tr2) = copies tr1 ++ copies tr2.
Proof. apply omap_app. Qed.

(** ** The folders a run creates *)

Lemma scan_calls_run (src rep logf : path) (fs : fsys) sc : scan_calls sc → run_calls src rep logf fs sc.
Proof. by destruct sc. Qed.

Lemma delete_calls_run (src rep logf : path) (fs : fsys) sc :
  delete_calls rep logf sc → run_calls src rep logf fs sc.
Proof. by destruct sc. Qed.

Lemma report_calls_run (src rep logf : path) (fs : fsys) sc :
  report_calls logf sc → run_calls src rep logf fs sc.
Proof. by destruct sc. Qed.

Lemma copy_calls_run (src rep logf : path) (fs : fsys) (a : path) sc :
  beneath src a → is_file fs a = true →
  copy_calls src rep logf a sc → run_calls src rep logf fs sc.
Proof.
  intros (n & r & ->) Hf.
  destruct sc as [q|q|q|q|q|q|x b|q d|l]; simpl; rewrite ?relpath_app; try done.
  - intros ->. by exists (n :: r).
  - intros [-> ->]. by exists (n :: r).
Qed.

(** The calls of a run are those of [run_calls] for the file system it
    starts with, whatever the outcome of the run. *)
Lemma run_calls_spec src rep logf iv s :
  wf (st_fs s) →
  emits_at s (run_calls src rep logf (st_fs s)) (sync_folders src rep logf iv).
Proof.
  intros Hwf. unfold sync_folders.
  set (F := run_calls src rep logf (st_fs s)).
  apply emits_at_bind; [by apply emits_local|]. intros a s0 E.
  inversion E; subst a s0; clear E.
  set (s0 := set_source_files [] (set_counters 0 0 0 s)).
  apply emits_at_bind; [by apply emits_local|]. intros n1 s0' E.
  inversion E; subst n1 s0'; clear E.
  destruct (scan_walk_spec (S (depth (st_fs s0))) src s0) as
    (found & sa & Hscan & Hfsa & Hsfa & _ & _ & _ & _ & Hfound); [done|lia| |].
  { intros q _ Hq. apply depth_bound in Hq. lia. }
  apply emits_at_bind.
  { eapply emits_at_weaken; [apply scan_calls_run|apply emits_scan]. }
  intros a sa' E. change (st_fs s) with (st_fs s0) in E.
  rewrite Hscan in E. inversion E; subst a sa'; clear E.
  apply emits_at_bind; [by apply emits_local|]. intros n2 sa' E.
  inversion E; subst n2 sa'; clear E.
  apply emits_at_bind.
  { eapply emits_at_weaken; [apply delete_calls_run|by apply emits_delete_walk]. }
  intros a sb Hdel.
  pose proof (keeps_delete source_files ltac:(done) ltac:(done) ltac:(done)
                ltac:(done) src rep logf (S (depth (st_fs sa))) rep sa) as Hk.
  rewrite Hdel in Hk. simpl in Hk.
  apply emits_at_bind; [by apply emits_local|]. intros files sb' E.
  inversion E; subst files sb'; clear E.
  rewrite Hk, Hsfa. simpl.
  apply emits_at_bind.
  { apply emits_for_each. intros x Hx. apply Hfound in Hx as [Hb Hf].
    eapply emits_weaken; [|apply emits_copy_file].
    intros sc. by apply copy_calls_run. }
  intros ? sc _. apply emits_at_bind.
  { eapply emits_at_weaken; [apply report_calls_run|apply emits_report]. }
  intros ? sd _. by apply emits_local.
Qed.

(** Only [os.makedirs] makes a folder appear. *)
Lemma insert_file_dir (fs : fsys) p c q :
  <[p := File c]> fs !! q = Some Dir → fs !! q = Some Dir.
Proof.
  destruct (decide (p = q)) as [->|Hne].
  - by rewrite lookup_insert_eq.
  - by rewrite lookup_insert_ne.
Qed.

Lemma delete_dir_lookup (fs : fsys) p q :
  delete p fs !! q = Some Dir → fs !! q = Some Dir.
Proof.
  destruct (decide (p = q)) as [->|Hne].
  - by rewrite lookup_delete_eq.
  - by rewrite lookup_delete_ne.
Qed.

Lemma fs_create_file_dir p c fs q :
  (fs_create p (File c) fs).2 !! q = Some Dir → fs !! q = Some Dir.
Proof.
  unfold fs_create. destruct (fs !! dirname p) as [[?|]|]; simpl; try done.
  apply insert_file_dir.
Qed.

Lemma fs_write_dir p c fs q :
  (fs_write p c fs).2 !! q = Some Dir → fs !! q = Some Dir.
Proof.
  unfold fs_write. destruct (fs !! p) as [[?|]|]; simpl; try done.
  - apply insert_file_dir.
  - apply fs_create_file_dir.
Qed.

Lemma sys_effect_new_dir sc fs q :
  sys_effect sc fs !! q = Some Dir →
  fs !! q = Some Dir ∨ ∃ p, sc = SysMakedirs p ∧ q `prefix_of` p.
Proof.
  destruct sc as [p|p|p|p|p|p|a b|p d|l]; simpl; try (by left).
  - unfold fs_remove. destruct (fs !! p) as [[?|]|]; simpl; try (by left).
    intros ?%delete_dir_lookup. by left.
  - unfold fs_rmdir. destruct (fs !! p) as [[?|]|]; simpl; try (by left).
    destruct p as [|x p']; simpl; [by left|].
    destruct (listdir fs (x :: p')); simpl; [|by left].
    intros ?%delete_dir_lookup. by left.
  - intros H. destruct (grown_makedirs p fs q) as [E|(_ & _ & Hp)].
    + left. by rewrite <- E.
    + right. by exists p.
  - unfold fs_copy2. destruct (_ && _); simpl; [by left|].
    destruct (fs !! a) as [[?|]|]; simpl; try (by left).
    intros ?%fs_write_dir. by left.
  - unfold fs_append. destruct (fs !! p) as [[?|]|]; simpl; try (by left).
    + intros ?%insert_file_dir. by left.
    + intros ?%fs_create_file_dir. by left.
Qed.

Lemma replay_new_dir tr fs q :
  replay tr fs !! q = Some Dir →
  fs !! q = Some Dir ∨ ∃ p, SysMakedirs p ∈ tr ∧ q `prefix_of` p.
Proof.
  revert fs. induction tr as [|sc tr IH]; intros fs; simpl; [by left|].
  intros H. destruct (IH _ H) as [H1|(p & Hin & Hp)].
  - destruct (sys_effect_new_dir _ _ _ H1) as [?|(p & -> & Hp)]; [by left|].
    right. exists p. split; [left|done].
  - right. exists p. split; [by right|done].
Qed.

(** ** The order of the deletion pass *)

Lemma children_first_nil : children_first [].
Proof. intros l1 p l2 q E. by destruct l1. Qed.

Lemma children_first_app l1 l2 :
  children_first l1 → children_first l2 →
  (∀ p q, p ∈ l1 → q ∈ l2 → ¬ beneath p q) →
  children_first (l1 ++ l2).
Proof.
  intros H1 H2 H12 k1 p k2 q E Hq.
  apply app_eq_app in E as [l [[E1 E2]|[E1 E2]]].
  - destruct l as [|x l]; simpl in E2.
    + apply (H2 [] p k2 q); [by rewrite <- E2|done].
    + injection E2 as <- ->. apply elem_of_app in Hq as [Hq|Hq].
      * by apply (H1 k1 p l q).
      * apply H12; [|done]. rewrite E1. apply elem_of_app. right. left.
  - by apply (H2 l p k2 q).
Qed.

Lemma children_first_siblings (top : path) l :
  Forall (λ q, ∃ name : string, q = top ++ [name]) l → children_first l.
Proof.
  intros H l1 p l2 q -> Hq Hb. rewrite Forall_forall in H.
  destruct (H p) as [n ->]; [apply elem_of_app; right; left|].
  destruct (H q) as [m ->]; [apply elem_of_app; right; by right|].
  apply beneath_length in Hb. rewrite !length_app in Hb. simpl in Hb. lia.
Qed.

Lemma touched_app src rep tr1 tr2 :
  touched src rep (tr1 ++ tr2) = touched src rep tr1 ++ touched src rep tr2.
Proof. apply omap_app. Qed.

Lemma touched_child_calls src rep root tr :
  Forall (child_calls src rep root) tr →
  Forall (λ q, ∃ name : string, q = root ++ [name]) (touched src rep tr).
Proof.
  induction 1 as [|sc tr Hsc _ IH]; [constructor|].
  unfold touched. simpl. fold (touched src rep tr).
  destruct (touches src rep sc) as [q|] eqn:E; [|done].
  constructor; [by apply Hsc|done].
Qed.

Section PostOrder.

Variables src rep logf : path.

Lemma replica_child root name :
  rep `prefix_of` root →
  rep ++ relpath (src ++ relpath (root ++ [name]) rep) src = root ++ [name].
Proof.
  intros [k Hk]. rewrite Hk. by rewrite relpath_app, <- !app_assoc, relpath_app.
Qed.

Lemma emits_child_calls root dirs files :
  rep `prefix_of` root →
  emits (child_calls src rep root) (delete_body src rep logf root dirs files).
Proof.
  intros Hroot. unfold delete_body.
  assert (∀ name, child_calls src rep root
            (SysStat (src ++ relpath (root ++ [name]) rep))) as Hstat.
  { intros name q [= <-]. exists name. by apply replica_child. }
  apply emits_bind; [|intros ?]; apply emits_for_each; intros name _.
  - unfold delete_file. apply emits_bind; [by apply emits_os_path_exists|].
    intros [|]; [apply emits_ret|].
    apply emits_bind.
    { apply emits_os_remove. intros q [= <-]. by exists name. }
    intros ?. apply emits_bind; [by apply emits_print|].
    intros ?. apply emits_bind; [by apply emits_local|].
    intros ?. by apply emits_log_event.
  - unfold delete_dir. apply emits_bind; [by apply emits_os_path_exists|].
    intros [|]; [apply emits_ret|].
    apply emits_bind.
    { apply emits_os_rmdir. intros q [= <-]. by exists name. }
    intros ?. apply emits_bind; [by apply emits_print|].
    intros ?. by apply emits_log_event.
Qed.

(** The walks of the folders [dirs] of [top], one after the other. *)
Lemma walk_dirs_children_first n top :
  (∀ d s, ∃ tr,
     st_trace (final (os_walk n false (top ++ [d]) (delete_body src rep logf) s))
     = st_trace s ++ tr
     ∧ children_first (touched src rep tr)
     ∧ Forall (beneath (top ++ [d])) (touched src rep tr)) →
  ∀ dirs s, NoDup dirs →
    ∃ tr,
      st_trace (final (for_each dirs
                 (λ d, os_walk n false (top ++ [d]) (delete_body src rep logf)) s))
      = st_trace s ++ tr
      ∧ children_first (touched src rep tr)
      ∧ Forall (λ q, ∃ d, d ∈ dirs ∧ beneath (top ++ [d]) q) (touched src rep tr).
Proof.
  intros IH dirs. induction dirs as [|d ds IHds]; intros s Hnd.
  - exists []. simpl. rewrite app_nil_r. split; [done|].
    split; [apply children_first_nil|constructor].
  - apply NoDup_cons in Hnd as [Hd Hnd]. simpl. rewrite bind_eq.
    destruct (IH d s) as (tr1 & Ht1 & Hc1 & Hb1).
    destruct (os_walk n false (top ++ [d]) _ s) as [a s1|e s1]; simpl in Ht1.
    + destruct (IHds s1 Hnd) as (tr2 & Ht2 & Hc2 & Hb2).
      exists (tr1 ++ tr2). rewrite Ht2, Ht1, <- app_assoc. split; [done|].
      rewrite touched_app. split.
      * apply children_first_app; [done|done|].
        intros p q Hp Hq Hpq. rewrite Forall_forall in Hb1, Hb2.
        destruct (Hb2 q Hq) as (d' & Hd' & Hq').
        assert (d = d') as <-; [|done].
        eapply beneath_child_inj; [|exact Hq'].
        eapply beneath_trans; [apply Hb1|]; done.
      * apply Forall_app. split.
        -- eapply Forall_impl; [exact Hb1|]. intros q Hq. exists d. split; [left|done].
        -- eapply Forall_impl; [exact Hb2|]. intros q (d' & Hd' & Hq).
           exists d'. split; [by right|done].
    + exists tr1. simpl. split; [done|]. split; [done|].
      eapply Forall_impl; [exact Hb1|]. intros q Hq. exists d. split; [left|done].
Qed.

(** In the deletion pass no entry is tested or removed after an entry that
    lies above it. *)
Lemma walk_children_first n top s :
  rep `prefix_of` top →
  ∃ tr,
    st_trace (final (os_walk n false top (delete_body src rep logf) s)) = st_trace s ++ tr
    ∧ children_first (touched src rep tr)
    ∧ Forall (beneath top) (touched src rep tr).
Proof.
  revert top s. induction n as [|n IH]; intros top s Htop.
  { exists []. simpl. rewrite app_nil_r. split; [done|].
    split; [apply children_first_nil|constructor]. }
  cbn [os_walk]. rewrite bind_eq. unfold os_scandir at 1.
  set (s1 := tick (SysScandir top) s).
  assert (st_trace s1 = st_trace s ++ [SysScandir top]) as Hs1 by done.
  destruct (is_dir (st_fs s) top).
  2:{ exists [SysScandir top]. simpl. split; [done|].
      split; [apply children_first_nil|constructor]. }
  rewrite bind_eq.
  destruct (walk_dirs_children_first n top) with
    (dirs := subdirs (listdir (st_fs s) top)) (s := s1) as (tr1 & Ht1 & Hc1 & Hb1).
  { intros d s'. apply IH. etrans; [exact Htop|]. by eexists. }
  { apply NoDup_subdirs. }
  destruct (for_each _ _ s1) as [a s2|e s2]; simpl in Ht1.
  - destruct (emits_child_calls top (subdirs (listdir (st_fs s) top))
                (nondirs (listdir (st_fs s) top)) Htop s2) as (tr2 & Ht2 & HF2 & _).
    apply touched_child_calls in HF2.
    exists (SysScandir top :: tr1 ++ tr2).
    rewrite Ht2, Ht1, ?Hs1, <- !app_assoc. split; [done|].
    change (touched src rep (SysScandir top :: tr1 ++ tr2))
      with (touched src rep (tr1 ++ tr2)).
    rewrite touched_app. split.
    + apply children_first_app; [done|by eapply children_first_siblings|].
      intros p q Hp Hq Hpq. rewrite Forall_forall in Hb1, HF2.
      destruct (Hb1 p Hp) as (d & _ & Hd). destruct (HF2 q Hq) as [m ->].
      apply beneath_length in Hpq, Hd. rewrite !length_app in *. simpl in *. lia.
    + apply Forall_app. split.
      * eapply Forall_impl; [exact Hb1|]. intros q (d & _ & Hq).
        eapply beneath_trans; [apply beneath_snoc|exact Hq].
      * eapply Forall_impl; [exact HF2|]. intros q [m ->]. apply beneath_snoc.
  - exists (SysScandir top :: tr1). simpl. rewrite Ht1, ?Hs1, <- app_assoc.
    split; [done|]. split; [done|].
    eapply Forall_impl; [exact Hb1|]. intros q (d & _ & Hq).
    eapply beneath_trans; [apply beneath_snoc|exact Hq].
Qed.

End PostOrder.

(** A folder goes away only by [os.rmdir], and only when it is empty. *)
Lemma fs_create_keeps_dir p e fs q :
  fs !! p = None → fs !! q = Some Dir → (fs_create p e fs).2 !! q = Some Dir.
Proof.
  intros Hp Hq. unfold fs_create. destruct (fs !! dirname p) as [[?|]|]; simpl; try done.
  rewrite lookup_insert_ne; [done|]. intros ->. congruence.
Qed.

Lemma fs_write_keeps_dir p c fs q :
  fs !! q = Some Dir → (fs_write p c fs).2 !! q = Some Dir.
Proof.
  intros Hq. unfold fs_write. destruct (fs !! p) as [[?|]|] eqn:E; simpl; try done.
  - rewrite lookup_insert_ne; [done|]. intros ->. congruence.
  - by apply fs_create_keeps_dir.
Qed.

Lemma sys_effect_dir_gone sc fs q :
  fs !! q = Some Dir → sys_effect sc fs !! q ≠ Some Dir →
  sc = SysRmdir q ∧ listdir fs q = [].
Proof.
  intros Hq.
  destruct sc as [p|p|p|p|p|p|a b|p d|l]; simpl; try done.
  - unfold fs_remove. destruct (fs !! p) as [[?|]|] eqn:E; simpl; try done.
    rewrite lookup_delete_ne; [done|]. intros ->. congruence.
  - unfold fs_rmdir. destruct (fs !! p) as [[?|]|] eqn:E; simpl; try done.
    destruct p as [|x p']; simpl; [done|].
    destruct (listdir fs (x :: p')) eqn:El; simpl; [|done].
    destruct (decide (x :: p' = q)) as [<-|Hne]; [done|].
    by rewrite lookup_delete_ne.
  - intros H. destruct H. by eapply grown_Some; [apply grown_makedirs|].
  - unfold fs_copy2. destruct (_ && _); simpl; [done|].
    destruct (fs !! a) as [[?|]|]; simpl; try done.
    intros H. destruct H. by apply fs_write_keeps_dir.
  - unfold fs_append. destruct (fs !! p) as [[?|]|] eqn:E; simpl; try done.
    + rewrite lookup_insert_ne; [done|]. intros ->. congruence.
    + intros H. destruct H. by apply fs_create_keeps_dir.
Qed.

(** ** Failing calls *)

Lemma no_fail_app tr1 tr2 fs :
  no_fail (tr1 ++ tr2) fs ↔ no_fail tr1 fs ∧ no_fail tr2 (replay tr1 fs).
Proof.
  revert fs. induction tr1 as [|sc tr1 IH]; intros fs; simpl; [tauto|].
  rewrite IH. tauto.
Qed.

Lemma strict_ret {A} (a : A) : strict (ret a).
Proof. intros s. exists []. simpl. by rewrite app_nil_r. Qed.

Lemma strict_local {A} (f : state → state) (g : state → A) :
  (∀ s, st_trace (f s) = st_trace s) → (∀ s, st_fs (f s) = st_fs s) →
  strict (λ s, Ok (g s) (f s)).
Proof. intros H1 H2 s. exists []. simpl. by rewrite H1, H2, app_nil_r. Qed.

Lemma strict_at_bind {A B} s (m : M A) (k : A → M B) :
  strict_at s m → (∀ a s1, m s = Ok a s1 → strict_at s1 (k a)) →
  strict_at s (bind m k).
Proof.
  intros (tr1 & Ht1 & Hfs1 & H1) Hk. unfold strict_at, bind in *.
  destruct (m s) as [a s1|e s1]; simpl in *.
  - destruct (Hk a s1 eq_refl) as (tr2 & Ht2 & Hfs2 & H2).
    exists (tr1 ++ tr2). rewrite Ht2, Ht1, Hfs2, Hfs1, replay_app, <- app_assoc.
    split; [done|]. split; [done|]. rewrite Hfs1 in H2.
    destruct (k a s1) as [b s2|e s2].
    + by apply no_fail_app.
    + destruct H2 as [(t & sc & -> & Hnf & He)|[-> Hnf]].
      * left. exists (tr1 ++ t), sc.
        rewrite app_assoc. split; [done|]. split; [by apply no_fail_app|].
        by rewrite replay_app.
      * right. split; [done|]. by apply no_fail_app.
  - by exists tr1.
Qed.

Lemma strict_bind {A B} (m : M A) (k : A → M B) :
  strict m → (∀ a, strict (k a)) → strict (bind m k).
Proof. intros Hm Hk s. apply strict_at_bind; [apply Hm|]. intros a s1 _. apply Hk. Qed.

(** A loop whose iterations keep an invariant. *)
Lemma strict_for_each_inv {A} (I : state → Prop) (l : list A) body :
  (∀ x s, x ∈ l → I s → strict_at s (body x)) →
  (∀ x s a s', x ∈ l → I s → body x s = Ok a s' → I s') →
  ∀ s, I s → strict_at s (for_each l body).
Proof.
  induction l as [|x l IH]; intros Hb HI s Hs; simpl.
  - apply strict_ret.
  - apply strict_at_bind; [apply Hb; [left|done]|].
    intros a s1 E. apply IH.
    + intros y s' Hy. apply Hb. by right.
    + intros y s' b s'' Hy. apply HI. by right.
    + eapply HI; [left|exact Hs|exact E].
Qed.

Lemma strict_for_each {A} (l : list A) body :
  (∀ x, strict (body x)) → strict (for_each l body).
Proof.
  intros H s. apply (strict_for_each_inv (λ _, True)); try done.
  intros x s' _ _. apply H.
Qed.

Lemma strict_fs_call sc op :
  (∀ fs, op fs = (sys_error sc fs, sys_effect sc fs)) → strict (fs_call sc op).
Proof.
  intros Hop s. exists [sc]. unfold fs_call. rewrite Hop.
  change (st_fs (tick sc s)) with (st_fs s).
  destruct (sys_error sc (st_fs s)) as [e|] eqn:E; simpl.
  - split; [done|]. split; [done|]. left. by exists [], sc.
  - done.
Qed.

Lemma strict_os_path_exists p : strict (os_path_exists p).
Proof. intros s. by exists [SysStat p]. Qed.

Lemma strict_os_scandir p : strict (os_scandir p).
Proof. intros s. by exists [SysScandir p]. Qed.

Lemma strict_print l : strict (print l).
Proof. intros s. by exists [SysPrint l]. Qed.

Lemma strict_open_rb p : strict (open_rb p).
Proof.
  intros s. exists [SysOpenRead p]. unfold open_rb.
  destruct (fs_open_rb p (st_fs s)) as [e|c] eqn:E; simpl.
  - split; [done|]. split; [done|]. left. exists [], (SysOpenRead p). simpl.
    by rewrite E.
  - by rewrite E.
Qed.

Lemma strict_get_md5 p : strict (get_md5 p).
Proof.
  unfold get_md5. apply strict_bind; [apply strict_open_rb|].
  intros c. apply strict_ret.
Qed.

Lemma outcome_eta (o : outcome) : o = (o.1, o.2).
Proof. by destruct o. Qed.

Lemma strict_os_remove p : strict (os_remove p).
Proof. apply strict_fs_call. intros fs. apply outcome_eta. Qed.

Lemma strict_os_rmdir p : strict (os_rmdir p).
Proof. apply strict_fs_call. intros fs. apply outcome_eta. Qed.

Lemma strict_os_makedirs p : strict (os_makedirs p).
Proof. apply strict_fs_call. intros fs. apply outcome_eta. Qed.

Lemma strict_shutil_copy2 a b : strict (shutil_copy2 a b).
Proof. apply strict_fs_call. intros fs. apply outcome_eta. Qed.

Lemma strict_raise_encode {A} : strict (@raise A UnicodeEncodeError).
Proof.
  intros s. exists []. simpl. rewrite app_nil_r.
  split; [done|]. split; [done|]. by right.
Qed.

Lemma strict_log_event p msg : strict (log_event p msg).
Proof.
  intros s. unfold log_event. destruct (encodes msg).
  - apply (strict_fs_call (SysAppend p _)). intros fs. apply outcome_eta.
  - apply strict_at_bind; [|intros ? ? _; apply strict_raise_encode].
    apply (strict_fs_call (SysAppend p _)). intros fs. apply outcome_eta.
Qed.

Lemma strict_log_summary p d : strict (log_summary p d).
Proof. apply strict_fs_call. intros fs. apply outcome_eta. Qed.

Lemma strict_delete_body src rep logf root dirs files :
  strict (delete_body src rep logf root dirs files).
Proof.
  unfold delete_body.
  apply strict_bind; [|intros ?]; apply strict_for_each; intros name.
  - unfold delete_file. apply strict_bind; [apply strict_os_path_exists|].
    intros [|]; [apply strict_ret|].
    apply strict_bind; [apply strict_os_remove|]. intros ?.
    apply strict_bind; [apply strict_print|]. intros ?.
    apply strict_bind; [by apply strict_local|]. intros ?.
    apply strict_log_event.
  - unfold delete_dir. apply strict_bind; [apply strict_os_path_exists|].
    intros [|]; [apply strict_ret|].
    apply strict_bind; [apply strict_os_rmdir|]. intros ?.
    apply strict_bind; [apply strict_print|]. intros ?.
    apply strict_log_event.
Qed.

Lemma strict_copy_file src rep logf a : strict (copy_file src rep logf a).
Proof.
  unfold copy_file. apply strict_bind; [apply strict_os_path_exists|]. intros d.
  apply strict_bind.
  { destruct d; [apply strict_ret|apply strict_os_makedirs]. }
  intros ?. apply strict_bind; [apply strict_os_path_exists|]. intros found.
  apply strict_bind.
  { destruct found; [|apply strict_ret].
    apply strict_bind; [apply strict_get_md5|]. intros h1.
    apply strict_bind; [apply strict_get_md5|]. intros h2.
    apply strict_ret. }
  intros [|].
  - apply strict_bind; [apply strict_print|]. intros ?.
    apply strict_bind; [by apply strict_local|]. intros ?.
    apply strict_log_event.
  - apply strict_bind; [apply strict_shutil_copy2|]. intros ?.
    apply strict_bind; [apply strict_print|]. intros ?.
    apply strict_bind; [by apply strict_local|]. intros ?.
    apply strict_log_event.
Qed.

Lemma strict_report logf : strict (report logf).
Proof.
  intros s. unfold report.
  apply (strict_bind (for_each (summary_lines s) print)
           (λ _, log_summary logf (String.concat "" (summary_lines s)))).
  - apply strict_for_each. intros l. apply strict_print.
  - intros ?. apply strict_log_summary.
Qed.

Lemma emits_no_new_dir {A} (F : syscall → Prop) (m : M A) :
  (∀ sc, F sc → ∀ p, sc ≠ SysMakedirs p) → emits F m → no_new_dir m.
Proof.
  intros HF Hm s q Hq. destruct (Hm s) as (tr & _ & Htr & Hfs & _).
  rewrite Hfs in Hq. apply replay_new_dir in Hq as [?|(p & Hin & _)]; [done|].
  rewrite Forall_forall in Htr. by destruct (HF _ (Htr _ Hin) p).
Qed.
(** ** A walk does not run out of recursion *)

Section StrictWalk.

Variable F : syscall → Prop.
Variable body : path → list string → list string → M unit.
Variable topdown : bool.
Variable top0 : path.

Hypothesis F_no_makedirs : ∀ sc, F sc → ∀ p, sc ≠ SysMakedirs p.
Hypothesis F_scandir : ∀ p, F (SysScandir p).
Hypothesis body_emits :
  ∀ root dirs files, top0 `prefix_of` root → emits F (body root dirs files).
Hypothesis body_strict : ∀ root dirs files, strict (body root dirs files).

Lemma walk_no_new_dir n top :
  top0 `prefix_of` top → no_new_dir (os_walk n topdown top body).
Proof.
  intros Htop. apply (emits_no_new_dir F); [done|].
  apply emits_os_walk; [done|]. intros root dirs files Hroot.
  apply body_emits. by etrans.
Qed.

(** The folders of a walk were there when it started, no deeper than the
    recursion it may use. *)
Lemma strict_os_walk n top s :
  top0 `prefix_of` top → 0 < n →
  (∀ q, top `prefix_of` q → st_fs s !! q = Some Dir → length q < length top + n) →
  strict_at s (os_walk n topdown top body).
Proof.
  revert top s. induction n as [|n IH]; intros top s Htop Hn Hfit; [lia|].
  cbn [os_walk]. apply strict_at_bind; [apply strict_os_scandir|].
  intros r s1 E. unfold os_scandir in E. injection E as <- <-.
  destruct (is_dir (st_fs s) top) eqn:Hd; [|apply strict_ret].
  set (dirs := subdirs (listdir (st_fs s) top)).
  set (files := nondirs (listdir (st_fs s) top)).
  assert (∀ s', (∀ q, st_fs s' !! q = Some Dir → st_fs s !! q = Some Dir) →
            strict_at s' (for_each dirs (λ d, os_walk n topdown (top ++ [d]) body)))
    as Hsub.
  { intros s' Hs'.
    apply (strict_for_each_inv
             (λ s2, ∀ q, st_fs s2 !! q = Some Dir → st_fs s !! q = Some Dir));
      [| |done].
    - intros d s2 Hd' HI. apply elem_of_subdirs in Hd'.
      assert (top `prefix_of` top ++ [d]) as Hpre by (by eexists).
      pose proof (Hfit (top ++ [d]) Hpre Hd') as Hlen.
      rewrite length_app in Hlen. simpl in Hlen.
      apply IH; [by etrans|lia|].
      intros q Hq Hq'. apply HI in Hq'.
      assert (top `prefix_of` q) as Htq by (by etrans).
      specialize (Hfit q Htq Hq'). rewrite length_app. simpl. lia.
    - intros d s2 a s3 Hd' HI Hrun q Hq. apply HI.
      assert (top0 `prefix_of` top ++ [d]) as Hpre.
      { etrans; [exact Htop|]. by eexists. }
      pose proof (walk_no_new_dir n (top ++ [d]) Hpre s2 q) as H.
      rewrite Hrun in H. by apply H. }
  destruct topdown.
  - apply strict_at_bind; [apply body_strict|]. intros ? s2 Hb. apply Hsub.
    intros q Hq.
    pose proof (emits_no_new_dir F _ F_no_makedirs (body_emits top dirs files Htop)
                  (tick (SysScandir top) s) q) as H.
    rewrite Hb in H. by apply H.
  - apply strict_at_bind; [by apply Hsub|]. intros ? s2 _. apply body_strict.
Qed.

Lemma strict_os_walk_depth s :
  strict_at s (os_walk (S (depth (st_fs s))) topdown top0 body).
Proof.
  apply strict_os_walk; [done|lia|]. intros q _ Hq.
  assert (length q ≤ depth (st_fs s)) by (apply depth_bound; eauto). lia.
Qed.

End StrictWalk.

Lemma strict_scan_body root dirs files : strict (scan_body root dirs files).
Proof.
  unfold scan_body. apply strict_for_each. intros name. by apply strict_local.
Qed.

Lemma emits_scan_body root dirs files : emits scan_calls (scan_body root dirs files).
Proof.
  unfold scan_body. apply emits_for_each. intros name _. by apply emits_local.
Qed.

(** A run stops at the first call that fails, with its exception. *)
Lemma strict_sync_folders src rep logf iv : strict (sync_folders src rep logf iv).
Proof.
  intros s. unfold sync_folders.
  apply strict_at_bind; [by apply strict_local|]. intros ? s0 _.
  apply strict_at_bind; [by apply strict_local|]. intros n1 s0' E.
  injection E as <- <-.
  apply strict_at_bind.
  { apply (strict_os_walk_depth scan_calls scan_body true src); try done.
    - by intros [].
    - intros root dirs files _. apply emits_scan_body.
    - apply strict_scan_body. }
  intros ? sa _.
  apply strict_at_bind; [by apply strict_local|]. intros n2 sa' E.
  injection E as <- <-.
  apply strict_at_bind.
  { apply (strict_os_walk_depth (delete_calls rep logf)
             (delete_body src rep logf) false rep); try done.
    - by intros [].
    - intros root dirs files Hroot. by apply emits_delete_body.
    - intros root dirs files. apply strict_delete_body. }
  intros ? sb _.
  apply strict_at_bind; [by apply strict_local|]. intros files sb' _.
  apply strict_at_bind.
  { apply strict_for_each. intros x. apply strict_copy_file. }
  intros ? sc _. apply strict_at_bind; [apply strict_report|].
  intros ? sd _. by apply strict_local.
Qed.

(** ** What an exception leaves of the state *)

Lemma keeps_on_raise_bind {A B X} (f : state → X) (m : M A) (k : A → M B) :
  keeps f m → (∀ a, keeps_on_raise f (k a)) → keeps_on_raise f (bind m k).
Proof.
  intros Hm Hk s e s'. unfold bind. specialize (Hm s).
  destruct (m s) as [a s1|e1 s1]; simpl in Hm.
  - intros E. rewrite <- Hm. by eapply Hk.
  - by intros [= _ <-].
Qed.

Lemma keeps_on_raise_queue src rep logf iv :
  keeps_on_raise st_queue (sync_folders src rep logf iv).
Proof.
  unfold sync_folders.
  apply keeps_on_raise_bind; [by apply keeps_local|]. intros ?.
  apply keeps_on_raise_bind; [by apply keeps_local|]. intros n1.
  apply keeps_on_raise_bind; [by apply keeps_scan|]. intros ?.
  apply keeps_on_raise_bind; [by apply keeps_local|]. intros n2.
  apply keeps_on_raise_bind; [by apply keeps_delete|]. intros ?.
  apply keeps_on_raise_bind; [by apply keeps_local|]. intros files.
  apply keeps_on_raise_bind.
  { apply keeps_for_each. intros x. by apply keeps_copy_file. }
  intros ?. apply keeps_on_raise_bind; [by apply keeps_report|].
  intros ? s e s'. done.
Qed.


(** An exception of a run is the exception of its last call, or that of
    a message that is not encoded, after calls that all succeeded. *)
Lemma run_raise_call src rep logf iv s e s' :
  sync_folders src rep logf iv s = Raise e s' →
  (∃ tr1 sc, st_trace s' = st_trace s ++ tr1 ++ [sc]
             ∧ no_fail tr1 (st_fs s)
             ∧ sys_error sc (replay tr1 (st_fs s)) = Some e)
  ∨ (e = UnicodeEncodeError
     ∧ ∃ tr, st_trace s' = st_trace s ++ tr ∧ no_fail tr (st_fs s)).
Proof.
  intros Hrun.
  destruct (strict_sync_folders src rep logf iv s) as (tr & Htr & _ & H).
  rewrite Hrun in Htr, H. simpl in *.
  destruct H as [(t & sc & -> & Hnf & He)|[-> Hnf]].
  - left. by exists t, sc.
  - right. split; [done|]. by exists tr.
Qed.
(** ** The next run *)

Lemma run_queue src rep logf iv s s' :
  sync_folders src rep logf iv s = Ok tt s' →
  st_queue s' = heappush (Event (st_clock s' + iv) 1 (src, rep, logf, iv)) (st_queue s).
Proof.
  intros Hrun.
  apply sync_folders_Ok in Hrun as (sa & sb & sc & sd & Ha & Hb & Hc & Hd & ->).
  pose proof (keeps_report st_queue ltac:(done) ltac:(done) ltac:(done) logf sc)
    as Hq4.
  rewrite Hd in Hq4.
  pose proof (keeps_for_each st_queue (source_files sb) (copy_file src rep logf)
                (keeps_copy_file st_queue ltac:(done) ltac:(done) ltac:(done)
                   ltac:(done) src rep logf) sb) as Hq3.
  rewrite Hc in Hq3.
  pose proof (keeps_delete st_queue ltac:(done) ltac:(done) ltac:(done)
                ltac:(done) src rep logf (S (depth (st_fs sa))) rep sa) as Hq2.
  rewrite Hb in Hq2.
  pose proof (keeps_scan st_queue ltac:(done) (S (depth (st_fs s))) src
                ltac:(done) (set_source_files [] (set_counters 0 0 0 s))) as Hq1.
  rewrite Ha in Hq1. simpl in *. congruence.
Qed.

(** ** Testing the layout and the file system *)

Lemma apartb_apart p q : apartb p q = true → apart p q.
Proof.
  unfold apartb. intros [H1 H2]%andb_prop.
  apply negb_true_iff, bool_decide_eq_false in H1, H2. by split.
Qed.

Lemma layoutb_layout src rep logf : layoutb src rep logf = true → layout src rep logf.
Proof.
  unfold layoutb. intros [[H1 H2]%andb_prop H3]%andb_prop.
  split; [by apply apartb_apart|]. split; by apply apartb_apart.
Qed.

Lemma wfb_wf fs : wfb fs = true → wf fs.
Proof.
  unfold wfb. intros [Hroot Hall]%andb_prop. split; [by apply is_dir_true|].
  intros p n [e He]. rewrite forallb_forall in Hall.
  specialize (Hall (p ++ [n], e)). simpl in Hall. rewrite dirname_snoc in Hall.
  apply is_dir_true. destruct (p ++ [n]) as [|x l] eqn:E.
  - by destruct p.
  - apply Hall. apply list_elem_of_In. by apply elem_of_map_to_list.
Qed.
(** * The properties of a run *)

(** C1 (mirror, by digest). With the source folder, the replica folder
    and the log file apart, after a run that completes every regular file
    under the source folder has a regular file at the same relative path
    under the replica folder with the same MD5 digest: it is the source
    file byte for byte, or the file the replica held before the run. And
    every path under the replica folder has an entry at the same relative
    path under the source folder. *)
Theorem sync_mirrors_by_digest src rep logf iv s s' :
  layout src rep logf → wf (st_fs s) →
  sync_folders src rep logf iv s = Ok tt s' →
  (∀ rel c, rel ≠ [] → st_fs s' !! (src ++ rel) = Some (File c) →
     ∃ c', st_fs s' !! (rep ++ rel) = Some (File c')
           ∧ MD5.hexdigest c' = MD5.hexdigest c
           ∧ (c' = c ∨ st_fs s !! (rep ++ rel) = Some (File c')))
  ∧ (∀ rel, rel ≠ [] → is_Some (st_fs s' !! (rep ++ rel)) →
       is_Some (st_fs s' !! (src ++ rel))).
Proof. apply run_mirror. Qed.

(** C2 (idempotence). With the source folder, the replica folder and the
    log file apart, a run that follows a run that completed, with no
    change of the file system in between, completes as well; it copies
    nothing and removes nothing (none of its calls removes, creates a
    folder or copies), it counts every regular file of the source as
    identical, and it leaves every entry but the log file as it was. *)
Theorem sync_idempotent src rep logf iv s s1 :
  layout src rep logf → wf (st_fs s) →
  sync_folders src rep logf iv s = Ok tt s1 →
  ∃ s2, sync_folders src rep logf iv s1 = Ok tt s2
        ∧ (∀ q, q ≠ logf → st_fs s2 !! q = st_fs s1 !! q)
        ∧ file_copied_counter s2 = 0
        ∧ file_removed_counter s2 = 0
        ∧ file_identical_counter s2 = size (regular_files src (st_fs s1))
        ∧ ∃ tr, st_trace s2 = st_trace s1 ++ tr ∧ Forall quiet tr.
Proof.
  intros Hlay Hwf Hrun. apply run_synced; [done|].
  by eapply run_establishes_synced.
Qed.

(** C3 (counters). With the source folder, the replica folder and the
    log file apart, after a run that completes, the files copied and the
    files found identical are together the regular files under the source
    folder; the files removed are the regular files under the replica
    folder whose path had no entry in the source before the run; the
    count of removed files is the number of calls of [os.remove], so that
    [os.rmdir] is not counted, and the count of copied files is the number
    of calls of [shutil.copy2]. *)
Theorem sync_counters src rep logf iv s s' :
  layout src rep logf → wf (st_fs s) →
  sync_folders src rep logf iv s = Ok tt s' →
  file_copied_counter s' + file_identical_counter s'
  = size (regular_files src (st_fs s))
  ∧ file_removed_counter s' = size (stale_files src rep (st_fs s))
  ∧ ∃ tr, st_trace s' = st_trace s ++ tr
          ∧ file_removed_counter s' = length (removed_files tr)
          ∧ file_copied_counter s' = length (copies tr).
Proof.
  intros Hlay Hwf Hrun.
  destruct (run_Ok_spec src rep logf iv Hlay s s' Hwf Hrun)
    as (found & sa & sb & sc & Hnd & Hfound & Hfsa & Hsfa & Hca & Hra & Hia & Hdp & Hcl
        & _ & _ & _ & Hc' & Hr' & Hi' & _ & tra & trb & trc & trd
        & Htr & HFa & Htrb & HFb & Htrc & HFd).
  destruct (dp_locals _ _ _ _ _ _ Hdp) as (_ & Hcb & Hib).
  destruct (dp_trace _ _ _ _ _ _ Hdp) as (trb' & Htrb' & Hndb & Hrf & _ & Hrc).
  rewrite Htrb in Htrb'. apply app_inv_head in Htrb' as <-.
  destruct (cl_trace _ _ _ _ _ _ Hcl) as (trc' & Htrc' & HFc & Hcc).
  rewrite Htrc in Htrc'. apply app_inv_head in Htrc' as <-.
  pose proof (cl_count _ _ _ _ _ _ Hcl) as Hcnt.
  pose proof (cl_removed _ _ _ _ _ _ Hcl) as Hrm.
  destruct (scan_calls_none _ HFa) as [Ha1 Ha2].
  destruct (report_calls_none _ _ HFd) as [Hd1 Hd2].
  pose proof (delete_calls_no_copy _ _ _ HFb) as Hb2.
  pose proof (copy_calls_no_remove _ _ _ _ _ HFc) as Hc1.
  split; [|split].
  - rewrite Hc', Hi', Hcnt, Hcb, Hib, Hca, Hia. simpl.
    apply length_keys; [done|]. intros p. rewrite regular_files_lookup. apply Hfound.
  - rewrite Hr', Hrm, Hrc, Hra. simpl.
    apply length_keys; [done|]. intros p. rewrite stale_files_lookup, Hrf, Hfsa. done.
  - exists (tra ++ trb ++ trc ++ trd). split; [done|].
    rewrite !removed_files_app, !copies_app, Ha1, Ha2, Hd1, Hd2, Hb2, Hc1.
    rewrite !app_nil_r. simpl. split; lia.
Qed.

(** C4 (copy or skip), for an iteration of the copy loop that returns. For
    a regular file of the source with content [c] at [rel], the iteration
    skips exactly when the replica holds at [rel] a regular file with the
    digest of [c]: then no entry but the log file changes and the file is
    counted as identical; otherwise the replica receives [c] at [rel], the
    folders on the way to it are created, and the file is counted as
    copied. When the replica file has the digest of [c], the log file is
    a regular file and the path of the source file is encoded, the
    iteration does return. *)
Theorem copy_skip_decision src rep logf rel c s :
  layout src rep logf → wf (st_fs s) → rel ≠ [] →
  st_fs s !! (src ++ rel) = Some (File c) →
  (∀ s', copy_file src rep logf (src ++ rel) s = Ok tt s' →
         copy_post src rep logf rel c s s')
  ∧ (in_sync rep (st_fs s) rel c → is_file (st_fs s) logf = true →
     encodes (show_path (src ++ rel)) = true →
     ∃ s', copy_file src rep logf (src ++ rel) s = Ok tt s').
Proof.
  intros Hlay Hwf Hrel Hc.
  pose proof (copy_file_spec src rep logf Hlay rel c s Hwf Hrel Hc) as H.
  split.
  - intros s' E. by rewrite E in H.
  - intros Hsync Hlog Henc.
    destruct (copy_file src rep logf (src ++ rel) s) as [[] s'|e s']; [eauto|].
    destruct H as [H|[H|H]]; [congruence|done|congruence].
Qed.

(** C5 (post-order, empty folders only). The deletion pass calls only
    [os.remove] and [os.rmdir] to delete, beneath the replica folder; it
    tests or removes no entry after an entry that lies above it, so that
    the entries of a folder are dealt with before the folder; and a
    folder that is there before a call and gone after it was removed by
    [os.rmdir] of this folder, which was empty at that moment. *)
Theorem delete_pass_post_order src rep logf s :
  ∃ tr,
    st_trace (final (os_walk (S (depth (st_fs s))) false rep
                       (delete_body src rep logf) s)) = st_trace s ++ tr
    ∧ st_fs (final (os_walk (S (depth (st_fs s))) false rep
                      (delete_body src rep logf) s)) = replay tr (st_fs s)
    ∧ Forall (delete_calls rep logf) tr
    ∧ children_first (touched src rep tr)
    ∧ ∀ tr1 sc tr2 q, tr = tr1 ++ sc :: tr2 →
        replay tr1 (st_fs s) !! q = Some Dir →
        replay (tr1 ++ [sc]) (st_fs s) !! q ≠ Some Dir →
        sc = SysRmdir q ∧ listdir (replay tr1 (st_fs s)) q = [].
Proof.
  destruct (emits_delete_walk src rep logf (S (depth (st_fs s))) rep (reflexivity _) s)
    as (tr & Htr & HF & Hfs & _).
  destruct (walk_children_first src rep logf (S (depth (st_fs s))) rep s (reflexivity _))
    as (tr' & Htr' & Hcf & _).
  rewrite Htr in Htr'. apply app_inv_head in Htr' as <-.
  exists tr. do 4 (split; [done|]).
  intros tr1 sc tr2 q _ Hq Hq'. rewrite replay_app in Hq'. simpl in Hq'.
  by apply sys_effect_dir_gone.
Qed.

(** C6 (a failing call ends the run). When a call of a run fails, the run
    ends there with the exception of this call: no call follows it, so
    that the failure is not logged and the remaining files are neither
    removed nor copied, and the next run is not scheduled. *)
Theorem sync_error_aborts src rep logf iv s tr1 sc tr2 e :
  st_trace (final (sync_folders src rep logf iv s)) = st_trace s ++ tr1 ++ sc :: tr2 →
  sys_error sc (replay tr1 (st_fs s)) = Some e →
  ∃ s', sync_folders src rep logf iv s = Raise e s'
        ∧ tr2 = []
        ∧ st_fs s' = replay (tr1 ++ [sc]) (st_fs s)
        ∧ st_queue s' = st_queue s.
Proof.
  intros Htr He.
  destruct (strict_sync_folders src rep logf iv s) as (tr & Htr' & Hfs & H).
  rewrite Htr in Htr'. apply app_inv_head in Htr' as <-.
  pose proof (keeps_on_raise_queue src rep logf iv s) as Hq.
  destruct (sync_folders src rep logf iv s) as [a s'|e' s']; simpl in *.
  - apply no_fail_app in H as [_ [H _]]. congruence.
  - destruct H as [(t & sc' & Ht & Hnf & He')|[_ Hnf]]; cycle 1.
    { apply no_fail_app in Hnf as [_ [Hnf _]]. congruence. }
    destruct (decide (tr2 = [])) as [->|Hne].
    + apply app_inj_tail in Ht as [<- <-].
      exists s'. rewrite He in He'. injection He' as <-.
      split; [done|]. split; [done|]. split; [done|]. by eapply Hq.
    + destruct (exists_last Hne) as (tr2' & x & ->).
      change (tr1 ++ sc :: tr2' ++ [x]) with (tr1 ++ (sc :: tr2') ++ [x]) in Ht.
      rewrite app_assoc in Ht. apply app_inj_tail in Ht as [<- _].
      apply no_fail_app in Hnf as [_ [Hnf _]]. congruence.
Qed.

(** C7 (the next run). A run that completes, started with an empty queue
    and a positive interval, leaves one event in the queue, due the
    interval after the time at which the run ended; the scheduler sleeps
    until then and calls [sync_folders] with the same arguments, so that
    the next run starts the duration of the run plus the interval after
    the start of this one. The sleep is taken to last exactly as long as
    asked. *)
Theorem next_run_after_completion src rep logf iv s s1 :
  (0 < iv)%Z → st_queue s = [] →
  sync_folders src rep logf iv s = Ok tt s1 →
  ∃ tr s2,
    st_trace s1 = st_trace s ++ tr
    ∧ st_clock s1 = (st_clock s + foldr Z.add 0 (latency <$> tr))%Z
    ∧ st_queue s1 = [Event (st_clock s1 + iv) 1 (src, rep, logf, iv)]
    ∧ sched_round s1 = Ok true (set_clock (st_clock s1 + iv) s1)
    ∧ sched_round (set_clock (st_clock s1 + iv) s1)
      = (sync_folders src rep logf iv ;; time_sleep 0 ;; ret true) s2
    ∧ st_clock s2 = (st_clock s + foldr Z.add 0 (latency <$> tr) + iv)%Z
    ∧ st_queue s2 = []
    ∧ st_fs s2 = st_fs s1.
Proof.
  intros Hiv Hq Hrun.
  destruct (emits_sync_folders src rep logf iv s) as (tr & Htr & _ & _ & Hclock).
  rewrite Hrun in Htr, Hclock. simpl in Htr, Hclock.
  pose proof (run_queue _ _ _ _ _ _ Hrun) as Hq1. rewrite Hq in Hq1. simpl in Hq1.
  exists tr, (set_queue [] (set_clock (st_clock s1 + iv) s1)).
  split; [done|]. split; [done|]. split; [done|]. split; [|split].
  - unfold sched_round. rewrite Hq1. cbn [ev_time].
    destruct (Z.ltb_spec (st_clock s1) (st_clock s1 + iv)) as [_|?]; [|lia].
    unfold bind, time_sleep, ret. do 2 f_equal. lia.
  - unfold sched_round. cbn [st_queue set_clock st_clock]. rewrite Hq1.
    cbn [ev_time ev_args]. by rewrite Z.ltb_irrefl.
  - simpl. rewrite Hclock. done.
Qed.

(** C8 (the source is left alone). With the replica folder apart from the
    source folder and the log file not under it, no call of a run,
    whatever its outcome, creates, changes or deletes an entry at or under
    the source folder, and these entries are after the run what they were
    before. *)
Theorem source_untouched src rep logf iv s :
  apart src rep → ¬ src `prefix_of` logf →
  ∃ tr,
    st_trace (final (sync_folders src rep logf iv s)) = st_trace s ++ tr
    ∧ (∀ sc p, sc ∈ tr → src `prefix_of` p → ¬ writes sc p)
    ∧ (∀ p, src `prefix_of` p →
         st_fs (final (sync_folders src rep logf iv s)) !! p = st_fs s !! p).
Proof.
  intros Hsr Hsl.
  destruct (emits_sync_folders src rep logf iv s) as (tr & Htr & HF & _ & _).
  exists tr. split; [done|]. split.
  - intros sc p Hsc Hp. rewrite Forall_forall in HF.
    apply (footprint_not_source src rep logf); [done|done|by apply HF|done].
  - intros p Hp. by apply run_source_frame.
Qed.

(** C9 (what the deletion pass removes). After a deletion pass that
    completes, an entry that was beneath the replica folder is gone
    exactly when the source had no entry of any kind at its relative path;
    an entry whose source path had an entry, of whatever kind, is what it
    was. *)
Theorem delete_iff_no_source_entry src rep logf s s' :
  layout src rep logf → wf (st_fs s) →
  os_walk (S (depth (st_fs s))) false rep (delete_body src rep logf) s = Ok tt s' →
  ∀ q, beneath rep q → is_Some (st_fs s !! q) →
    (st_fs s' !! q = None ↔ st_fs s !! (src ++ relpath q rep) = None)
    ∧ (is_Some (st_fs s !! (src ++ relpath q rep)) → st_fs s' !! q = st_fs s !! q).
Proof.
  intros Hlay Hwf Hrun q Hq Hsome.
  pose proof (delete_walk_spec src rep logf Hlay False (S (depth (st_fs s))) rep s) as H.
  rewrite Hrun in H.
  assert (del_post src rep logf (beneath rep) s s') as Hdp.
  { apply H; [done|done|lia| |by intros []].
    intros p Hp Hs. apply depth_bound in Hs. lia. }
  rewrite (dp_in _ _ _ _ _ _ Hdp q Hq). unfold pruned, path_exists.
  destruct (st_fs s !! (src ++ relpath q rep)) as [e|].
  - split; [|done]. split; [|done]. intros E. rewrite E in Hsome. by destruct Hsome.
  - split; [done|]. by intros [? ?].
Qed.

(** C10 (folders are created for copies only). A folder that a run makes
    appear, whatever the outcome of the run, lies on the way to the
    replica path of a regular file of the source; so no folder appears at
    the replica path of a source folder that holds no regular file. *)
Theorem folders_created_for_copies_only src rep logf iv s :
  wf (st_fs s) →
  (∀ q, st_fs s !! q ≠ Some Dir →
        st_fs (final (sync_folders src rep logf iv s)) !! q = Some Dir →
        ∃ rel, rel ≠ [] ∧ is_file (st_fs s) (src ++ rel) = true
               ∧ q `prefix_of` dirname (rep ++ rel))
  ∧ (∀ rel, (∀ r, is_file (st_fs s) (src ++ rel ++ r) = false) →
            st_fs s !! (rep ++ rel) ≠ Some Dir →
            st_fs (final (sync_folders src rep logf iv s)) !! (rep ++ rel) ≠ Some Dir).
Proof.
  intros Hwf.
  assert (∀ q, st_fs s !! q ≠ Some Dir →
        st_fs (final (sync_folders src rep logf iv s)) !! q = Some Dir →
        ∃ rel, rel ≠ [] ∧ is_file (st_fs s) (src ++ rel) = true
               ∧ q `prefix_of` dirname (rep ++ rel)) as H.
  { intros q Hq Hq'.
    destruct (run_calls_spec src rep logf iv s Hwf) as (tr & _ & HF & Hfs & _).
    rewrite Hfs in Hq'. apply replay_new_dir in Hq' as [?|(p & Hin & Hp)]; [done|].
    rewrite Forall_forall in HF. apply HF in Hin as (rel & Hrel & Hf & ->).
    by exists rel. }
  split; [exact H|].
  intros rel Hnone Hq Hq'. destruct (H _ Hq Hq') as (rel' & Hrel' & Hf & Hp).
  destruct (exists_last Hrel') as (r & x & ->).
  rewrite app_assoc, dirname_snoc in Hp. apply prefix_app_inv in Hp as [k ->].
  specialize (Hnone (k ++ [x])). rewrite <- !app_assoc in Hf. congruence.
Qed.
(** * Further properties of the program *)

(** ** get_md5 *)

(** X1 (get_md5). [get_md5] makes one call, which opens the file for
    reading, and leaves the file system as it is. For a regular file it
    returns the MD5 digest of the whole content, whatever the number of
    chunks of 8192 bytes it is read in; for a folder it raises
    [IsADirectoryError]; for a path without entry it raises the error of
    a missing path. *)
Theorem get_md5_whole_file p s :
  st_fs (final (get_md5 p s)) = st_fs s
  ∧ st_trace (final (get_md5 p s)) = st_trace s ++ [SysOpenRead p]
  ∧ match st_fs s !! p with
    | Some (File c) => ∃ s', get_md5 p s = Ok (MD5.hexdigest c) s'
    | Some Dir => ∃ s', get_md5 p s = Raise IsADirectoryError s'
    | None => ∃ s', get_md5 p s = Raise (missing (st_fs s) p) s'
    end.
Proof.
  rewrite get_md5_eq. destruct (st_fs s !! p) as [[c|]|]; simpl; eauto.
Qed.

(** ** The scan of the source folder *)


(** ** The log file *)

Lemma appended_cons logf sc tr :
  appended logf (sc :: tr)
  = match sc with
    | SysAppend p d => if decide (p = logf) then d +:+ appended logf tr
                       else appended logf tr
    | _ => appended logf tr
    end.
Proof. done. Qed.

Lemma sys_effect_appended src rep logf sc fs c :
  ¬ rep `prefix_of` logf → footprint src rep logf sc →
  fs !! logf = Some (File c) →
  sys_effect sc fs !! logf = Some (File (c +:+ appended logf [sc])).
Proof.
  intros Hrl HF Hc.
  assert (∀ r, logf ≠ rep ++ r) as Hne.
  { intros r E. apply Hrl. rewrite E. by eexists. }
  destruct sc as [q|q|q|q|q|q|a b|q d|l]; simpl in HF;
    rewrite appended_cons; cbn [appended foldr];
    try (simpl; by rewrite str_app_nil_r).
  - destruct HF as (n & r & ->).
    rewrite (sys_effect_frame (SysRemove _)), str_app_nil_r; [done|]. simpl. apply Hne.
  - destruct HF as (n & r & ->).
    rewrite (sys_effect_frame (SysRmdir _)), str_app_nil_r; [done|]. simpl. apply Hne.
  - rewrite str_app_nil_r. simpl.
    eapply grown_Some; [apply grown_makedirs|done].
  - subst b. rewrite (sys_effect_frame (SysCopy2 _ _)), str_app_nil_r; [done|]. simpl.
    intros [E|E]; [by apply Hne in E|]. rewrite <- app_assoc in E. by apply Hne in E.
  - subst q. rewrite decide_True by done. simpl. unfold fs_append. rewrite Hc. simpl.
    by rewrite lookup_insert_eq, str_app_nil_r.
Qed.

Lemma replay_appended src rep logf tr fs c :
  ¬ rep `prefix_of` logf → Forall (footprint src rep logf) tr →
  fs !! logf = Some (File c) →
  replay tr fs !! logf = Some (File (c +:+ appended logf tr)).
Proof.
  intros Hrl HF. revert fs c.
  induction HF as [|sc tr Hsc _ IH]; intros fs c Hc.
  { simpl. by rewrite str_app_nil_r. }
  pose proof (sys_effect_appended src rep logf sc fs c Hrl Hsc Hc) as H1.
  change (replay (sc :: tr) fs) with (replay tr (sys_effect sc fs)).
  rewrite (IH _ _ H1). do 2 f_equal.
  rewrite str_app_assoc. f_equal.
  rewrite (appended_cons logf sc tr), (appended_cons logf sc []).
  destruct sc as [q|q|q|q|q|q|a b|q d|l]; try done.
  case_decide; [|done]. cbn [appended foldr]. by rewrite str_app_nil_r.
Qed.

(** X3 (the log is appended to). With the log file not at or under the
    replica folder, a run, whatever its outcome, leaves in a log file
    that was a regular file its former content followed by the texts of
    the calls that append to it, in their order: nothing that was logged
    is removed or rewritten. *)
Theorem log_append_only src rep logf iv s c :
  ¬ rep `prefix_of` logf →
  st_fs s !! logf = Some (File c) →
  ∃ tr, st_trace (final (sync_folders src rep logf iv s)) = st_trace s ++ tr
        ∧ st_fs (final (sync_folders src rep logf iv s)) !! logf
          = Some (File (c +:+ appended logf tr)).
Proof.
  intros Hrl Hc.
  destruct (emits_sync_folders src rep logf iv s) as (tr & Htr & HF & Hfs & _).
  exists tr. split; [done|]. rewrite Hfs. by eapply replay_appended.
Qed.

(** The summary of a run is the last text written to the log file. *)
Lemma report_log logf s s' :
  report logf s = Ok tt s' →
  (∃ c0, st_fs s' !! logf = Some (File (c0 +:+ String.concat "" (summary_lines s))))
  ∧ file_copied_counter s' = file_copied_counter s
  ∧ file_removed_counter s' = file_removed_counter s
  ∧ file_identical_counter s' = file_identical_counter s
  ∧ st_stdout s' = st_stdout s ++ summary_lines s.
Proof.
  unfold report, summary_lines. cbn [for_each].
  unfold bind, print, ret, log_summary, fs_call. cbv beta iota.
  cbn [st_fs tick set_clock set_trace set_stdout st_stdout].
  match goal with |- context [fs_append logf ?d (st_fs s)] => set (data := d) end.
  unfold fs_append, fs_create.
  destruct (st_fs s !! logf) as [[c|]|] eqn:Hl; cbn; try done.
  - intros [= <-]. simpl. rewrite lookup_insert_eq, <- !app_assoc.
    split; [by eexists|done].
  - destruct (st_fs s !! dirname logf) as [[?|]|]; cbn; try done.
    intros [= <-]. simpl. rewrite lookup_insert_eq, <- !app_assoc.
    split; [by exists ""|done].
Qed.

(** X4 (summary). After a run that completes, the log file is a regular
    file that ends with the three lines of the summary, which give the
    counters of this run, and the same three lines are the last that were
    printed. *)
Theorem summary_ends_log src rep logf iv s s' :
  sync_folders src rep logf iv s = Ok tt s' →
  (∃ c0, st_fs s' !! logf
         = Some (File (c0
                       +:+ "Files copied - " +:+ pretty (file_copied_counter s') +:+ nl
                       +:+ "Files removed - " +:+ pretty (file_removed_counter s') +:+ nl
                       +:+ "Files unaltered - " +:+ pretty (file_identical_counter s')
                       +:+ nl)))
  ∧ ∃ out, st_stdout s'
           = out ++ [ "Files copied - " +:+ pretty (file_copied_counter s') +:+ nl;
                      "Files removed - " +:+ pretty (file_removed_counter s') +:+ nl;
                      "Files unaltered - " +:+ pretty (file_identical_counter s')
                      +:+ nl ].
Proof.
  intros Hrun.
  apply sync_folders_Ok in Hrun as (sa & sb & sc & sd & _ & _ & _ & Hd & ->).
  apply report_log in Hd as ([c0 Hc0] & H1 & H2 & H3 & Hout).
  cbn [st_fs set_queue st_stdout file_copied_counter file_removed_counter
       file_identical_counter].
  split.
  - exists c0. rewrite Hc0. unfold summary_lines. cbn [String.concat].
    rewrite H1, H2, H3. do 2 f_equal. rewrite !str_app_assoc. reflexivity.
  - exists (st_stdout sc). rewrite Hout. unfold summary_lines.
    by rewrite H1, H2, H3.
Qed.
(** ** What a run leaves alone *)

Lemma dirname_prefix (p : path) : dirname p `prefix_of` p.
Proof.
  unfold dirname. destruct p as [|x l] using rev_ind; [done|].
  rewrite removelast_last. by eexists.
Qed.

Lemma sys_effect_outside src rep logf sc fs (q : path) :
  footprint src rep logf sc → ¬ rep `prefix_of` q → q ≠ logf →
  sys_effect sc fs !! q = fs !! q
  ∨ (fs !! q = None ∧ sys_effect sc fs !! q = Some Dir ∧ q `prefix_of` rep).
Proof.
  intros HF Hq Hl.
  assert (∀ r, q ≠ rep ++ r) as Hne.
  { intros r E. apply Hq. rewrite E. by eexists. }
  destruct sc as [p|p|p|p|p|p|a b|p d|l]; simpl in HF; try (by left).
  - left. apply sys_effect_frame. simpl. destruct HF as (n & r & ->). apply Hne.
  - left. apply sys_effect_frame. simpl. destruct HF as (n & r & ->). apply Hne.
  - destruct HF as [a ->]. simpl.
    destruct (grown_makedirs (dirname (rep ++ relpath a src)) fs q)
      as [E|(H1 & H2 & H3)]; [by left|right].
    split; [done|]. split; [done|].
    assert (q `prefix_of` rep ++ relpath a src) as H4.
    { etrans; [exact H3|apply dirname_prefix]. }
    assert (rep `prefix_of` rep ++ relpath a src) as H5 by (by eexists).
    by destruct (prefix_weak_total _ _ _ H4 H5).
  - left. apply sys_effect_frame. simpl. subst b.
    intros [E|E]; [by apply Hne in E|]. rewrite <- app_assoc in E. by apply Hne in E.
  - left. apply sys_effect_frame. simpl. by subst p.
Qed.

Lemma replay_outside src rep logf tr fs (q : path) :
  Forall (footprint src rep logf) tr → ¬ rep `prefix_of` q → q ≠ logf →
  replay tr fs !! q = fs !! q
  ∨ (fs !! q = None ∧ replay tr fs !! q = Some Dir ∧ q `prefix_of` rep).
Proof.
  intros HF Hq Hl. revert fs.
  induction HF as [|sc tr Hsc _ IH]; intros fs; [by left|].
  change (replay (sc :: tr) fs) with (replay tr (sys_effect sc fs)).
  destruct (sys_effect_outside src rep logf sc fs q Hsc Hq Hl) as [E|(E1 & E2 & E3)];
    destruct (IH (sys_effect sc fs)) as [E'|(E1' & E2' & E3')].
  - left. congruence.
  - right. rewrite <- E. done.
  - right. rewrite E'. done.
  - congruence.
Qed.

(** X5 (the rest of the file system). A run, whatever its outcome,
    changes no entry that is neither the log file nor at or under the
    replica folder, but for the folders above the replica folder, which
    it creates when they are missing. *)
Theorem run_leaves_the_rest src rep logf iv s (q : path) :
  ¬ rep `prefix_of` q → q ≠ logf →
  st_fs (final (sync_folders src rep logf iv s)) !! q = st_fs s !! q
  ∨ (st_fs s !! q = None
     ∧ st_fs (final (sync_folders src rep logf iv s)) !! q = Some Dir
     ∧ q `prefix_of` rep).
Proof.
  intros Hq Hl.
  destruct (emits_sync_folders src rep logf iv s) as (tr & _ & HF & -> & _).
  by eapply replay_outside.
Qed.
(** ** When a run completes *)

(** [os.makedirs] succeeds where no regular file stands on the way. *)
Lemma makedirs_rev_ok rp fs :
  wf fs → fs !! reverse rp = None →
  (∀ q c, q `prefix_of` reverse rp → fs !! q ≠ Some (File c)) →
  ∃ fs', fs_makedirs_rev rp fs = (None, fs') ∧ fs' !! reverse rp = Some Dir.
Proof.
  revert fs. induction rp as [|x rhead IH]; intros fs Hwf Hnone Hpre.
  { pose proof (wf_root _ Hwf) as Hr. rewrite reverse_nil in Hnone. congruence. }
  assert (∀ fs1, fs1 !! reverse rhead = Some Dir → fs1 !! reverse (x :: rhead) = None →
            ∃ fs', fs_mkdir (reverse (x :: rhead)) fs1 = (None, fs')
                   ∧ fs' !! reverse (x :: rhead) = Some Dir) as Hmk.
  { intros fs1 Hd Hn. unfold fs_mkdir, fs_create. rewrite Hn.
    rewrite reverse_cons, dirname_snoc, Hd. eexists. split; [done|].
    by rewrite lookup_insert_eq. }
  cbn [fs_makedirs_rev].
  destruct (path_exists fs (reverse rhead)) eqn:Hex.
  - apply Hmk; [|done]. apply path_exists_true in Hex as [e He].
    destruct e as [c|]; [|done].
    destruct (Hpre (reverse rhead) c); [|done]. rewrite reverse_cons. by eexists.
  - apply path_exists_false in Hex.
    destruct (IH fs Hwf Hex) as (fs1 & E & Hd).
    { intros q c Hq. apply Hpre. etrans; [exact Hq|]. rewrite reverse_cons. by eexists. }
    pose proof (grown_makedirs_rev rhead fs) as Hg. rewrite E in *. simpl in Hg.
    apply Hmk; [done|]. rewrite <- Hnone. eapply grown_other; [exact Hg|].
    intros H%prefix_length. rewrite reverse_cons, length_app in H. simpl in H. lia.
Qed.

Lemma makedirs_ok p fs :
  wf fs → fs !! p = None →
  (∀ q c, q `prefix_of` p → fs !! q ≠ Some (File c)) →
  ∃ fs', fs_makedirs p fs = (None, fs') ∧ fs' !! p = Some Dir.
Proof.
  intros Hwf Hn Hpre. unfold fs_makedirs.
  destruct (makedirs_rev_ok (reverse p) fs) as (fs' & E & Hd);
    rewrite ?reverse_involutive; try done.
  exists fs'. by rewrite reverse_involutive in Hd.
Qed.

Lemma for_each_app {A} (l1 l2 : list A) body s :
  for_each (l1 ++ l2) body s
  = match for_each l1 body s with
    | Ok _ s1 => for_each l2 body s1
    | Raise e s1 => Raise e s1
    end.
Proof.
  revert s. induction l1 as [|x l1 IH]; intros s; simpl; [done|].
  unfold bind. destruct (body x s) as [a s1|e s1]; [apply IH|done].
Qed.

Section Completion.

Variables src rep logf : path.
Hypothesis Hlay : layout src rep logf.

(** The part of an iteration that follows the creation of the folder. *)
Lemma copy_tail_total r n c s1 :
  st_fs s1 !! (src ++ r ++ [n]) = Some (File c) →
  st_fs s1 !! (rep ++ r) = Some Dir →
  st_fs s1 !! (rep ++ r ++ [n]) ≠ Some Dir →
  is_file (st_fs s1) logf = true →
  encodes (show_path (src ++ r ++ [n])) = true →
  ∃ s', copy_file_tail logf (src ++ r ++ [n]) (rep ++ r ++ [n]) s1 = Ok tt s'.
Proof.
  intros Hsf Hrd Hrf Hlog Henc.
  set (sf := src ++ r ++ [n]) in *. set (rf := rep ++ r ++ [n]) in *.
  assert (∀ s2, st_fs s2 = st_fs s1 →
            ∃ s', (shutil_copy2 sf rf ;;
                   print (show_path sf +:+ " copied to replica folder") ;;
                   incr_copied ;;
                   log_event logf (show_path sf +:+ " copied to replica folder")) s2
                  = Ok tt s') as Hcopy.
  { intros s2 Hfs2. rewrite bind_eq. unfold shutil_copy2 at 1, fs_call at 1.
    cbn [st_fs tick set_clock set_trace]. rewrite Hfs2.
    assert (is_dir (st_fs s1) rf = false) as Hid.
    { unfold is_dir. by destruct (st_fs s1 !! rf) as [[?|]|]. }
    unfold fs_copy2, copy2_target. rewrite Hid.
    rewrite bool_decide_eq_false_2 by apply (copy_sf_ne_rf src rep logf Hlay).
    cbn [andb]. rewrite Hsf.
    assert (fs_write rf c (st_fs s1) = (None, <[rf := File c]> (st_fs s1))) as ->.
    { unfold fs_write, fs_create.
      destruct (st_fs s1 !! rf) as [[?|]|]; try done.
      unfold rf at 1. rewrite app_assoc, dirname_snoc, Hrd. done. }
    match goal with |- context [bind (print ?m1) _ ?s3] =>
      pose proof (finish_copied logf m1 m1 s3) as Hfin;
      destruct ((print m1 ;; incr_copied ;; log_event logf m1) s3) as [[] s'|e s']
    end; [eauto|].
    destruct Hfin as [Hfin|Hfin]; [|by rewrite encodes_copied, Henc in Hfin].
    simpl in Hfin. unfold is_file in Hfin, Hlog.
    rewrite lookup_insert_ne in Hfin by apply (copy_rf_ne_log src rep logf Hlay).
    congruence. }
  unfold copy_file_tail. rewrite bind_eq. unfold os_path_exists at 1, path_exists.
  destruct (st_fs s1 !! rf) as [[c2|]|] eqn:Hc2; [|done|].
  - rewrite bind_eq. rewrite bind_eq, get_md5_eq.
    cbn [st_fs tick set_clock set_trace]. rewrite Hsf.
    rewrite bind_eq, get_md5_eq. cbn [st_fs tick set_clock set_trace]. rewrite Hc2.
    unfold ret at 1. case_bool_decide as Hh.
    + match goal with |- context [bind (print ?m1) _ ?s3] =>
        pose proof (finish_identical logf m1 m1 s3) as Hfin;
        destruct ((print m1 ;; incr_identical ;; log_event logf m1) s3) as [[] s'|e s']
      end; [eauto|].
      destruct Hfin as [Hfin|Hfin]; [simpl in Hfin; congruence|].
      by rewrite encodes_identical, Henc in Hfin.
    + by apply Hcopy.
  - rewrite bind_eq. unfold ret at 1. by apply Hcopy.
Qed.

(** An iteration of the copy loop returns when no regular file stands on
    the way to the replica path, no folder stands at it, the log file is
    a regular file and the path of the source file is encoded. *)
Lemma copy_file_total r n c s :
  wf (st_fs s) →
  st_fs s !! (src ++ r ++ [n]) = Some (File c) →
  (∀ q c', q `prefix_of` rep ++ r → st_fs s !! q ≠ Some (File c')) →
  st_fs s !! (rep ++ r ++ [n]) ≠ Some Dir →
  is_file (st_fs s) logf = true →
  encodes (show_path (src ++ r ++ [n])) = true →
  ∃ s', copy_file src rep logf (src ++ r ++ [n]) s = Ok tt s'.
Proof.
  intros Hwf Hsf Hpre Hrf Hlog Henc.
  rewrite copy_file_unfold.
  replace (dirname (rep ++ r ++ [n])) with (rep ++ r)
    by (by rewrite app_assoc, dirname_snoc).
  rewrite bind_eq. unfold os_path_exists at 1.
  destruct (path_exists (st_fs s) (rep ++ r)) eqn:Hrd.
  - rewrite bind_eq. unfold ret at 1.
    apply (copy_tail_total r n c); try done.
    apply path_exists_true in Hrd as [[c'|] He]; [|done].
    by destruct (Hpre (rep ++ r) c').
  - apply path_exists_false in Hrd.
    rewrite bind_eq. unfold os_makedirs at 1, fs_call at 1.
    cbn [st_fs tick set_clock set_trace].
    destruct (makedirs_ok (rep ++ r) (st_fs s) Hwf Hrd Hpre) as (fs1 & E & Hd).
    pose proof (grown_makedirs (rep ++ r) (st_fs s)) as Hg.
    rewrite E in *. simpl in Hg.
    apply (copy_tail_total r n c); simpl.
    + by eapply grown_Some.
    + done.
    + erewrite grown_other; [exact Hrf|exact Hg|].
      intros H%prefix_length. rewrite !length_app in H. simpl in H. lia.
    + apply is_file_true in Hlog as [cl Hcl]. apply is_file_true. exists cl.
      by eapply grown_Some.
    + done.
Qed.

End Completion.

Lemma fitsb_fits src rep fs : fitsb src rep fs = true → fits src rep fs.
Proof.
  unfold fitsb. rewrite forallb_forall. intros H rel e e' He He'.
  specialize (H (rep ++ rel, e)). simpl in H.
  rewrite bool_decide_eq_true_2, relpath_app, He' in H by (by eexists).
  apply H. apply list_elem_of_In. by apply elem_of_map_to_list.
Qed.

Lemma names_encodedb_ok top fs : names_encodedb top fs = true → names_encoded top fs.
Proof.
  unfold names_encodedb. rewrite forallb_forall. intros H q Hq [e He].
  specialize (H (q, e)). simpl in H.
  rewrite (proj2 (beneathb_true top q) Hq) in H. apply H.
  apply list_elem_of_In. by apply elem_of_map_to_list.
Qed.

Section CompletionRun.

Variables src rep logf : path.
Hypothesis Hlay : layout src rep logf.

Lemma log_not_on_way r : ¬ logf `prefix_of` rep ++ r.
Proof.
  intros H. destruct Hlay as (_ & _ & [H1 H2]).
  assert (rep `prefix_of` rep ++ r) as H3 by (by eexists).
  by destruct (prefix_weak_total _ _ _ H H3).
Qed.

Lemma copy_loop_total files s :
  wf (st_fs s) → NoDup files →
  (∀ p, p ∈ files → beneath src p ∧ is_file (st_fs s) p = true) →
  (∀ p, p ∈ files → encodes (show_path p) = true) →
  is_file (st_fs s) logf = true → is_dir (st_fs s) rep = true →
  fits src rep (st_fs s) →
  ∃ s', for_each files (copy_file src rep logf) s = Ok tt s'.
Proof.
  intros Hwf Hnd Hfiles Henc Hlog Hrep Hfit.
  induction files as [|p l IH] using rev_ind; [by exists s|].
  apply NoDup_app in Hnd as (Hnd & Hdisj & _).
  assert (∀ q, q ∈ l → beneath src q ∧ is_file (st_fs s) q = true) as Hl.
  { intros q Hq. apply Hfiles, elem_of_app. by left. }
  assert (∀ q, q ∈ l → encodes (show_path q) = true) as Hel.
  { intros q Hq. apply Henc, elem_of_app. by left. }
  assert (encodes (show_path p) = true) as Hep.
  { apply Henc, elem_of_app. right. left. }
  destruct (IH Hnd Hl Hel) as [si Hsi].
  pose proof (copy_loop_spec src rep logf Hlay l s Hwf Hnd Hl) as Hcl.
  rewrite Hsi in Hcl.
  assert (p ∉ l) as Hpl.
  { intros Hin. apply (Hdisj p Hin). left. }
  destruct (Hfiles p) as [(n0 & r0 & Ep) Hf]; [apply elem_of_app; right; left|].
  assert (n0 :: r0 ≠ []) as Hne by done.
  destruct (exists_last Hne) as (r & n & Er). rewrite Er in Ep. subst p. clear Er Hne.
  apply is_file_true in Hf as [c Hc].
  apply is_dir_true in Hrep.
  assert (∀ k, k `prefix_of` r → st_fs s !! (src ++ k) = Some Dir) as Hsrcdir.
  { intros k [k' ->]. apply (wf_beneath_dir _ _ (src ++ (k ++ k') ++ [n])); eauto.
    rewrite <- !app_assoc, (app_assoc src k).
    destruct (k' ++ [n]) as [|x y] eqn:E; [by destruct k'|by exists x, y]. }
  rewrite for_each_app, Hsi. cbn [for_each]. rewrite bind_eq.
  destruct (copy_file_total src rep logf Hlay r n c si) as [s' Hs'].
  - apply (cl_wf _ _ _ _ _ _ Hcl).
  - rewrite (copied_post_source src rep logf Hlay l s si); eauto.
  - intros q c' Hq Hqf.
    assert (q ≠ logf) as Hql.
    { intros ->. by apply (log_not_on_way r). }
    destruct (cl_frame _ _ _ _ _ _ Hcl q Hql)
      as [E|(rel' & Hin & [[E Hfile]|(_ & Hd & _)])].
    + rewrite E in Hqf.
      assert (rep `prefix_of` rep ++ r) as H3 by (by eexists).
      destruct (prefix_weak_total _ _ _ Hq H3) as [H|[k ->]].
      * destruct H as [k Hk].
        destruct k as [|x k]; [rewrite app_nil_r in Hk; congruence|].
        assert (st_fs s !! q = Some Dir); [|congruence].
        apply (wf_beneath_dir _ _ rep); eauto. rewrite Hk. by exists x, k.
      * apply prefix_app_inv in Hq.
        pose proof (Hfit k (File c') Dir Hqf (Hsrcdir k Hq)). done.
    + subst q. apply prefix_app_inv in Hq.
      apply Hl in Hin as [_ Hf%is_file_true]. destruct Hf as [c2 Hc2].
      rewrite (Hsrcdir rel' Hq) in Hc2. done.
    + congruence.
  - assert (rep ++ r ++ [n] ≠ logf) as Hql by apply (copy_rf_ne_log src rep logf Hlay).
    intros Hd.
    destruct (cl_frame _ _ _ _ _ _ Hcl _ Hql)
      as [E|(rel' & Hin & [[E Hfile]|(_ & _ & Hpre)])].
    + rewrite E in Hd. pose proof (Hfit (r ++ [n]) Dir (File c) Hd Hc). done.
    + unfold is_file in Hfile. by rewrite Hd in Hfile.
    + assert (rep ++ r ++ [n] `prefix_of` rep ++ rel') as H.
      { etrans; [exact Hpre|apply dirname_prefix]. }
      apply prefix_app_inv in H as [k Hk].
      rewrite <- app_assoc in Hk. subst rel'.
      destruct k as [|x k].
      { rewrite app_nil_r in Hin. done. }
      apply Hl in Hin as [_ Hf%is_file_true]. destruct Hf as [c2 Hc2].
      rewrite (wf_file_leaf _ (src ++ r ++ [n]) c) in Hc2; [done|done|done|].
      exists x, k. by rewrite <- !app_assoc.
  - destruct (emits_for_each (copy_calls_all src rep logf) l (copy_file src rep logf))
      with (s := s) as (tr & _ & HF & Hfs & _).
    { intros a _. eapply emits_weaken; [|apply emits_copy_file].
      intros sc Hsc. by exists a. }
    rewrite Hsi in Hfs. simpl in Hfs. rewrite Hfs.
    apply (replay_log_file src rep logf Hlay); [|done].
    eapply Forall_impl; [exact HF|]. intros sc [a Ha].
    by eapply copy_calls_footprint.
  - done.
  - exists s'. by rewrite Hs'.
Qed.

End CompletionRun.

Section Completes.

Variables src rep logf : path.
Variable iv : Z.
Hypothesis Hlay : layout src rep logf.

Lemma copy_loop_log files s :
  is_file (st_fs s) logf = true →
  is_file (st_fs (final (for_each files (copy_file src rep logf) s))) logf = true.
Proof.
  intros Hlog.
  destruct (emits_for_each (copy_calls_all src rep logf) files (copy_file src rep logf))
    with (s := s) as (tr & _ & HF & Hfs & _).
  { intros a _. eapply emits_weaken; [|apply emits_copy_file].
    intros sc Hsc. by exists a. }
  rewrite Hfs. apply (replay_log_file src rep logf Hlay); [|done].
  eapply Forall_impl; [exact HF|]. intros sc [a Ha]. by eapply copy_calls_footprint.
Qed.

Lemma delete_walk_log n s :
  is_file (st_fs s) logf = true →
  is_file (st_fs (final (os_walk n false rep (delete_body src rep logf) s))) logf = true.
Proof.
  intros Hlog.
  destruct (emits_delete_walk src rep logf n rep (reflexivity _) s)
    as (tr & _ & HF & Hfs & _).
  rewrite Hfs. apply (replay_log_file src rep logf Hlay); [|done].
  eapply Forall_impl; [exact HF|]. apply delete_calls_footprint.
Qed.

Lemma replica_not_log : rep ≠ logf.
Proof. intros E. destruct Hlay as (_ & _ & [H _]). apply H. by rewrite E. Qed.

Lemma run_total s :
  wf (st_fs s) →
  is_file (st_fs s) logf = true → is_dir (st_fs s) rep = true →
  fits src rep (st_fs s) →
  names_encoded src (st_fs s) → names_encoded rep (st_fs s) →
  ∃ s', sync_folders src rep logf iv s = Ok tt s'.
Proof.
  intros Hwf Hlog Hrep Hfit Hns Hnr.
  set (s0 := set_source_files [] (set_counters 0 0 0 s)).
  destruct (scan_walk_spec (S (depth (st_fs s))) src s0)
    as (found & sa & Ha & Hfsa & Hsfa & _ & _ & _ & Hnd & Hfound); [done|lia| |].
  { intros q _ Hq. apply depth_bound in Hq. simpl in *. lia. }
  change (st_fs s0) with (st_fs s) in *. simpl in Hsfa.
  destruct (delete_walk_total src rep logf Hlay (S (depth (st_fs sa))) rep sa)
    as (sb & Hb & Hdp); [by rewrite Hfsa|done|lia| |by rewrite Hfsa| |].
  { intros q _ Hq. apply depth_bound in Hq. lia. }
  { intros q Hq Hsome _. rewrite Hfsa in Hsome. by apply Hnr. }
  assert (∀ r, st_fs sb !! (src ++ r) = st_fs s !! (src ++ r)) as Hsrc.
  { intros r. rewrite <- Hfsa. by apply (dp_source src rep logf Hlay (beneath rep)). }
  assert (st_fs sb !! rep = st_fs s !! rep) as Hrepb.
  { rewrite <- Hfsa. apply (dp_keep src rep logf (beneath rep)); [done| |].
    - apply beneath_irrefl.
    - apply replica_not_log. }
  assert (is_file (st_fs sb) logf = true) as Hlogb.
  { pose proof (delete_walk_log (S (depth (st_fs sa))) sa) as H.
    rewrite Hb in H. apply H. by rewrite Hfsa. }
  assert (fits src rep (st_fs sb)) as Hfitb.
  { intros rel e e' He He'. rewrite Hsrc in He'.
    destruct rel as [|n r].
    - rewrite app_nil_r in *. rewrite Hrepb in He.
      apply (Hfit [] e e'); by rewrite ?app_nil_r.
    - rewrite (dp_in _ _ _ _ _ _ Hdp) in He by (by exists n, r).
      unfold pruned in He. rewrite Hfsa in He.
      destruct (path_exists _ _); [|done]. by apply (Hfit (n :: r) e e'). }
  destruct (dp_locals _ _ _ _ _ _ Hdp) as (Hsfb & _).
  destruct (copy_loop_total src rep logf Hlay found sb) as [sc Hc].
  - apply (dp_wf _ _ _ _ _ _ Hdp).
  - done.
  - intros p Hp. apply Hfound in Hp as [Hbn Hf]. split; [done|].
    destruct Hbn as (n & r & ->). unfold is_file in *. by rewrite Hsrc.
  - intros p Hp. apply Hfound in Hp as [Hbn Hf]. apply Hns; [done|].
    apply is_file_true in Hf as [c Hf]. change (st_fs s0) with (st_fs s) in Hf.
    by rewrite Hf.
  - done.
  - unfold is_dir in *. by rewrite Hrepb.
  - done.
  - pose proof (copy_loop_log found sb Hlogb) as Hlogc. rewrite Hc in Hlogc.
    simpl in Hlogc.
    pose proof (report_spec logf sc) as Hrep'.
    destruct (report logf sc) as [[] sd|e sd] eqn:Hd; [|congruence].
    eexists. apply (sync_folders_compose src rep logf iv s sa sb sc sd); try done.
    by rewrite Hsfb, Hsfa.
Qed.


Lemma first_backup_spec s :
  wf (st_fs s) →
  is_file (st_fs s) logf = true →
  is_dir (st_fs s) src = true → is_dir (st_fs s) rep = true →
  (∀ n r, st_fs s !! (rep ++ n :: r) = None) →
  names_encoded src (st_fs s) →
  ∃ s', sync_folders src rep logf iv s = Ok tt s'
        ∧ (∀ rel c, st_fs s !! (src ++ rel) = Some (File c) →
                    st_fs s' !! (rep ++ rel) = Some (File c))
        ∧ file_removed_counter s' = 0
        ∧ file_copied_counter s' + file_identical_counter s'
          = size (regular_files src (st_fs s)).
Proof.
  intros Hwf Hlog Hsrc Hrep Hempty Hns.
  apply is_dir_true in Hsrc. pose proof Hrep as Hrep'. apply is_dir_true in Hrep'.
  destruct (run_total s Hwf Hlog Hrep) as [s' Hrun].
  { intros [|n r] e e' He He'.
    - rewrite app_nil_r in *. rewrite Hrep' in He. rewrite Hsrc in He'.
      by injection He as <-; injection He' as <-.
    - by rewrite Hempty in He. }
  { done. }
  { intros q (n & r & ->) Hsome. rewrite Hempty in Hsome. by destruct Hsome. }
  exists s'. split; [done|].
  destruct (run_mirror src rep logf iv s s' Hlay Hwf Hrun) as [Hm _].
  destruct (run_Ok_spec src rep logf iv Hlay s s' Hwf Hrun)
    as (found & sa & sb & sc & Hnd & Hfound & Hfsa & Hsfa & Hca & Hra & Hia & Hdp & Hcl
        & _ & _ & _ & Hc' & Hr' & Hi' & _).
  split; [|split].
  - intros rel c Hc. destruct rel as [|n r].
    { rewrite app_nil_r in Hc. congruence. }
    destruct (Hm (n :: r) c) as (c' & Hc2 & _ & [->|Hold]); [done| |done|].
    + destruct (layout_source _ _ _ Hlay) as [H1 H2].
      pose proof (run_source_frame src rep logf iv s (src ++ n :: r) H1 H2) as H.
      rewrite Hrun in H. simpl in H. rewrite H; [done|by eexists].
    + by rewrite Hempty in Hold.
  - destruct (dp_trace _ _ _ _ _ _ Hdp) as (tr & _ & _ & Hrf & _ & Hrc).
    rewrite Hr', (cl_removed _ _ _ _ _ _ Hcl), Hrc, Hra. simpl.
    destruct (removed_files tr) as [|p l] eqn:E; [done|].
    destruct (Hrf p) as [(Hb & Hf & _) _]; [rewrite ?E; left|].
    destruct Hb as (n & r & ->). rewrite Hfsa in Hf.
    unfold is_file in Hf. by rewrite Hempty in Hf.
  - pose proof (cl_count _ _ _ _ _ _ Hcl) as Hcnt.
    destruct (dp_locals _ _ _ _ _ _ Hdp) as (_ & Hcb & Hib).
    rewrite Hc', Hi', Hcnt, Hcb, Hib, Hca, Hia. simpl.
    apply length_keys; [done|]. intros p. rewrite regular_files_lookup. apply Hfound.
Qed.


End Completes.
(** ** The scheduler *)

Lemma sched_round_pending src rep logf iv t s :
  st_queue s = [Event t 1 (src, rep, logf, iv)] →
  match sched_round s with
  | Ok b s' => b = true ∧ ∃ t', st_queue s' = [Event t' 1 (src, rep, logf, iv)]
  | Raise _ s' => st_queue s' = []
  end.
Proof.
  intros Hq. unfold sched_round. rewrite Hq. cbn [ev_time ev_args].
  destruct (st_clock s <? t)%Z.
  - simpl. eauto.
  - rewrite bind_eq.
    destruct (sync_folders src rep logf iv (set_queue [] s)) as [[] s1|e s1] eqn:E.
    + apply run_queue in E. simpl in *. eauto.
    + by apply keeps_on_raise_queue in E.
Qed.

(** X8 (one event pending). Started with an empty queue, the first run and
    any number of rounds of the scheduler that follow either end in an
    exception of a run, with an empty queue, or leave exactly one event
    in the queue, for [sync_folders] with the arguments of the first run:
    runs neither pile up nor stop of themselves. *)
Theorem one_event_pending src rep logf iv rounds s :
  st_queue s = [] →
  match main src rep logf iv rounds s with
  | Ok _ s' => ∃ t, st_queue s' = [Event t 1 (src, rep, logf, iv)]
  | Raise _ s' => st_queue s' = []
  end.
Proof.
  intros Hq. unfold main. rewrite bind_eq.
  destruct (sync_folders src rep logf iv s) as [[] s1|e s1] eqn:E.
  2:{ apply keeps_on_raise_queue in E. congruence. }
  apply run_queue in E. rewrite Hq in E. simpl in E.
  assert (∃ t, st_queue s1 = [Event t 1 (src, rep, logf, iv)]) as Hinv by eauto.
  clear E Hq. revert s1 Hinv.
  induction rounds as [|n IH]; intros s1 [t Ht]; simpl; [eauto|].
  rewrite bind_eq.
  pose proof (sched_round_pending src rep logf iv t s1 Ht) as H.
  destruct (sched_round s1) as [b s2|e s2]; [|done].
  destruct H as [-> H]. by apply IH.
Qed.

(** X9 (an interval that is not positive). After a run that completes,
    started with an empty queue and an interval of zero or less, the
    event entered is due at once: the next round of the scheduler does
    not sleep and calls [sync_folders] again at the time the run ended. *)
Theorem nonpositive_interval_reruns_at_once src rep logf iv s s1 :
  (iv ≤ 0)%Z → st_queue s = [] →
  sync_folders src rep logf iv s = Ok tt s1 →
  sched_round s1
  = (sync_folders src rep logf iv ;; time_sleep 0 ;; ret true) (set_queue [] s1).
Proof.
  intros Hiv Hq Hrun. apply run_queue in Hrun. rewrite Hq in Hrun. simpl in Hrun.
  unfold sched_round. rewrite Hrun. cbn [ev_time ev_args].
  destruct (Z.ltb_spec (st_clock s1) (st_clock s1 + iv)) as [?|_]; [lia|done].
Qed.
(** ** validate_input *)

Lemma str_length_app (a b : string) :
  String.length (a +:+ b) = String.length a + String.length b.
Proof.
  induction a as [|x a IH]; [done|].
  change (S (String.length (a +:+ b)) = S (String.length a + String.length b)).
  by rewrite IH.
Qed.

Lemma str_drop_app (a b : string) k :
  str_drop (String.length a + k) (a +:+ b) = str_drop k b.
Proof. induction a as [|x a IH]; [done|]. exact IH. Qed.

Lemma str_endswith_app (a b suffix : string) :
  str_endswith b suffix = true → str_endswith (a +:+ b) suffix = true.
Proof.
  unfold str_endswith. intros H%bool_decide_eq_true. apply bool_decide_eq_true.
  assert (String.length suffix ≤ String.length b) as Hle.
  { apply (f_equal String.length) in H. rewrite str_drop_length in H. lia. }
  rewrite str_length_app.
  replace (String.length a + String.length b - String.length suffix)
    with (String.length a + (String.length b - String.length suffix)) by lia.
  by rewrite str_drop_app.
Qed.

Lemma names_nil (l : list (string * entry)) : (λ ne, ne.1) <$> l = [] ↔ l = [].
Proof. by destruct l. Qed.

Lemma io_bind_Val {A B} (m : IO A) (k : A → IO B) w a w1 :
  m w = Val a w1 → io_bind m k w = k a w1.
Proof. unfold io_bind. by intros ->. Qed.

Lemma io_bind_Exc {A B} (m : IO A) (k : A → IO B) w e w1 :
  m w = Exc e w1 → io_bind m k w = Exc e w1.
Proof. unfold io_bind. by intros ->. Qed.

Lemma lift_Ok {A} (m : M A) w a s1 :
  m (w_state w) = Ok a s1 → lift m w = Val a (World s1 (w_stdin w) (w_prompts w)).
Proof. unfold lift. by intros ->. Qed.

Section Interactive.

Variable lib : library.

Lemma validate_input_eq str a b c d rest w :
  shlex_split lib str = Some (a :: b :: c :: d :: rest) →
  validate_input lib str w
  = (unusable <- lift (source_unusable lib a) ;;
     if unusable
     then lift (print (a +:+ " does not exist or is empty")) ;; io_ret None
     else
       go_on <- ensure_replica lib b ;;
       if negb go_on then io_ret None
       else
         go_on <- confirm_replica lib a b ;;
         if negb go_on then io_ret None
         else
           log_file <- lift (default_log lib c) ;;
           match py_int lib d with
           | Some n => io_ret (Some (Params a b log_file (n * 60) rest))
           | None => lift (print (d +:+ " is not a integer")) ;; io_ret None
           end)%io w.
Proof. intros Hs. unfold validate_input. rewrite Hs. reflexivity. Qed.

Lemma validate_input_short str w :
  match shlex_split lib str with
  | Some (_ :: _ :: _ :: _ :: _) => True
  | Some _ => validate_input lib str w = Exc IndexError w
  | None => validate_input lib str w = Exc ValueError w
  end.
Proof.
  unfold validate_input.
  destruct (shlex_split lib str) as [[|a [|b [|c [|d rest]]]]|]; done.
Qed.

(** The blocks of [validate_input]. *)
Lemma source_unusable_eq a s :
  ∃ s', source_unusable lib a s
        = Ok (negb (is_dir (st_fs s) (resolve lib a))
              || bool_decide (listdir (st_fs s) (resolve lib a) = [])) s'
        ∧ st_fs s' = st_fs s ∧ st_queue s' = st_queue s.
Proof.
  unfold source_unusable, bind, os_path_isdir, os_listdir, ret, is_dir.
  cbn [st_fs tick set_clock set_trace].
  destruct (st_fs s !! resolve lib a) as [[c|]|] eqn:E; simpl; rewrite ?E; eauto.
  eexists. split; [f_equal; apply bool_decide_ext, names_nil|by split].
Qed.

Lemma default_log_eq c s :
  ∃ s', default_log lib c s
        = Ok (if negb (is_file (st_fs s) (resolve lib c))
                 && negb (str_endswith c ".txt")
              then c +:+ "\log.txt" else c) s'
        ∧ st_fs s' = st_fs s ∧ st_queue s' = st_queue s.
Proof. unfold default_log, bind, os_path_isfile, ret. eauto. Qed.

(** What [ensure_replica] does, by the state of the replica folder and the
    answer. *)
Lemma ensure_replica_cases b w :
  (is_dir (st_fs (w_state w)) (resolve lib b) = true
   ∧ ∃ w', ensure_replica lib b w = Val true w'
           ∧ st_fs (w_state w') = st_fs (w_state w)
           ∧ w_stdin w' = w_stdin w ∧ w_prompts w' = w_prompts w
           ∧ st_queue (w_state w') = st_queue (w_state w))
  ∨ (is_dir (st_fs (w_state w)) (resolve lib b) = false
     ∧ ((w_stdin w = []
         ∧ ∃ w', ensure_replica lib b w = Exc EOFError w'
                 ∧ st_fs (w_state w') = st_fs (w_state w))
        ∨ ∃ answer rest, w_stdin w = answer :: rest
            ∧ ((answer_yes answer = true
                ∧ ((∃ w', ensure_replica lib b w = Val true w'
                          ∧ fs_makedirs (resolve lib b) (st_fs (w_state w))
                            = (None, st_fs (w_state w'))
                          ∧ w_stdin w' = rest)
                   ∨ (∃ e w', ensure_replica lib b w = Exc (OsError e) w'
                              ∧ fs_makedirs (resolve lib b) (st_fs (w_state w))
                                = (Some e, st_fs (w_state w')))))
               ∨ (answer_yes answer = false
                  ∧ ∃ w', ensure_replica lib b w = Val false w'
                          ∧ st_fs (w_state w') = st_fs (w_state w)
                          ∧ w_stdin w' = rest)))).
Proof.
  unfold ensure_replica, io_bind, lift, os_path_isdir.
  cbn [w_state w_stdin w_prompts st_fs tick set_clock set_trace].
  destruct (is_dir (st_fs (w_state w)) (resolve lib b)) eqn:Hd.
  { left. split; [done|]. unfold io_ret. eexists. by repeat split. }
  right. split; [done|]. unfold py_input. cbn [w_state w_stdin w_prompts].
  destruct (w_stdin w) as [|answer rest] eqn:Hin.
  { left. split; [done|]. eauto. }
  right. exists answer, rest. split; [done|].
  cbn [w_state w_stdin w_prompts].
  destruct (answer_yes answer) eqn:Hy.
  - left. split; [done|]. unfold os_makedirs, fs_call.
    cbn [st_fs tick set_clock set_trace].
    destruct (fs_makedirs (resolve lib b) (st_fs (w_state w))) as [[e|] fs'] eqn:E;
      cbn; rewrite ?E; cbn.
    + right. eexists _, _. split; [reflexivity|done].
    + left. unfold io_ret. eexists. split; [reflexivity|done].
  - right. split; [done|].
    destruct (answer_no answer); unfold io_ret; cbn;
      (eexists; split; [reflexivity|done]).
Qed.

Lemma confirm_replica_cases a b w :
  match st_fs (w_state w) !! resolve lib b with
  | Some Dir =>
      (listdir (st_fs (w_state w)) (resolve lib b) = []
       ∧ ∃ w', confirm_replica lib a b w = Val true w'
               ∧ st_fs (w_state w') = st_fs (w_state w)
               ∧ w_stdin w' = w_stdin w ∧ w_prompts w' = w_prompts w
               ∧ st_queue (w_state w') = st_queue (w_state w))
      ∨ (listdir (st_fs (w_state w)) (resolve lib b) ≠ []
         ∧ ((w_stdin w = []
             ∧ ∃ w', confirm_replica lib a b w = Exc EOFError w'
                     ∧ st_fs (w_state w') = st_fs (w_state w))
            ∨ ∃ answer rest w', w_stdin w = answer :: rest
                ∧ confirm_replica lib a b w = Val (answer_yes answer) w'
                ∧ st_fs (w_state w') = st_fs (w_state w)
                ∧ w_stdin w' = rest))
  | _ => ∃ e w', confirm_replica lib a b w = Exc (OsError e) w'
                 ∧ st_fs (w_state w') = st_fs (w_state w)
  end.
Proof.
  unfold confirm_replica, io_bind, lift, os_listdir.
  cbn [w_state w_stdin w_prompts st_fs tick set_clock set_trace].
  destruct (st_fs (w_state w) !! resolve lib b) as [[c|]|] eqn:Hb; cbn; eauto.
  case_bool_decide as Hn.
  - left. apply names_nil in Hn. split; [done|]. unfold io_ret.
    eexists. by repeat split.
  - right. rewrite names_nil in Hn. split; [done|].
    unfold py_input. cbn [w_state w_stdin w_prompts].
    destruct (w_stdin w) as [|answer rest] eqn:Hin; [left; eauto|].
    right. exists answer, rest. cbn [w_state w_stdin w_prompts].
    destruct (answer_yes answer) eqn:Hy; [unfold io_ret; eauto|].
    destruct (answer_no answer); unfold io_ret; cbn; eauto.
Qed.

(** The runs of [validate_input] that return parameters. *)
Lemma validate_input_Some str w p w' :
  validate_input lib str w = Val (Some p) w' →
  ∃ a b c d rest n,
    shlex_split lib str = Some (a :: b :: c :: d :: rest)
    ∧ py_int lib d = Some n
    ∧ p = Params a b
            (if negb (is_file (st_fs (w_state w')) (resolve lib c))
                && negb (str_endswith c ".txt")
             then c +:+ "\log.txt" else c) (n * 60) rest
    ∧ is_dir (st_fs (w_state w)) (resolve lib a) = true
    ∧ listdir (st_fs (w_state w)) (resolve lib a) ≠ []
    ∧ is_dir (st_fs (w_state w')) (resolve lib b) = true
    ∧ ((is_dir (st_fs (w_state w)) (resolve lib b) = true
        ∧ st_fs (w_state w') = st_fs (w_state w))
       ∨ (is_dir (st_fs (w_state w)) (resolve lib b) = false
          ∧ fs_makedirs (resolve lib b) (st_fs (w_state w))
            = (None, st_fs (w_state w'))))
    ∧ ((is_dir (st_fs (w_state w)) (resolve lib b) = true
        ∧ listdir (st_fs (w_state w)) (resolve lib b) = []
        ∧ w_stdin w' = w_stdin w)
       ∨ ∃ answer rest', w_stdin w = answer :: rest' ∧ answer_yes answer = true).
Proof.
  intros Hrun. pose proof (validate_input_short str w) as Hshort.
  destruct (shlex_split lib str) as [[|a [|b [|c [|d rest]]]]|] eqn:Hs;
    try (rewrite Hshort in Hrun; discriminate).
  clear Hshort. rewrite (validate_input_eq str a b c d rest w Hs) in Hrun.
  exists a, b, c, d, rest.
  destruct (source_unusable_eq a (w_state w)) as (s1 & E1 & Hfs1 & Hqu1).
  rewrite (io_bind_Val _ _ _ _ _ (lift_Ok _ _ _ _ E1)) in Hrun.
  destruct (negb (is_dir _ _) || bool_decide _) eqn:Hbad.
  { unfold io_bind, lift, print, io_ret in Hrun. simpl in Hrun. done. }
  apply orb_false_iff in Hbad as [Hd Hn].
  apply negb_false_iff in Hd. apply bool_decide_eq_false in Hn.
  set (w1 := World s1 (w_stdin w) (w_prompts w)) in *.
  assert (∀ w2 go,
            ensure_replica lib b w1 = Val go w2 →
            (is_dir (st_fs (w_state w)) (resolve lib b) = true
             ∧ st_fs (w_state w2) = st_fs (w_state w) ∧ w_stdin w2 = w_stdin w)
            ∨ (∃ answer rest', w_stdin w = answer :: rest'
                 ∧ (go = true → answer_yes answer = true
                    ∧ is_dir (st_fs (w_state w)) (resolve lib b) = false
                    ∧ fs_makedirs (resolve lib b) (st_fs (w_state w))
                      = (None, st_fs (w_state w2))))) as Hens.
  { intros w2 go E.
    destruct (ensure_replica_cases b w1) as [[Hb (w3 & E3 & H3 & H4 & _)]|[Hb H]].
    - left. rewrite E in E3. injection E3 as _ <-. simpl in Hb, H3, H4.
      split; [by rewrite <- Hfs1|]. split; [by rewrite H3|done].
    - right. simpl in Hb, H. rewrite Hfs1 in Hb, H.
      destruct H as [[_ (w3 & E3 & _)]|(answer & rest' & Hin & H)]; [congruence|].
      exists answer, rest'. split; [done|]. intros ->.
      destruct H as [[Hy [(w3 & E3 & Hmk & _)|(e & w3 & E3 & _)]]|[Hy (w3 & E3 & _)]];
        try congruence.
      rewrite E in E3. injection E3 as <-. auto. }
  destruct (ensure_replica lib b w1) as [go w2|e w2] eqn:E2;
    [|by rewrite (io_bind_Exc _ _ _ _ _ E2) in Hrun].
  rewrite (io_bind_Val _ _ _ _ _ E2) in Hrun.
  destruct go; [|done]. cbn [negb] in Hrun.
  specialize (Hens w2 true eq_refl).
  pose proof (confirm_replica_cases a b w2) as Hconf.
  destruct (confirm_replica lib a b w2) as [go w3|e w3] eqn:E3;
    [|by rewrite (io_bind_Exc _ _ _ _ _ E3) in Hrun].
  rewrite (io_bind_Val _ _ _ _ _ E3) in Hrun.
  destruct go; [|done]. cbn [negb] in Hrun.
  destruct (default_log_eq c (w_state w3)) as (s4 & E4 & Hfs4 & Hqu4).
  rewrite (io_bind_Val _ _ _ _ _ (lift_Ok _ _ _ _ E4)) in Hrun.
  destruct (py_int lib d) as [n|] eqn:Hint.
  2:{ unfold io_bind, lift, print, io_ret in Hrun. simpl in Hrun. done. }
  unfold io_ret in Hrun. injection Hrun as <- <-. exists n.
  cbn [w_state]. rewrite Hfs4.
  destruct (st_fs (w_state w2) !! resolve lib b) as [[?|]|] eqn:Hb2;
    try (by destruct Hconf as (? & ? & ? & _)).
  assert (st_fs (w_state w3) = st_fs (w_state w2) ∧
          (listdir (st_fs (w_state w2)) (resolve lib b) = [] ∧ w_stdin w3 = w_stdin w2
           ∨ ∃ answer rest', w_stdin w2 = answer :: rest' ∧ answer_yes answer = true))
    as [Hfs3 Hasked].
  { destruct Hconf as [(Hl & w4 & E & Hf & Hi & _)
                      |(Hl & [(_ & w4 & E & _)|(ans & rest' & w4 & Hin & E & Hf & _)])];
      try congruence.
    - injection E as <-. split; [done|]. by left.
    - injection E as Hy <-. split; [done|]. right. by exists ans, rest'. }
  rewrite Hfs3.
  split; [done|]. split; [done|]. split; [done|]. split; [done|]. split; [done|].
  split; [by apply is_dir_true|].
  destruct Hens as [(Hb & Hf2 & Hi2)|(answer & rest' & Hin & H)].
  - rewrite Hf2. split; [by left|].
    destruct Hasked as [[Hl Hi3]|(ans & rest'' & Hin & Hy)].
    + left. rewrite Hf2 in Hl. split; [done|]. split; [done|]. simpl. congruence.
    + right. exists ans, rest''. split; [congruence|done].
  - destruct (H eq_refl) as (Hy & Hb & Hmk). split; [by right|].
    right. by exists answer, rest'.
Qed.

(** X10 (what validated parameters are). When [validate_input] returns
    parameters, the line held at least four words; the first names a
    folder that was not empty, the second a folder that is there now; the
    log file is the third word, or the third word followed by [\log.txt],
    and it is an existing regular file or ends in [.txt]; the interval is
    sixty times the integer the fourth word stands for, whatever its
    sign; the other words follow unchanged. *)
Theorem validate_input_sound str w p w' :
  validate_input lib str w = Val (Some p) w' →
  ∃ c d n,
    shlex_split lib str
    = Some (p_source p :: p_replica p :: c :: d :: p_rest p)
    ∧ py_int lib d = Some n
    ∧ p_interval p = (n * 60)%Z
    ∧ (p_log p = c ∨ p_log p = c +:+ "\log.txt")
    ∧ (is_file (st_fs (w_state w')) (resolve lib (p_log p)) = true
       ∨ str_endswith (p_log p) ".txt" = true)
    ∧ is_dir (st_fs (w_state w)) (resolve lib (p_source p)) = true
    ∧ listdir (st_fs (w_state w)) (resolve lib (p_source p)) ≠ []
    ∧ is_dir (st_fs (w_state w')) (resolve lib (p_replica p)) = true.
Proof.
  intros Hrun.
  destruct (validate_input_Some str w p w' Hrun)
    as (a & b & c & d & rest & n & Hs & Hint & -> & Ha & Hl & Hb & _).
  exists c, d, n. cbn [p_source p_replica p_log p_interval p_rest].
  split; [done|]. split; [done|]. split; [done|].
  split; [by destruct (negb _ && negb _); [right|left]|].
  split; [|done].
  destruct (is_file (st_fs (w_state w')) (resolve lib c)) eqn:Hf; [by left|].
  destruct (str_endswith c ".txt") eqn:He; [by right|].
  right. cbn [negb andb]. by apply str_endswith_app.
Qed.

(** X11 (no deletion without a yes). [validate_input] returns
    parameters for a replica folder that did not exist, or that held
    entries, only when the first line typed in answer was [y] or [Y]. *)
Theorem validate_input_asks str w p w' :
  validate_input lib str w = Val (Some p) w' →
  is_dir (st_fs (w_state w)) (resolve lib (p_replica p)) = false
  ∨ listdir (st_fs (w_state w)) (resolve lib (p_replica p)) ≠ [] →
  ∃ answer rest, w_stdin w = answer :: rest ∧ (answer = "y" ∨ answer = "Y").
Proof.
  intros Hrun Hrep.
  destruct (validate_input_Some str w p w' Hrun)
    as (a & b & c & d & rest & n & _ & _ & -> & _ & _ & _ & _ & Hask).
  cbn [p_replica] in Hrep.
  destruct Hask as [(Hb & Hl & _)|(answer & rest' & Hin & Hy)].
  { destruct Hrep; congruence. }
  exists answer, rest'. split; [done|].
  unfold answer_yes in Hy. apply orb_true_iff in Hy as [H|H];
    apply bool_decide_eq_true in H; auto.
Qed.

(** X12 (too few words). On a line that [shlex.split] cuts into fewer
    than four words, [validate_input] raises [IndexError] before it looks
    at the file system or prints anything. *)
Theorem validate_input_index_error str l w :
  shlex_split lib str = Some l → length l < 4 →
  validate_input lib str w = Exc IndexError w.
Proof.
  intros Hs Hlen. pose proof (validate_input_short str w) as H.
  rewrite Hs in H.
  destruct l as [|a [|b [|c [|d rest]]]]; try done. simpl in Hlen. lia.
Qed.

Lemma io_keeps_ret {A} (a : A) : io_keeps_fs (io_ret a).
Proof. done. Qed.

Lemma io_keeps_bind {A B} (m : IO A) (k : A → IO B) :
  io_keeps_fs m → (∀ a, io_keeps_fs (k a)) → io_keeps_fs (io_bind m k).
Proof.
  intros Hm Hk w. unfold io_bind. specialize (Hm w).
  destruct (m w) as [a w1|e w1]; simpl in *; [|done]. by rewrite Hk.
Qed.

Lemma io_keeps_print line : io_keeps_fs (lift (print line)).
Proof. done. Qed.

Lemma io_keeps_default_log c : io_keeps_fs (lift (default_log lib c)).
Proof. done. Qed.

Lemma io_keeps_source_unusable a : io_keeps_fs (lift (source_unusable lib a)).
Proof.
  intros w. unfold lift. destruct (source_unusable_eq a (w_state w)) as (s' & -> & H & _).
  done.
Qed.

Lemma io_keeps_confirm_replica a b : io_keeps_fs (confirm_replica lib a b).
Proof.
  intros w. pose proof (confirm_replica_cases a b w) as H.
  destruct (st_fs (w_state w) !! resolve lib b) as [[?|]|].
  - by destruct H as (e & w' & -> & ?).
  - destruct H as [(_ & w' & -> & ? & _)
                  |(_ & [(_ & w' & -> & ?)|(ans & rest & w' & _ & -> & ? & _)])]; done.
  - by destruct H as (e & w' & -> & ?).
Qed.

(** The part of [validate_input] that follows lines 108-116. *)
Lemma io_keeps_after_replica a b c d rest (go_on : bool) :
  io_keeps_fs
    (if negb go_on then io_ret None
     else
       go_on <- confirm_replica lib a b ;;
       if negb go_on then io_ret None
       else
         log_file <- lift (default_log lib c) ;;
         match py_int lib d with
         | Some n => io_ret (Some (Params a b log_file (n * 60) rest))
         | None => lift (print (d +:+ " is not a integer")) ;; io_ret None
         end)%io.
Proof.
  destruct go_on; [|apply io_keeps_ret]. cbn [negb].
  apply io_keeps_bind; [apply io_keeps_confirm_replica|].
  intros [|]; [|apply io_keeps_ret]. cbn [negb].
  apply io_keeps_bind; [apply io_keeps_default_log|]. intros lf.
  destruct (py_int lib d); [apply io_keeps_ret|].
  apply io_keeps_bind; [apply io_keeps_print|]. intros ?. apply io_keeps_ret.
Qed.

(** X13 (what validate_input changes). Whatever its outcome,
    [validate_input] leaves the file system as it is, but for one case:
    the second word did not name a folder, the first line typed was [y]
    or [Y], and the file system is the one [os.makedirs] left for that
    word. *)
Theorem validate_input_changes str w :
  st_fs (w_state (io_final (validate_input lib str w))) = st_fs (w_state w)
  ∨ ∃ a b rest answer more,
      shlex_split lib str = Some (a :: b :: rest)
      ∧ is_dir (st_fs (w_state w)) (resolve lib b) = false
      ∧ w_stdin w = answer :: more
      ∧ (answer = "y" ∨ answer = "Y")
      ∧ st_fs (w_state (io_final (validate_input lib str w)))
        = (fs_makedirs (resolve lib b) (st_fs (w_state w))).2.
Proof.
  pose proof (validate_input_short str w) as Hshort.
  destruct (shlex_split lib str) as [[|a [|b [|c [|d rest]]]]|] eqn:Hs;
    try (rewrite Hshort; by left).
  clear Hshort. rewrite (validate_input_eq str a b c d rest w Hs).
  destruct (source_unusable_eq a (w_state w)) as (s1 & E1 & Hfs1 & Hqu1).
  rewrite (io_bind_Val _ _ _ _ _ (lift_Ok _ _ _ _ E1)).
  set (w1 := World s1 (w_stdin w) (w_prompts w)).
  destruct (negb (is_dir _ _) || bool_decide _).
  { left. unfold io_bind, lift, print, io_ret. simpl. done. }
  pose proof (io_keeps_after_replica a b c d rest) as Hk.
  destruct (ensure_replica_cases b w1) as [[Hb (w2 & E2 & H2 & _)]|[Hb H]].
  { left. rewrite (io_bind_Val _ _ _ _ _ E2), Hk, H2. done. }
  simpl in Hb, H. rewrite Hfs1 in Hb, H.
  destruct H as [[_ (w2 & E2 & H2)]|(answer & more & Hin & H)].
  { left. rewrite (io_bind_Exc _ _ _ _ _ E2). simpl. by rewrite H2. }
  destruct H as [[Hy [(w2 & E2 & Hmk & _)|(e & w2 & E2 & Hmk)]]|[Hy (w2 & E2 & H2 & _)]].
  - right. exists a, b, (c :: d :: rest), answer, more.
    split; [done|]. split; [done|]. split; [done|]. split.
    { unfold answer_yes in Hy. apply orb_true_iff in Hy as [H|H];
        apply bool_decide_eq_true in H; auto. }
    rewrite (io_bind_Val _ _ _ _ _ E2), Hk, Hmk. done.
  - right. exists a, b, (c :: d :: rest), answer, more.
    split; [done|]. split; [done|]. split; [done|]. split.
    { unfold answer_yes in Hy. apply orb_true_iff in Hy as [H|H];
        apply bool_decide_eq_true in H; auto. }
    rewrite (io_bind_Exc _ _ _ _ _ E2), Hmk. done.
  - left. rewrite (io_bind_Val _ _ _ _ _ E2), Hk, H2. done.
Qed.

Lemma validate_input_clean str a b c d rest n w :
  shlex_split lib str = Some (a :: b :: c :: d :: rest) →
  is_dir (st_fs (w_state w)) (resolve lib a) = true →
  listdir (st_fs (w_state w)) (resolve lib a) ≠ [] →
  is_dir (st_fs (w_state w)) (resolve lib b) = true →
  listdir (st_fs (w_state w)) (resolve lib b) = [] →
  py_int lib d = Some n →
  ∃ w', validate_input lib str w
        = Val (Some (Params a b
                       (if negb (is_file (st_fs (w_state w)) (resolve lib c))
                           && negb (str_endswith c ".txt")
                        then c +:+ "\log.txt" else c)
                       (n * 60) rest)) w'
        ∧ st_fs (w_state w') = st_fs (w_state w)
        ∧ st_queue (w_state w') = st_queue (w_state w)
        ∧ w_stdin w' = w_stdin w
        ∧ w_prompts w' = w_prompts w.
Proof.
  intros Hs Ha Hla Hb Hlb Hint.
  rewrite (validate_input_eq str a b c d rest w Hs).
  destruct (source_unusable_eq a (w_state w)) as (s1 & E1 & Hfs1 & Hqu1).
  rewrite (io_bind_Val _ _ _ _ _ (lift_Ok _ _ _ _ E1)).
  rewrite Ha, bool_decide_eq_false_2 by done. cbn [negb orb].
  set (w1 := World s1 (w_stdin w) (w_prompts w)).
  destruct (ensure_replica_cases b w1) as [[_ (w2 & E2 & H2 & Hi2 & Hp2 & Hqu2)]|[Hb' _]].
  2:{ simpl in Hb'. rewrite Hfs1 in Hb'. congruence. }
  rewrite (io_bind_Val _ _ _ _ _ E2). cbn [negb].
  simpl in H2. rewrite Hfs1 in H2.
  pose proof (confirm_replica_cases a b w2) as Hconf.
  rewrite H2 in Hconf. apply is_dir_true in Hb. rewrite Hb in Hconf.
  destruct Hconf as [(_ & w3 & E3 & H3 & Hi3 & Hp3 & Hqu3)|[Hne _]]; [|done].
  rewrite (io_bind_Val _ _ _ _ _ E3). cbn [negb].
  destruct (default_log_eq c (w_state w3)) as (s4 & E4 & Hfs4 & Hqu4).
  rewrite (io_bind_Val _ _ _ _ _ (lift_Ok _ _ _ _ E4)), Hint.
  rewrite H3, ?H2. eexists. split; [reflexivity|]. simpl.
  split; [congruence|]. split; [simpl in *; congruence|].
  split; [by rewrite Hi3, Hi2|by rewrite Hp3, Hp2].
Qed.

(** X14 (no question asked). For a line of at least four words of which
    the first names a folder that is not empty, the second a folder that
    is empty and the fourth stands for an integer, [validate_input]
    returns the parameters without a prompt, reads no line, and leaves
    the file system as it is; an integer that is zero or negative is
    accepted like any other. *)
Theorem validate_input_accepts str a b c d rest n w :
  shlex_split lib str = Some (a :: b :: c :: d :: rest) →
  is_dir (st_fs (w_state w)) (resolve lib a) = true →
  listdir (st_fs (w_state w)) (resolve lib a) ≠ [] →
  is_dir (st_fs (w_state w)) (resolve lib b) = true →
  listdir (st_fs (w_state w)) (resolve lib b) = [] →
  py_int lib d = Some n →
  ∃ w', validate_input lib str w
        = Val (Some (Params a b
                       (if negb (is_file (st_fs (w_state w)) (resolve lib c))
                           && negb (str_endswith c ".txt")
                        then c +:+ "\log.txt" else c)
                       (n * 60) rest)) w'
        ∧ st_fs (w_state w') = st_fs (w_state w)
        ∧ st_queue (w_state w') = st_queue (w_state w)
        ∧ w_stdin w' = w_stdin w
        ∧ w_prompts w' = w_prompts w.
Proof. exact (validate_input_clean str a b c d rest n w). Qed.

End Interactive.
(** ** The runs that follow a run *)

Lemma scheduler_run_synced src rep logf iv n :
  layout src rep logf →
  ∀ s t, synced src rep logf (st_fs s) →
    st_queue s = [Event t 1 (src, rep, logf, iv)] →
    ∃ s', scheduler_run n s = Ok tt s'
          ∧ (∀ q, q ≠ logf → st_fs s' !! q = st_fs s !! q)
          ∧ synced src rep logf (st_fs s').
Proof.
  intros Hlay. induction n as [|n IH]; intros s t Hsync Hq.
  { exists s. split; [done|]. by split. }
  cbn [scheduler_run]. rewrite bind_eq. unfold sched_round. rewrite Hq.
  cbn [ev_time ev_args]. destruct (st_clock s <? t)%Z.
  - cbn.
    destruct (IH (set_clock (st_clock s + (t - st_clock s)) s) t Hsync Hq)
      as (s' & H1 & H2 & H3).
    by exists s'.
  - rewrite bind_eq.
    destruct (run_synced src rep logf iv Hlay (set_queue [] s) Hsync)
      as (s1 & Hrun & Hfs1 & _).
    rewrite Hrun. cbn.
    assert (synced src rep logf (st_fs s1)) as Hsync1.
    { eapply (run_establishes_synced src rep logf iv (set_queue [] s)); try done.
      apply Hsync. }
    pose proof (run_queue _ _ _ _ _ _ Hrun) as Hq1. simpl in Hq1.
    destruct (IH (set_clock (st_clock s1 + 0) s1) (st_clock s1 + iv)%Z)
      as (s' & Hrun' & Hfs' & Hsync'); [done|done|].
    exists s'. split; [done|]. split; [|done].
    intros q Hql. rewrite Hfs' by done. simpl. by rewrite Hfs1.
Qed.

Lemma scheduler_run_steady src rep logf iv rounds s s1 :
  layout src rep logf → wf (st_fs s) → st_queue s = [] →
  sync_folders src rep logf iv s = Ok tt s1 →
  ∃ s', scheduler_run rounds s1 = Ok tt s'
        ∧ ∀ q, q ≠ logf → st_fs s' !! q = st_fs s1 !! q.
Proof.
  intros Hlay Hwf Hq Hrun.
  pose proof (run_queue _ _ _ _ _ _ Hrun) as Hq1. rewrite Hq in Hq1. simpl in Hq1.
  destruct (scheduler_run_synced src rep logf iv rounds Hlay s1 _
              (run_establishes_synced src rep logf iv s s1 Hlay Hwf Hrun) Hq1)
    as (s' & H1 & H2 & _).
  by exists s'.
Qed.

(** X15 (the runs that follow). With the source folder, the replica
    folder and the log file apart, after a first run that completed,
    started with an empty queue, any number of rounds of the scheduler
    return without exception, and the runs they make leave every entry
    but the log file as the first run left it. *)
Theorem later_runs_complete src rep logf iv rounds s s1 :
  layout src rep logf → wf (st_fs s) → st_queue s = [] →
  sync_folders src rep logf iv s = Ok tt s1 →
  ∃ s', scheduler_run rounds s1 = Ok tt s'
        ∧ ∀ q, q ≠ logf → st_fs s' !! q = st_fs s1 !! q.
Proof. exact (scheduler_run_steady src rep logf iv rounds s s1). Qed.
(** ** A turn of the command loop *)

Lemma listdir_empty_beneath (fs : fsys) top n r :
  wf fs → listdir fs top = [] → fs !! (top ++ n :: r) = None.
Proof.
  intros Hwf Hl. apply (wf_none_beneath fs (top ++ [n])); [done| |].
  - by apply listdir_nil.
  - exists r. by rewrite <- app_assoc.
Qed.

(** ** The deletion pass and a source folder that is missing *)



(** ** The log file mirrors the console *)

Lemma appended_app logf tr1 tr2 :
  appended logf (tr1 ++ tr2) = appended logf tr1 +:+ appended logf tr2.
Proof.
  induction tr1 as [|sc tr1 IH]; [done|].
  rewrite <- app_comm_cons, !appended_cons, IH.
  destruct sc; try done. case_decide; [|done]. by rewrite str_app_assoc.
Qed.

Lemma stamped_app ev1 ev2 : stamped (ev1 ++ ev2) = stamped ev1 +:+ stamped ev2.
Proof.
  induction ev1 as [|e ev1 IH]; [done|].
  simpl. rewrite IH. by rewrite !str_app_assoc.
Qed.

Lemma tells_at_bind {A B} logf s (m : M A) (k : A → M B) :
  tells_at logf s m → (∀ a s1, m s = Ok a s1 → tells_at logf s1 (k a)) →
  tells_at logf s (bind m k).
Proof.
  unfold tells_at. rewrite bind_eq. intros Hm Hk.
  destruct (m s) as [a s1|e s1]; [|done].
  specialize (Hk a s1 eq_refl). destruct (k a s1) as [b s2|e s2]; [|done].
  destruct Hm as (ev1 & tr1 & Ho1 & Ht1 & Ha1).
  destruct Hk as (ev2 & tr2 & Ho2 & Ht2 & Ha2).
  exists (ev1 ++ ev2), (tr1 ++ tr2).
  rewrite Ho2, Ho1, Ht2, Ht1, fmap_app, appended_app, stamped_app, Ha1, Ha2.
  by rewrite !app_assoc.
Qed.

Lemma tells_bind {A B} logf (m : M A) (k : A → M B) :
  tells logf m → (∀ a, tells logf (k a)) → tells logf (bind m k).
Proof. intros Hm Hk s. apply tells_at_bind; [apply Hm|]. intros a s1 _. apply Hk. Qed.

Lemma tells_ret {A} logf (a : A) : tells logf (ret a).
Proof. intros s. exists [], []. simpl. by rewrite !app_nil_r. Qed.

Lemma tells_raise {A} logf e : tells logf (@raise A e).
Proof. by intros s. Qed.

Lemma tells_local {A} logf (f : state → state) (g : state → A) :
  (∀ s, st_trace (f s) = st_trace s) → (∀ s, st_stdout (f s) = st_stdout s) →
  tells logf (λ s, Ok (g s) (f s)).
Proof.
  intros H1 H2 s. exists [], []. simpl. by rewrite H1, H2, !app_nil_r.
Qed.

Lemma tells_for_each {A} logf (l : list A) body :
  (∀ x, x ∈ l → tells logf (body x)) → tells logf (for_each l body).
Proof.
  induction l as [|x l IH]; intros H; simpl.
  - apply tells_ret.
  - apply tells_bind; [apply H; left|]. intros _. apply IH.
    intros y Hy. apply H. by right.
Qed.

(** A call that is neither a print nor an append. *)
Lemma tells_fs_call logf sc op :
  match sc with SysAppend _ _ => False | _ => True end →
  tells logf (fs_call sc op).
Proof.
  intros Hsc s. unfold tells_at, fs_call.
  destruct (op (st_fs (tick sc s))) as [[e|] fs']; [done|].
  exists [], [sc]. split; [by rewrite app_nil_r|]. split; [done|].
  rewrite appended_cons. by destruct sc.
Qed.

Lemma tells_os_path_exists logf p : tells logf (os_path_exists p).
Proof. intros s. exists [], [SysStat p]. simpl. by rewrite app_nil_r. Qed.

Lemma tells_os_scandir logf p : tells logf (os_scandir p).
Proof. intros s. exists [], [SysScandir p]. simpl. by rewrite app_nil_r. Qed.

Lemma tells_get_md5 logf p : tells logf (get_md5 p).
Proof.
  intros s. unfold tells_at, get_md5. rewrite bind_eq. unfold open_rb.
  destruct (fs_open_rb p (st_fs s)); [done|].
  exists [], [SysOpenRead p]. simpl. by rewrite app_nil_r.
Qed.

(** A message is printed, a counter may be incremented, and the message
    goes to the log file with the time. *)
Lemma tells_announce logf msg (f : state → state) :
  (∀ s, st_trace (f s) = st_trace s) → (∀ s, st_stdout (f s) = st_stdout s) →
  (∀ s, st_clock (f s) = st_clock s) → (∀ s, st_fs (f s) = st_fs s) →
  tells logf (print msg ;; (λ s, Ok tt (f s)) ;; log_event logf msg).
Proof.
  intros H1 H2 H3 H4 s. unfold tells_at. rewrite !bind_eq.
  unfold print at 1. cbv beta iota. rewrite bind_eq. cbv beta iota.
  unfold log_event. destruct (encodes msg).
  2:{ rewrite bind_eq. by destruct (fs_call _ _ _). }
  unfold fs_call.
  match goal with |- context [fs_append logf ?d ?fs] =>
    destruct (fs_append logf d fs) as [[e|] fs'] end; [done|].
  rewrite H3. cbn [st_clock set_stdout].
  exists [((st_clock s + latency (SysPrint msg))%Z, msg)],
         [SysPrint msg;
          SysAppend logf (strftime (st_clock s + latency (SysPrint msg))
                          +:+ " - " +:+ msg +:+ nl)].
  simpl. rewrite H1, H2. simpl. rewrite <- app_assoc.
  split; [done|]. split; [done|].
  case_decide; [|done]. by rewrite !str_app_assoc.
Qed.

Lemma tells_delete_file src rep logf root name :
  tells logf (delete_file src rep logf root name).
Proof.
  unfold delete_file. apply tells_bind; [apply tells_os_path_exists|].
  intros [|]; [apply tells_ret|].
  apply tells_bind; [by apply tells_fs_call|]. intros _.
  by apply (tells_announce logf _
              (λ s, set_counters (file_copied_counter s) (S (file_removed_counter s))
                      (file_identical_counter s) s)).
Qed.

Lemma tells_delete_dir src rep logf root name :
  tells logf (delete_dir src rep logf root name).
Proof.
  unfold delete_dir. apply tells_bind; [apply tells_os_path_exists|].
  intros [|]; [apply tells_ret|].
  apply tells_bind; [by apply tells_fs_call|]. intros _.
  intros s. by apply (tells_announce logf _ (λ s, s)).
Qed.

Lemma tells_copy_file src rep logf a : tells logf (copy_file src rep logf a).
Proof.
  unfold copy_file. apply tells_bind; [apply tells_os_path_exists|].
  intros dir_found. apply tells_bind.
  { destruct dir_found; [apply tells_ret|by apply tells_fs_call]. }
  intros _. apply tells_bind; [apply tells_os_path_exists|].
  intros found. apply tells_bind.
  { destruct found; [|apply tells_ret].
    apply tells_bind; [apply tells_get_md5|]. intros h1.
    apply tells_bind; [apply tells_get_md5|]. intros h2. apply tells_ret. }
  intros [|].
  - by apply (tells_announce logf _
                (λ s, set_counters (file_copied_counter s) (file_removed_counter s)
                        (S (file_identical_counter s)) s)).
  - apply tells_bind; [by apply tells_fs_call|]. intros _.
    by apply (tells_announce logf _
                (λ s, set_counters (S (file_copied_counter s)) (file_removed_counter s)
                        (file_identical_counter s) s)).
Qed.

Lemma tells_os_walk logf n topdown top body :
  (∀ root dirs files, tells logf (body root dirs files)) →
  tells logf (os_walk n topdown top body).
Proof.
  intros Hbody. revert top. induction n as [|n IH]; intros top; simpl.
  - apply tells_raise.
  - apply tells_bind; [apply tells_os_scandir|].
    intros [[dirs files]|]; [|apply tells_ret].
    assert (tells logf (for_each dirs (λ d, os_walk n topdown (top ++ [d]) body)))
      as Hsub.
    { apply tells_for_each. intros d _. apply IH. }
    destruct topdown; apply tells_bind; try done; intros ?; done.
Qed.

Lemma tells_scan_body logf root dirs files : tells logf (scan_body root dirs files).
Proof.
  unfold scan_body. apply tells_for_each. intros name _.
  by apply (tells_local logf (λ s, set_source_files (source_files s ++ [root ++ [name]]) s)
              (λ _, tt)).
Qed.

Lemma tells_delete_body src rep logf root dirs files :
  tells logf (delete_body src rep logf root dirs files).
Proof.
  unfold delete_body. apply tells_bind.
  - apply tells_for_each. intros ? _. apply tells_delete_file.
  - intros _. apply tells_for_each. intros ? _. apply tells_delete_dir.
Qed.

(** X19 (the log mirrors the console). With the log file, a regular file,
    not at or under the replica folder, a run that completes has printed
    the message of each event and then the three lines of the summary,
    and has added to the log file, after its former content, one line
    for each of these messages, in the same order, which is the time, a
    dash and the message, and then the three lines of the summary. *)
Theorem log_mirrors_console src rep logf iv s s' c :
  ¬ rep `prefix_of` logf →
  st_fs s !! logf = Some (File c) →
  sync_folders src rep logf iv s = Ok tt s' →
  ∃ events : list (Z * string),
    st_stdout s' = st_stdout s ++ events.*2 ++ summary_lines s'
    ∧ st_fs s' !! logf
      = Some (File (c +:+ stamped events
                      +:+ String.concat "" (summary_lines s'))).
Proof.
  intros Hrl Hc Hrun.
  destruct (emits_sync_folders src rep logf iv s) as (tr & Htr & HF & Hfs & _).
  rewrite Hrun in Htr, Hfs. simpl in Htr, Hfs.
  pose proof (replay_appended src rep logf tr (st_fs s) c Hrl HF Hc) as Hlog.
  rewrite <- Hfs in Hlog.
  apply sync_folders_Ok in Hrun as (sa & sb & sc & sd & Ha & Hb & Hcp & Hd & ->).
  pose proof (tells_os_walk logf (S (depth (st_fs s))) true src scan_body
                (tells_scan_body logf)
                (set_source_files [] (set_counters 0 0 0 s))) as Ta.
  pose proof (tells_os_walk logf (S (depth (st_fs sa))) false rep
                (delete_body src rep logf) (tells_delete_body src rep logf) sa) as Tb.
  pose proof (tells_for_each logf (source_files sb) (copy_file src rep logf)
                (λ x _, tells_copy_file src rep logf x) sb) as Tc.
  unfold tells_at in Ta, Tb, Tc. rewrite Ha in Ta. rewrite Hb in Tb. rewrite Hcp in Tc.
  destruct Ta as (ev1 & tr1 & Ho1 & Ht1 & Ha1).
  destruct Tb as (ev2 & tr2 & Ho2 & Ht2 & Ha2).
  destruct Tc as (ev3 & tr3 & Ho3 & Ht3 & Ha3).
  simpl in Ho1, Ht1.
  pose proof (report_log logf sc sd Hd) as (_ & H1 & H2 & H3 & Hout).
  assert (st_trace sd
          = st_trace sc ++ (SysPrint <$> summary_lines sc)
            ++ [SysAppend logf (String.concat "" (summary_lines sc))]) as Htd.
  { revert Hd. unfold report, summary_lines. cbn [for_each].
    unfold bind, print, ret, log_summary, fs_call. cbv beta iota.
    cbn [st_fs tick set_clock set_trace set_stdout st_stdout].
    match goal with |- context [fs_append logf ?d ?fs] =>
      destruct (fs_append logf d fs) as [[e|] fs'] end; [done|].
    intros [= <-]. simpl. by rewrite <- !app_assoc. }
  assert (summary_lines sd = summary_lines sc) as Hsum.
  { unfold summary_lines. by rewrite H1, H2, H3. }
  exists (ev1 ++ ev2 ++ ev3). cbn [st_stdout st_fs set_queue] in *.
  split.
  - unfold summary_lines at 1. cbn [file_copied_counter file_removed_counter
      file_identical_counter set_queue].
    fold (summary_lines sd). rewrite Hsum, Hout, Ho3, Ho2, Ho1, !fmap_app.
    by rewrite <- !app_assoc.
  - rewrite Hlog. do 2 f_equal.
    assert (tr = tr1 ++ tr2 ++ tr3 ++ (SysPrint <$> summary_lines sc)
                 ++ [SysAppend logf (String.concat "" (summary_lines sc))]) as ->.
    { apply (app_inv_head (st_trace s)). rewrite <- Htr. cbn [st_trace set_queue].
      rewrite Htd, Ht3, Ht2, Ht1. by rewrite <- !app_assoc. }
    rewrite !appended_app, Ha1, Ha2, Ha3, !stamped_app, !str_app_assoc.
    do 3 f_equal.
    unfold summary_lines at 3. cbn [file_copied_counter file_removed_counter
      file_identical_counter set_queue]. fold (summary_lines sd). rewrite Hsum.
    unfold summary_lines at 1. cbn [fmap list_fmap]. 
    rewrite !appended_cons, decide_True by done. cbn [appended foldr].
    by rewrite str_app_nil_r.
Qed.

(** ** Commands that validate_input turns down *)

Section Rejected.

Variable lib : library.

(** X20 (a source folder that cannot be used). For a line of at least
    four words of which the first does not name a folder, or names a
    folder that is empty, [validate_input] returns nothing: it prints
    that the folder does not exist or is empty, asks no question, reads
    no line and leaves the file system as it is. *)
Theorem validate_input_rejects_source str a b c d rest w :
  shlex_split lib str = Some (a :: b :: c :: d :: rest) →
  is_dir (st_fs (w_state w)) (resolve lib a) = false
  ∨ listdir (st_fs (w_state w)) (resolve lib a) = [] →
  ∃ w', validate_input lib str w = Val None w'
        ∧ st_stdout (w_state w')
          = st_stdout (w_state w) ++ [a +:+ " does not exist or is empty"]
        ∧ st_fs (w_state w') = st_fs (w_state w)
        ∧ w_stdin w' = w_stdin w
        ∧ w_prompts w' = w_prompts w.
Proof.
  intros Hs Ha. rewrite (validate_input_eq lib str a b c d rest w Hs).
  unfold io_bind, lift, source_unusable, bind, os_path_isdir, os_listdir, ret,
    print, io_ret, is_dir in *.
  cbn [w_state w_stdin w_prompts st_fs tick set_clock set_trace].
  destruct (st_fs (w_state w) !! resolve lib a) as [[x|]|] eqn:E; cbn;
    try (eexists; split; [reflexivity|done]).
  destruct Ha as [Ha|Ha]; [done|]. rewrite E, Ha. cbn.
  eexists. split; [reflexivity|done].
Qed.

(** X21 (an interval that is no integer). For a line of at least four
    words of which the first names a folder that is not empty and the
    second a folder that is empty, but the fourth does not stand for an
    integer, [validate_input] returns nothing: it prints that the word is
    not an integer and leaves the file system as it is. *)
Theorem validate_input_rejects_interval str a b c d rest w :
  shlex_split lib str = Some (a :: b :: c :: d :: rest) →
  is_dir (st_fs (w_state w)) (resolve lib a) = true →
  listdir (st_fs (w_state w)) (resolve lib a) ≠ [] →
  is_dir (st_fs (w_state w)) (resolve lib b) = true →
  listdir (st_fs (w_state w)) (resolve lib b) = [] →
  py_int lib d = None →
  ∃ w', validate_input lib str w = Val None w'
        ∧ st_stdout (w_state w')
          = st_stdout (w_state w) ++ [d +:+ " is not a integer"]
        ∧ st_fs (w_state w') = st_fs (w_state w)
        ∧ w_stdin w' = w_stdin w
        ∧ w_prompts w' = w_prompts w.
Proof.
  intros Hs Ha Hla Hb Hlb Hint.
  rewrite (validate_input_eq lib str a b c d rest w Hs).
  apply is_dir_true in Ha, Hb.
  unfold io_bind, lift, source_unusable, ensure_replica, confirm_replica,
    default_log, bind, os_path_isdir, os_path_isfile, os_listdir, ret,
    print, io_ret, is_dir.
  cbn [w_state w_stdin w_prompts st_fs tick set_clock set_trace].
  rewrite Ha. cbn. rewrite Ha. cbn.
  rewrite bool_decide_eq_false_2 by (by rewrite names_nil). cbn.
  rewrite Hb. cbn.
  unfold io_bind, lift.
  cbn [w_state w_stdin w_prompts st_fs tick set_clock set_trace].
  rewrite Hb, Hlb. cbn. rewrite Hint. cbn.
  eexists. split; [reflexivity|done].
Qed.

End Rejected.

End Program.

(** * Sample runs *)

#[local] Abbreviation sample_sync :=
  (sync_folders sample_latency sample_strftime sample_encodable sample_source sample_replica
     sample_log 60).
#[local] Abbreviation sample_start := (initial_state sample_fs).
#[local] Abbreviation sample_end := (final (sample_sync sample_start)).
#[local] Abbreviation sample_delete :=
  (os_walk sample_latency (S (depth sample_fs)) false sample_replica
     (delete_body sample_latency sample_strftime sample_encodable sample_source sample_replica
        sample_log)).

Lemma sample_layout : layout sample_source sample_replica sample_log.
Proof. apply layoutb_layout. vm_compute. reflexivity. Qed.

Lemma sample_wf : wf sample_fs.
Proof. apply wfb_wf. vm_compute. reflexivity. Qed.

Lemma sample_run_ok : sample_sync sample_start = Ok tt sample_end.
Proof. vm_compute. reflexivity. Qed.

(** The run on the sample: two files and a folder removed, two files
    copied, no folder for the empty folder of the source, the next run due
    60 seconds after the 36 calls of this one. *)
Example sample_run_result :
  st_fs sample_end !! ["r"; "a.txt"] = Some (File "hi")
  ∧ st_fs sample_end !! ["r"; "dir"; "b.txt"] = Some (File "v2")
  ∧ st_fs sample_end !! ["r"; "old.txt"] = None
  ∧ st_fs sample_end !! ["r"; "gone"] = None
  ∧ st_fs sample_end !! ["r"; "empty"] = None
  ∧ (file_copied_counter sample_end, file_removed_counter sample_end,
     file_identical_counter sample_end) = (2, 2, 0)
  ∧ st_queue sample_end
    = [Event 96 1 (sample_source, sample_replica, sample_log, 60%Z)].
Proof. by vm_compute. Qed.

Lemma sync_mirrors_by_digest_witness :
  layout sample_source sample_replica sample_log
  ∧ wf sample_fs
  ∧ sample_sync sample_start = Ok tt sample_end
  ∧ (∀ rel c, rel ≠ [] →
       st_fs sample_end !! (sample_source ++ rel) = Some (File c) →
       ∃ c', st_fs sample_end !! (sample_replica ++ rel) = Some (File c')
             ∧ MD5.hexdigest c' = MD5.hexdigest c
             ∧ (c' = c ∨ sample_fs !! (sample_replica ++ rel) = Some (File c')))
  ∧ (∀ rel, rel ≠ [] → is_Some (st_fs sample_end !! (sample_replica ++ rel)) →
       is_Some (st_fs sample_end !! (sample_source ++ rel))).
Proof.
  split; [exact sample_layout|]. split; [exact sample_wf|].
  split; [exact sample_run_ok|].
  exact (sync_mirrors_by_digest sample_latency sample_strftime sample_encodable
           sample_source sample_replica sample_log 60 sample_start sample_end
           sample_layout sample_wf sample_run_ok).
Defined.

Lemma sync_idempotent_witness :
  layout sample_source sample_replica sample_log
  ∧ wf sample_fs
  ∧ sample_sync sample_start = Ok tt sample_end
  ∧ ∃ s2, sample_sync sample_end = Ok tt s2
          ∧ (∀ q, q ≠ sample_log → st_fs s2 !! q = st_fs sample_end !! q)
          ∧ file_copied_counter s2 = 0
          ∧ file_removed_counter s2 = 0
          ∧ file_identical_counter s2
            = size (regular_files sample_source (st_fs sample_end))
          ∧ ∃ tr, st_trace s2 = st_trace sample_end ++ tr ∧ Forall quiet tr.
Proof.
  split; [exact sample_layout|]. split; [exact sample_wf|].
  split; [exact sample_run_ok|].
  exact (sync_idempotent sample_latency sample_strftime sample_encodable
           sample_source sample_replica sample_log 60 sample_start sample_end
           sample_layout sample_wf sample_run_ok).
Defined.

Lemma sync_counters_witness :
  layout sample_source sample_replica sample_log
  ∧ wf sample_fs
  ∧ sample_sync sample_start = Ok tt sample_end
  ∧ (file_copied_counter sample_end + file_identical_counter sample_end
     = size (regular_files sample_source sample_fs)
     ∧ file_removed_counter sample_end
       = size (stale_files sample_source sample_replica sample_fs)
     ∧ ∃ tr, st_trace sample_end = [] ++ tr
             ∧ file_removed_counter sample_end = length (removed_files tr)
             ∧ file_copied_counter sample_end = length (copies tr)).
Proof.
  split; [exact sample_layout|]. split; [exact sample_wf|].
  split; [exact sample_run_ok|].
  exact (sync_counters sample_latency sample_strftime sample_encodable
           sample_source sample_replica sample_log 60 sample_start sample_end
           sample_layout sample_wf sample_run_ok).
Defined.

Lemma copy_skip_decision_witness :
  layout sample_source sample_replica sample_log
  ∧ wf sample_fs
  ∧ ["a.txt"] ≠ []
  ∧ sample_fs !! (sample_source ++ ["a.txt"]) = Some (File "hi")
  ∧ (∀ s', copy_file sample_latency sample_strftime sample_encodable sample_source sample_replica
             sample_log (sample_source ++ ["a.txt"]) sample_start = Ok tt s' →
           copy_post sample_source sample_replica sample_log ["a.txt"] "hi"
             sample_start s')
  ∧ (in_sync sample_replica sample_fs ["a.txt"] "hi" →
     is_file sample_fs sample_log = true →
     encodes sample_encodable (show_path (sample_source ++ ["a.txt"])) = true →
     ∃ s', copy_file sample_latency sample_strftime sample_encodable sample_source sample_replica
             sample_log (sample_source ++ ["a.txt"]) sample_start = Ok tt s').
Proof.
  assert (["a.txt"] ≠ @nil string) as Hrel by discriminate.
  assert (sample_fs !! (sample_source ++ ["a.txt"]) = Some (File "hi")) as Hc
    by (vm_compute; reflexivity).
  split; [exact sample_layout|]. split; [exact sample_wf|].
  split; [exact Hrel|]. split; [exact Hc|].
  exact (copy_skip_decision sample_latency sample_strftime sample_encodable
           sample_source sample_replica sample_log ["a.txt"] "hi" sample_start
           sample_layout sample_wf Hrel Hc).
Defined.

#[local] Abbreviation mismatch_sync :=
  (sync_folders sample_latency sample_strftime sample_encodable sample_source sample_replica
     sample_log 60 (initial_state mismatch_fs)).

Lemma sync_error_aborts_witness :
  st_trace (final mismatch_sync)
  = [] ++ [SysScandir ["s"]; SysScandir ["s"; "sub"]; SysScandir ["r"];
           SysScandir ["r"; "d"]; SysStat ["s"; "d"]; SysStat ["r"];
           SysStat ["r"; "d"]; SysOpenRead ["s"; "d"]]
       ++ SysOpenRead ["r"; "d"] :: []
  ∧ sys_error (SysOpenRead ["r"; "d"])
      (replay [SysScandir ["s"]; SysScandir ["s"; "sub"]; SysScandir ["r"];
               SysScandir ["r"; "d"]; SysStat ["s"; "d"]; SysStat ["r"];
               SysStat ["r"; "d"]; SysOpenRead ["s"; "d"]] mismatch_fs)
    = Some IsADirectoryError
  ∧ ∃ s', mismatch_sync = Raise IsADirectoryError s'
          ∧ @nil syscall = []
          ∧ st_fs s'
            = replay ([SysScandir ["s"]; SysScandir ["s"; "sub"]; SysScandir ["r"];
                       SysScandir ["r"; "d"]; SysStat ["s"; "d"]; SysStat ["r"];
                       SysStat ["r"; "d"]; SysOpenRead ["s"; "d"]]
                      ++ [SysOpenRead ["r"; "d"]]) mismatch_fs
          ∧ st_queue s' = [].
Proof.
  assert (st_trace (final mismatch_sync)
          = [] ++ [SysScandir ["s"]; SysScandir ["s"; "sub"]; SysScandir ["r"];
                   SysScandir ["r"; "d"]; SysStat ["s"; "d"]; SysStat ["r"];
                   SysStat ["r"; "d"]; SysOpenRead ["s"; "d"]]
               ++ SysOpenRead ["r"; "d"] :: []) as Htr
    by (vm_compute; reflexivity).
  assert (sys_error (SysOpenRead ["r"; "d"])
            (replay [SysScandir ["s"]; SysScandir ["s"; "sub"]; SysScandir ["r"];
                     SysScandir ["r"; "d"]; SysStat ["s"; "d"]; SysStat ["r"];
                     SysStat ["r"; "d"]; SysOpenRead ["s"; "d"]] mismatch_fs)
          = Some IsADirectoryError) as He
    by (vm_compute; reflexivity).
  split; [exact Htr|]. split; [exact He|].
  exact (sync_error_aborts sample_latency sample_strftime sample_encodable
           sample_source sample_replica sample_log 60 (initial_state mismatch_fs)
           _ _ _ _ Htr He).
Defined.

Lemma next_run_after_completion_witness :
  (0 < 60)%Z
  ∧ st_queue sample_start = []
  ∧ sample_sync sample_start = Ok tt sample_end
  ∧ ∃ tr s2,
      st_trace sample_end = st_trace sample_start ++ tr
      ∧ st_clock sample_end
        = (st_clock sample_start + foldr Z.add 0 (sample_latency <$> tr))%Z
      ∧ st_queue sample_end
        = [Event (st_clock sample_end + 60) 1
             (sample_source, sample_replica, sample_log, 60%Z)]
      ∧ sched_round sample_latency sample_strftime sample_encodable sample_end
        = Ok true (set_clock (st_clock sample_end + 60) sample_end)
      ∧ sched_round sample_latency sample_strftime sample_encodable
          (set_clock (st_clock sample_end + 60) sample_end)
        = (sample_sync ;; time_sleep 0 ;; ret true) s2
      ∧ st_clock s2
        = (st_clock sample_start + foldr Z.add 0 (sample_latency <$> tr) + 60)%Z
      ∧ st_queue s2 = []
      ∧ st_fs s2 = st_fs sample_end.
Proof.
  assert (0 < 60)%Z as Hiv by lia.
  assert (st_queue sample_start = []) as Hq by reflexivity.
  split; [exact Hiv|]. split; [exact Hq|]. split; [exact sample_run_ok|].
  exact (next_run_after_completion sample_latency sample_strftime sample_encodable
           sample_source sample_replica sample_log 60 sample_start sample_end
           Hiv Hq sample_run_ok).
Defined.

Lemma source_untouched_witness :
  apart sample_source sample_replica
  ∧ ¬ sample_source `prefix_of` sample_log
  ∧ ∃ tr,
      st_trace sample_end = st_trace sample_start ++ tr
      ∧ (∀ sc p, sc ∈ tr → sample_source `prefix_of` p → ¬ writes sc p)
      ∧ (∀ p, sample_source `prefix_of` p →
           st_fs sample_end !! p = sample_fs !! p).
Proof.
  assert (apart sample_source sample_replica) as Hsr
    by (apply apartb_apart; vm_compute; reflexivity).
  assert (¬ sample_source `prefix_of` sample_log) as Hsl
    by (apply (proj2 (apartb_apart sample_log sample_source eq_refl))).
  split; [exact Hsr|]. split; [exact Hsl|].
  exact (source_untouched sample_latency sample_strftime sample_encodable
           sample_source sample_replica sample_log 60 sample_start Hsr Hsl).
Defined.

Lemma delete_iff_no_source_entry_witness :
  layout sample_source sample_replica sample_log
  ∧ wf sample_fs
  ∧ sample_delete sample_start = Ok tt (final (sample_delete sample_start))
  ∧ ∀ q, beneath sample_replica q → is_Some (sample_fs !! q) →
      (st_fs (final (sample_delete sample_start)) !! q = None
       ↔ sample_fs !! (sample_source ++ relpath q sample_replica) = None)
      ∧ (is_Some (sample_fs !! (sample_source ++ relpath q sample_replica)) →
         st_fs (final (sample_delete sample_start)) !! q = sample_fs !! q).
Proof.
  assert (sample_delete sample_start = Ok tt (final (sample_delete sample_start)))
    as Hrun by (vm_compute; reflexivity).
  split; [exact sample_layout|]. split; [exact sample_wf|]. split; [exact Hrun|].
  exact (delete_iff_no_source_entry sample_latency sample_strftime sample_encodable
           sample_source sample_replica sample_log sample_start _
           sample_layout sample_wf Hrun).
Defined.

Lemma folders_created_for_copies_only_witness :
  wf sample_fs
  ∧ (∀ q, sample_fs !! q ≠ Some Dir → st_fs sample_end !! q = Some Dir →
          ∃ rel, rel ≠ [] ∧ is_file sample_fs (sample_source ++ rel) = true
                 ∧ q `prefix_of` dirname (sample_replica ++ rel))
  ∧ (∀ rel, (∀ r, is_file sample_fs (sample_source ++ rel ++ r) = false) →
            sample_fs !! (sample_replica ++ rel) ≠ Some Dir →
            st_fs sample_end !! (sample_replica ++ rel) ≠ Some Dir).
Proof.
  split; [exact sample_wf|].
  exact (folders_created_for_copies_only sample_latency sample_strftime sample_encodable
           sample_source sample_replica sample_log 60 sample_start sample_wf).
Defined.


(** ** Runs on which the specification and the program part *)

#[local] Abbreviation collision_sync :=
  (sync_folders sample_latency sample_strftime sample_encodable sample_source sample_replica
     sample_log 60 (initial_state collision_fs)).

(** The replica holds a file that differs from the source file and has
    its MD5 digest: the run completes, counts the file as identical, and
    leaves the replica file as it is. *)
Lemma sync_collision_counterexample :
  layout sample_source sample_replica sample_log
  ∧ wf collision_fs
  ∧ ∃ s', collision_sync = Ok tt s'
          ∧ st_fs s' !! (sample_source ++ ["a.bin"]) = Some (File collision_a)
          ∧ st_fs s' !! (sample_replica ++ ["a.bin"]) = Some (File collision_b)
          ∧ collision_a ≠ collision_b
          ∧ file_identical_counter s' = 1.
Proof.
  split; [exact sample_layout|].
  split; [apply wfb_wf; vm_compute; reflexivity|].
  exists (final collision_sync).
  split; [vm_compute; reflexivity|].
  split; [vm_compute; reflexivity|].
  split; [vm_compute; reflexivity|].
  split; [|vm_compute; reflexivity].
  exact (proj1 md5_collision).
Qed.

(** The replica holds a folder where the source holds a file: the hashing
    of the replica path fails, and the run ends there. The failure is
    neither printed nor logged, the file [sub/e] of the source, which
    comes next, is not copied, and no next run is scheduled. *)
Lemma sync_abort_counterexample :
  layout sample_source sample_replica sample_log
  ∧ wf mismatch_fs
  ∧ ∃ s', mismatch_sync = Raise IsADirectoryError s'
          ∧ last (st_trace s') = Some (SysOpenRead ["r"; "d"])
          ∧ st_stdout s' = []
          ∧ st_fs s' !! sample_log = Some (File "")
          ∧ st_fs s' !! ["s"; "sub"; "e"] = Some (File "y")
          ∧ st_fs s' !! ["r"; "sub"; "e"] = None
          ∧ st_queue s' = [].
Proof.
  split; [exact sample_layout|].
  split; [apply wfb_wf; vm_compute; reflexivity|].
  exists (final mismatch_sync). by vm_compute.
Qed.

(** The replica holds a regular file where the source holds a folder: no
    file exists at the replica path of the source file [a/b], and the
    iteration of the copy loop for it fails in [shutil.copy2] instead of
    copying. *)
Example copy_file_blocked :
  layout sample_source sample_replica sample_log
  ∧ wf blocked_fs
  ∧ blocked_fs !! ["s"; "a"; "b"] = Some (File "x")
  ∧ blocked_fs !! ["r"; "a"; "b"] = None
  ∧ ∃ s', copy_file sample_latency sample_strftime sample_encodable sample_source sample_replica
            sample_log ["s"; "a"; "b"] (initial_state blocked_fs)
          = Raise NotADirectoryError s'
          ∧ st_fs s' = blocked_fs
          ∧ st_trace s' = [SysStat ["r"; "a"]; SysStat ["r"; "a"; "b"];
                           SysCopy2 ["s"; "a"; "b"] ["r"; "a"; "b"]].
Proof.
  split; [exact sample_layout|].
  split; [apply wfb_wf; vm_compute; reflexivity|].
  split; [vm_compute; reflexivity|]. split; [vm_compute; reflexivity|].
  eexists. split; [vm_compute; reflexivity|]. by vm_compute.
Qed.

(** The replica holds a folder where the source holds a file: a replica
    entry exists, it is no regular file, and the iteration fails in
    [get_md5] instead of copying. *)
Example copy_file_onto_folder :
  mismatch_fs !! ["s"; "d"] = Some (File "x")
  ∧ mismatch_fs !! ["r"; "d"] = Some Dir
  ∧ ∃ s', copy_file sample_latency sample_strftime sample_encodable sample_source sample_replica
            sample_log ["s"; "d"] (initial_state mismatch_fs)
          = Raise IsADirectoryError s'
          ∧ st_fs s' = mismatch_fs.
Proof.
  split; [vm_compute; reflexivity|]. split; [vm_compute; reflexivity|].
  eexists. split; [vm_compute; reflexivity|]. by vm_compute.
Qed.

(** ** The layout matters *)

(** With the log file under the source folder, a run writes under the
    source folder: here it creates the log file there, and its last call
    appends the summary to it. *)
Lemma source_written_counterexample :
  wf sample_fs
  ∧ sample_source `prefix_of` ["s"; "log.txt"]
  ∧ sample_fs !! ["s"; "log.txt"] = None
  ∧ ∃ s' text,
      sync_folders sample_latency sample_strftime sample_encodable sample_source
        sample_replica ["s"; "log.txt"] 60 sample_start = Ok tt s'
      ∧ last (st_trace s') = Some (SysAppend ["s"; "log.txt"] text)
      ∧ is_file (st_fs s') ["s"; "log.txt"] = true.
Proof.
  split; [exact sample_wf|]. split; [by exists ["log.txt"]|].
  split; [vm_compute; reflexivity|].
  eexists _, _. split; [vm_compute; reflexivity|]. by vm_compute.
Qed.

(** With the log file under the replica folder and no entry for it in the
    source, a run that follows a run removes the log file, which the
    first run created, and counts it, before it writes to it again. *)
Lemma sync_twice_counterexample :
  wf sample_fs
  ∧ ∃ s1 s2,
      sync_folders sample_latency sample_strftime sample_encodable sample_source
        sample_replica ["r"; "log.txt"] 60 sample_start = Ok tt s1
      ∧ sync_folders sample_latency sample_strftime sample_encodable sample_source
          sample_replica ["r"; "log.txt"] 60 s1 = Ok tt s2
      ∧ file_removed_counter s2 = 1
      ∧ removed_files (drop (length (st_trace s1)) (st_trace s2))
        = [["r"; "log.txt"]].
Proof.
  split; [exact sample_wf|].
  eexists _, _. split; [vm_compute; reflexivity|].
  split; [vm_compute; reflexivity|]. by vm_compute.
Qed.

(** With the log file in a folder of the replica that the source has too,
    the log file that the first removal creates is listed when the walk
    comes to its folder: it has no entry in the source, is removed, and
    is counted. The replica held one regular file without a source entry
    before the run, and the run counts two removals. *)
Lemma removed_counter_counterexample :
  wf nested_log_fs
  ∧ size (stale_files sample_source sample_replica nested_log_fs) = 1
  ∧ nested_log_fs !! ["r"; "a"; "log.txt"] = None
  ∧ ∃ s',
      sync_folders sample_latency sample_strftime sample_encodable sample_source
        sample_replica ["r"; "a"; "log.txt"] 60 (initial_state nested_log_fs)
      = Ok tt s'
      ∧ file_removed_counter s' = 2
      ∧ removed_files (st_trace s') = [["r"; "b"; "old.txt"]; ["r"; "a"; "log.txt"]].
Proof.
  split; [apply wfb_wf; vm_compute; reflexivity|].
  split; [vm_compute; reflexivity|]. split; [vm_compute; reflexivity|].
  eexists. split; [vm_compute; reflexivity|]. by vm_compute.
Qed.

(** With the log file under the replica folder, a run that completes
    leaves the log file in the replica, where the source has no entry
    for it. *)
Example log_under_replica_is_orphan :
  ∃ s',
    sync_folders sample_latency sample_strftime sample_encodable sample_source
      sample_replica ["r"; "log.txt"] 60 sample_start = Ok tt s'
    ∧ is_file (st_fs s') (sample_replica ++ ["log.txt"]) = true
    ∧ st_fs s' !! (sample_source ++ ["log.txt"]) = None.
Proof. eexists. split; [vm_compute; reflexivity|]. by vm_compute. Qed.

(** ** A name that is not encoded *)

(** The source holds a file whose name has a character that the encoding
    does not encode: the file is copied and the message is printed, the
    write to the log file raises [UnicodeEncodeError], and the run ends
    there, with nothing written to the log file. *)
Example unencoded_name_aborts :
  ∃ s',
    sync_folders sample_latency sample_strftime sample_encodable sample_source
      sample_replica sample_log 60 (initial_state unencoded_fs)
    = Raise UnicodeEncodeError s'
    ∧ st_fs s' !! ["r"; String (ascii_of_nat 255) ".txt"] = Some (File "x")
    ∧ length (st_stdout s') = 1
    ∧ st_fs s' !! sample_log = Some (File "")
    ∧ st_queue s' = [].
Proof. eexists. split; [vm_compute; reflexivity|]. by vm_compute. Qed.

(** * Sample runs for the further properties *)

#[local] Abbreviation first_start := (initial_state first_fs).
#[local] Abbreviation first_sync :=
  (sync_folders sample_latency sample_strftime sample_encodable sample_source sample_replica
     sample_log 60).
#[local] Abbreviation orphan_start := (initial_state orphan_fs).
#[local] Abbreviation first_world := (initial_world first_fs [sample_line]).
#[local] Abbreviation asked_world := (initial_world sample_fs ["y"]).
#[local] Abbreviation sample_params := (Params "/s" "/r" "/log.txt" 60 []).

Lemma first_wf : wf first_fs.
Proof. apply wfb_wf. vm_compute. reflexivity. Qed.

Lemma orphan_wf : wf orphan_fs.
Proof. apply wfb_wf. vm_compute. reflexivity. Qed.

Lemma sample_fits : fits sample_source sample_replica sample_fs.
Proof. apply fitsb_fits. vm_compute. reflexivity. Qed.

Lemma sample_names_source : names_encoded sample_encodable sample_source sample_fs.
Proof. apply names_encodedb_ok. vm_compute. reflexivity. Qed.

Lemma sample_names_replica : names_encoded sample_encodable sample_replica sample_fs.
Proof. apply names_encodedb_ok. vm_compute. reflexivity. Qed.

Lemma first_names_source : names_encoded sample_encodable sample_source first_fs.
Proof. apply names_encodedb_ok. vm_compute. reflexivity. Qed.

Lemma orphan_names_replica : names_encoded sample_encodable sample_replica orphan_fs.
Proof. apply names_encodedb_ok. vm_compute. reflexivity. Qed.

Lemma sample_replica_not_above_log : ¬ sample_replica `prefix_of` sample_log.
Proof. intros [k Hk]. discriminate. Qed.

Lemma first_replica_empty n r : first_fs !! (sample_replica ++ n :: r) = None.
Proof.
  apply (listdir_empty_beneath first_fs sample_replica n r first_wf).
  vm_compute. reflexivity.
Qed.

Lemma asked_validate :
  validate_input sample_latency sample_lib sample_line asked_world
  = Val _ (Some sample_params)
        (io_final (validate_input sample_latency sample_lib sample_line asked_world)).
Proof. vm_compute. reflexivity. Qed.


Lemma log_append_only_witness :
  ¬ sample_replica `prefix_of` sample_log
  ∧ st_fs sample_start !! sample_log = Some (File "")
  ∧ ∃ tr, st_trace (final (sample_sync sample_start))
          = st_trace sample_start ++ tr
          ∧ st_fs (final (sample_sync sample_start)) !! sample_log
            = Some (File ("" +:+ appended sample_log tr)).
Proof.
  assert (st_fs sample_start !! sample_log = Some (File "")) as Hlog
    by (vm_compute; reflexivity).
  split; [exact sample_replica_not_above_log|]. split; [exact Hlog|].
  exact (log_append_only sample_latency sample_strftime sample_encodable sample_source
           sample_replica sample_log 60 sample_start ""
           sample_replica_not_above_log Hlog).
Defined.

Lemma summary_ends_log_witness :
  sample_sync sample_start = Ok tt sample_end
  ∧ (∃ c0, st_fs sample_end !! sample_log
           = Some (File (c0
                         +:+ "Files copied - "
                         +:+ pretty (file_copied_counter sample_end) +:+ nl
                         +:+ "Files removed - "
                         +:+ pretty (file_removed_counter sample_end) +:+ nl
                         +:+ "Files unaltered - "
                         +:+ pretty (file_identical_counter sample_end) +:+ nl)))
  ∧ ∃ out, st_stdout sample_end
           = out ++ ["Files copied - "
                       +:+ pretty (file_copied_counter sample_end) +:+ nl;
                     "Files removed - "
                       +:+ pretty (file_removed_counter sample_end) +:+ nl;
                     "Files unaltered - "
                       +:+ pretty (file_identical_counter sample_end) +:+ nl].
Proof.
  split; [exact sample_run_ok|].
  exact (summary_ends_log sample_latency sample_strftime sample_encodable sample_source
           sample_replica sample_log 60 sample_start sample_end sample_run_ok).
Defined.

Lemma run_leaves_the_rest_witness :
  ¬ sample_replica `prefix_of` ["s"; "a.txt"]
  ∧ ["s"; "a.txt"] ≠ sample_log
  ∧ (st_fs (final (sample_sync sample_start)) !! ["s"; "a.txt"]
     = st_fs sample_start !! ["s"; "a.txt"]
     ∨ st_fs sample_start !! ["s"; "a.txt"] = None
       ∧ st_fs (final (sample_sync sample_start)) !! ["s"; "a.txt"] = Some Dir
       ∧ ["s"; "a.txt"] `prefix_of` sample_replica).
Proof.
  assert (¬ sample_replica `prefix_of` ["s"; "a.txt"]) as H1.
  { intros [k Hk]. discriminate. }
  assert (["s"; "a.txt"] ≠ sample_log) as H2 by discriminate.
  split; [exact H1|]. split; [exact H2|].
  exact (run_leaves_the_rest sample_latency sample_strftime sample_encodable sample_source
           sample_replica sample_log 60 sample_start ["s"; "a.txt"] H1 H2).
Defined.



Lemma one_event_pending_witness :
  st_queue sample_start = []
  ∧ match main sample_latency sample_strftime sample_encodable sample_source sample_replica
            sample_log 60 2 sample_start with
    | Ok _ s' => ∃ t, st_queue s'
                      = [Event t 1 (sample_source, sample_replica, sample_log, 60%Z)]
    | Raise _ s' => st_queue s' = []
    end.
Proof.
  split; [reflexivity|].
  exact (one_event_pending sample_latency sample_strftime sample_encodable sample_source
           sample_replica sample_log 60 2 sample_start eq_refl).
Defined.

Lemma nonpositive_interval_reruns_at_once_witness :
  (0 ≤ 0)%Z
  ∧ st_queue sample_start = []
  ∧ sync_folders sample_latency sample_strftime sample_encodable sample_source sample_replica
      sample_log 0 sample_start
    = Ok tt (final (sync_folders sample_latency sample_strftime sample_encodable sample_source
                      sample_replica sample_log 0 sample_start))
  ∧ sched_round sample_latency sample_strftime sample_encodable
      (final (sync_folders sample_latency sample_strftime sample_encodable sample_source
                sample_replica sample_log 0 sample_start))
    = (sync_folders sample_latency sample_strftime sample_encodable sample_source sample_replica
         sample_log 0 ;; time_sleep 0 ;; ret true)%prog
        (set_queue []
           (final (sync_folders sample_latency sample_strftime sample_encodable sample_source
                     sample_replica sample_log 0 sample_start))).
Proof.
  assert (0 ≤ 0)%Z as Hiv by lia.
  assert (sync_folders sample_latency sample_strftime sample_encodable sample_source sample_replica
            sample_log 0 sample_start
          = Ok tt (final (sync_folders sample_latency sample_strftime sample_encodable sample_source
                            sample_replica sample_log 0 sample_start))) as Hrun
    by (vm_compute; reflexivity).
  split; [exact Hiv|]. split; [reflexivity|]. split; [exact Hrun|].
  exact (nonpositive_interval_reruns_at_once sample_latency sample_strftime sample_encodable
           sample_source sample_replica sample_log 0 sample_start _
           Hiv eq_refl Hrun).
Defined.

Lemma validate_input_sound_witness :
  validate_input sample_latency sample_lib sample_line asked_world
  = Val _ (Some sample_params)
        (io_final (validate_input sample_latency sample_lib sample_line asked_world))
  ∧ ∃ c d n,
      shlex_split sample_lib sample_line
      = Some (p_source sample_params :: p_replica sample_params :: c :: d
              :: p_rest sample_params)
      ∧ py_int sample_lib d = Some n
      ∧ p_interval sample_params = (n * 60)%Z
      ∧ (p_log sample_params = c ∨ p_log sample_params = c +:+ "\log.txt")
      ∧ (is_file
           (st_fs (w_state (io_final (validate_input sample_latency sample_lib
                                        sample_line asked_world))))
           (resolve sample_lib (p_log sample_params)) = true
         ∨ str_endswith (p_log sample_params) ".txt" = true)
      ∧ is_dir (st_fs (w_state asked_world))
          (resolve sample_lib (p_source sample_params)) = true
      ∧ listdir (st_fs (w_state asked_world))
          (resolve sample_lib (p_source sample_params)) ≠ []
      ∧ is_dir
          (st_fs (w_state (io_final (validate_input sample_latency sample_lib
                                       sample_line asked_world))))
          (resolve sample_lib (p_replica sample_params)) = true.
Proof.
  split; [exact asked_validate|].
  exact (validate_input_sound sample_latency sample_lib sample_line asked_world
           sample_params _ asked_validate).
Defined.

Lemma validate_input_asks_witness :
  validate_input sample_latency sample_lib sample_line asked_world
  = Val _ (Some sample_params)
        (io_final (validate_input sample_latency sample_lib sample_line asked_world))
  ∧ (is_dir (st_fs (w_state asked_world))
       (resolve sample_lib (p_replica sample_params)) = false
     ∨ listdir (st_fs (w_state asked_world))
         (resolve sample_lib (p_replica sample_params)) ≠ [])
  ∧ ∃ answer rest,
      w_stdin asked_world = answer :: rest ∧ (answer = "y" ∨ answer = "Y").
Proof.
  assert (is_dir (st_fs (w_state asked_world))
            (resolve sample_lib (p_replica sample_params)) = false
          ∨ listdir (st_fs (w_state asked_world))
              (resolve sample_lib (p_replica sample_params)) ≠ []) as Hrep.
  { right. vm_compute. discriminate. }
  split; [exact asked_validate|]. split; [exact Hrep|].
  exact (validate_input_asks sample_latency sample_lib sample_line asked_world
           sample_params _ asked_validate Hrep).
Defined.

Lemma validate_input_index_error_witness :
  shlex_split sample_lib "/s /r" = Some ["/s"; "/r"]
  ∧ length ["/s"; "/r"] < 4
  ∧ validate_input sample_latency sample_lib "/s /r" asked_world
    = Exc _ IndexError asked_world.
Proof.
  assert (shlex_split sample_lib "/s /r" = Some ["/s"; "/r"]) as Hs
    by (vm_compute; reflexivity).
  assert (length ["/s"; "/r"] < 4) as Hl by (simpl; lia).
  split; [exact Hs|]. split; [exact Hl|].
  exact (validate_input_index_error sample_latency sample_lib "/s /r"
           ["/s"; "/r"] asked_world Hs Hl).
Defined.

Lemma validate_input_accepts_witness :
  shlex_split sample_lib sample_line = Some ["/s"; "/r"; "/log.txt"; "1"]
  ∧ is_dir (st_fs (w_state first_world)) (resolve sample_lib "/s") = true
  ∧ listdir (st_fs (w_state first_world)) (resolve sample_lib "/s") ≠ []
  ∧ is_dir (st_fs (w_state first_world)) (resolve sample_lib "/r") = true
  ∧ listdir (st_fs (w_state first_world)) (resolve sample_lib "/r") = []
  ∧ py_int sample_lib "1" = Some 1%Z
  ∧ ∃ w', validate_input sample_latency sample_lib sample_line first_world
          = Val _ (Some (Params "/s" "/r"
                         (if negb (is_file (st_fs (w_state first_world))
                                     (resolve sample_lib "/log.txt"))
                             && negb (str_endswith "/log.txt" ".txt")
                          then "/log.txt" +:+ "\log.txt" else "/log.txt")
                         (1 * 60) [])) w'
          ∧ st_fs (w_state w') = st_fs (w_state first_world)
          ∧ st_queue (w_state w') = st_queue (w_state first_world)
          ∧ w_stdin w' = w_stdin first_world
          ∧ w_prompts w' = w_prompts first_world.
Proof.
  assert (shlex_split sample_lib sample_line = Some ["/s"; "/r"; "/log.txt"; "1"])
    as Hs by (vm_compute; reflexivity).
  assert (is_dir (st_fs (w_state first_world)) (resolve sample_lib "/s") = true)
    as Ha by (vm_compute; reflexivity).
  assert (listdir (st_fs (w_state first_world)) (resolve sample_lib "/s") ≠ [])
    as Hla by (vm_compute; discriminate).
  assert (is_dir (st_fs (w_state first_world)) (resolve sample_lib "/r") = true)
    as Hb by (vm_compute; reflexivity).
  assert (listdir (st_fs (w_state first_world)) (resolve sample_lib "/r") = [])
    as Hlb by (vm_compute; reflexivity).
  assert (py_int sample_lib "1" = Some 1%Z) as Hint by (vm_compute; reflexivity).
  split; [exact Hs|]. split; [exact Ha|]. split; [exact Hla|].
  split; [exact Hb|]. split; [exact Hlb|]. split; [exact Hint|].
  exact (validate_input_accepts sample_latency sample_lib sample_line
           "/s" "/r" "/log.txt" "1" [] 1 first_world Hs Ha Hla Hb Hlb Hint).
Defined.

Lemma later_runs_complete_witness :
  layout sample_source sample_replica sample_log
  ∧ wf (st_fs sample_start)
  ∧ st_queue sample_start = []
  ∧ sample_sync sample_start = Ok tt sample_end
  ∧ ∃ s', scheduler_run sample_latency sample_strftime sample_encodable 3 sample_end = Ok tt s'
          ∧ ∀ q, q ≠ sample_log → st_fs s' !! q = st_fs sample_end !! q.
Proof.
  split; [exact sample_layout|]. split; [exact sample_wf|].
  split; [reflexivity|]. split; [exact sample_run_ok|].
  exact (later_runs_complete sample_latency sample_strftime sample_encodable sample_source
           sample_replica sample_log 60 3 sample_start sample_end
           sample_layout sample_wf eq_refl sample_run_ok).
Defined.




Lemma log_mirrors_console_witness :
  ¬ sample_replica `prefix_of` sample_log
  ∧ st_fs sample_start !! sample_log = Some (File "")
  ∧ sample_sync sample_start = Ok tt sample_end
  ∧ ∃ events : list (Z * string),
      st_stdout sample_end
      = st_stdout sample_start ++ events.*2 ++ summary_lines sample_end
      ∧ st_fs sample_end !! sample_log
        = Some (File ("" +:+ stamped sample_strftime events
                         +:+ String.concat "" (summary_lines sample_end))).
Proof.
  assert (st_fs sample_start !! sample_log = Some (File "")) as Hlog
    by (vm_compute; reflexivity).
  split; [exact sample_replica_not_above_log|]. split; [exact Hlog|].
  split; [exact sample_run_ok|].
  exact (log_mirrors_console sample_latency sample_strftime sample_encodable sample_source
           sample_replica sample_log 60 sample_start sample_end ""
           sample_replica_not_above_log Hlog sample_run_ok).
Defined.

Lemma validate_input_rejects_source_witness :
  shlex_split sample_lib sample_line = Some ["/s"; "/r"; "/log.txt"; "1"]
  ∧ (is_dir (st_fs (w_state (initial_world orphan_fs [])))
       (resolve sample_lib "/s") = false
     ∨ listdir (st_fs (w_state (initial_world orphan_fs [])))
         (resolve sample_lib "/s") = [])
  ∧ ∃ w', validate_input sample_latency sample_lib sample_line
            (initial_world orphan_fs [])
          = Val _ None w'
          ∧ st_stdout (w_state w')
            = st_stdout (w_state (initial_world orphan_fs []))
              ++ ["/s" +:+ " does not exist or is empty"]
          ∧ st_fs (w_state w') = st_fs (w_state (initial_world orphan_fs []))
          ∧ w_stdin w' = w_stdin (initial_world orphan_fs [])
          ∧ w_prompts w' = w_prompts (initial_world orphan_fs []).
Proof.
  assert (shlex_split sample_lib sample_line = Some ["/s"; "/r"; "/log.txt"; "1"])
    as Hs by (vm_compute; reflexivity).
  assert (is_dir (st_fs (w_state (initial_world orphan_fs [])))
            (resolve sample_lib "/s") = false
          ∨ listdir (st_fs (w_state (initial_world orphan_fs [])))
              (resolve sample_lib "/s") = []) as Ha.
  { left. vm_compute. reflexivity. }
  split; [exact Hs|]. split; [exact Ha|].
  exact (validate_input_rejects_source sample_latency sample_lib sample_line
           "/s" "/r" "/log.txt" "1" [] (initial_world orphan_fs []) Hs Ha).
Defined.

Lemma validate_input_rejects_interval_witness :
  shlex_split sample_lib "/s /r /log.txt soon"
  = Some ["/s"; "/r"; "/log.txt"; "soon"]
  ∧ is_dir (st_fs (w_state first_world)) (resolve sample_lib "/s") = true
  ∧ listdir (st_fs (w_state first_world)) (resolve sample_lib "/s") ≠ []
  ∧ is_dir (st_fs (w_state first_world)) (resolve sample_lib "/r") = true
  ∧ listdir (st_fs (w_state first_world)) (resolve sample_lib "/r") = []
  ∧ py_int sample_lib "soon" = None
  ∧ ∃ w', validate_input sample_latency sample_lib "/s /r /log.txt soon" first_world
          = Val _ None w'
          ∧ st_stdout (w_state w')
            = st_stdout (w_state first_world) ++ ["soon" +:+ " is not a integer"]
          ∧ st_fs (w_state w') = st_fs (w_state first_world)
          ∧ w_stdin w' = w_stdin first_world
          ∧ w_prompts w' = w_prompts first_world.
Proof.
  assert (shlex_split sample_lib "/s /r /log.txt soon"
          = Some ["/s"; "/r"; "/log.txt"; "soon"]) as Hs
    by (vm_compute; reflexivity).
  assert (is_dir (st_fs (w_state first_world)) (resolve sample_lib "/s") = true)
    as Ha by (vm_compute; reflexivity).
  assert (listdir (st_fs (w_state first_world)) (resolve sample_lib "/s") ≠ [])
    as Hla by (vm_compute; discriminate).
  assert (is_dir (st_fs (w_state first_world)) (resolve sample_lib "/r") = true)
    as Hb by (vm_compute; reflexivity).
  assert (listdir (st_fs (w_state first_world)) (resolve sample_lib "/r") = [])
    as Hlb by (vm_compute; reflexivity).
  assert (py_int sample_lib "soon" = None) as Hint by (vm_compute; reflexivity).
  split; [exact Hs|]. split; [exact Ha|]. split; [exact Hla|].
  split; [exact Hb|]. split; [exact Hlb|]. split; [exact Hint|].
  exact (validate_input_rejects_interval sample_latency sample_lib
           "/s /r /log.txt soon" "/s" "/r" "/log.txt" "soon" [] first_world
           Hs Ha Hla Hb Hlb Hint).
Defined.
